(** * SpectrumAnalyzer: the instrument-communication layer

    A shallow embedding of [SpectrumAnalyzer.py] (class [SpectrumAnalyzer]):
    the SCPI command/query channel, the IEEE block decoder, the measurement
    sequences, trace acquisition and screenshot retrieval.

    Conventions of the embedding:
    - the analyzer object [self] is an explicit state ([Analyzer]) threaded
      through a small state/exception monad [M];
    - the VISA resource [self.sa] is a record ([Resource]); the instrument
      behind it, the local file system and the Python built-ins [float] and
      [int] are the fields of an environment ([World]) over which every
      theorem is universally quantified;
    - what the class computes on floats (the span of [read_obwidth], the
      frequency axis of [fetch_trace]) is computed on the primitive
      binary64 floats, with the rounding, the infinities and the NaN of
      Python and numpy; a number that is only passed on (an argument
      formatted into a command, a decoded trace sample) is kept as its
      value, a rational;
    - [print] calls and [time.sleep] calls have no effect on the results and
      are left out, except the final diagnostic of [capture_screen], which
      carries [last_error]. *)

From Stdlib Require Import ZArith QArith List String Ascii Bool Lia.
From Stdlib Require Import Strings.Byte.
From Stdlib Require Import Floats Uint63.
Import ListNotations.

Local Open Scope Z_scope.

(** ** Exceptions *)

(** The Python exceptions that can travel through the class.  All of them
    are subclasses of [Exception], so [except Exception] catches each. *)
Inductive exn : Type :=
| NotConnected                (* ValueError("Analyzer not connected")   *)
| NotAnIEEEBlock              (* RuntimeError("Not an IEEE block")      *)
| NoTraceData                 (* RuntimeError("No trace data returned") *)
| InvalidIntLiteral           (* ValueError raised by int(...)          *)
| InvalidFloatLiteral         (* ValueError raised by float(...)        *)
| IndexOutOfRange             (* IndexError: hdr[1] on a short header   *)
| NoResource                  (* AttributeError: attribute of None      *)
| OverflowError               (* int too large for a float; int(inf)    *)
| IntOfNaN                    (* ValueError raised by int(nan)          *)
| InvalidTimeout              (* ValueError of pyvisa's timeout setter  *)
| VisaIOError (code : Z)      (* raised by the VISA transport           *)
| OSError (errno : Z).        (* raised by open() / f.write()           *)

(** VI_ERROR_TMO, the status code of a VISA timeout. *)
Definition VI_ERROR_TMO : Z := -1073807339.

(** ** Commands *)

(** An f-string: literal text interleaved with formatted numbers.  The
    rendering of a number as text is not modelled; the number itself is
    kept: [Num] for an argument of the caller formatted as it came, [Flt]
    for a binary64 float the class has computed. *)
Inductive piece : Type :=
| Lit (s : string)
| Num (x : Q)
| Flt (x : float).

Definition command : Type := list piece.

(** The double-quote character used inside the MMEM commands. *)
Definition dq : string := String (ascii_of_nat 34) EmptyString.

(** ** Numbers *)

(** A Python number as the class receives it: an [int] of any size or a
    binary64 [float]. *)
Inductive number : Type :=
| PyInt (n : Z)
| PyFloat (x : float).

(** The binary64 float nearest to an integer, ties to even; an infinity
    beyond the largest float. *)
Definition nearest_float (n : Z) : float :=
  SF2Prim (binary_normalize prec emax n 0 false).

(** An [int] operand of a float operation ([PyLong_AsDouble]): the nearest
    float, or OverflowError("int too large to convert to float") where
    that is an infinity. *)
Definition float_of_int (n : Z) : exn + float :=
  match binary_normalize prec emax n 0 false with
  | S754_infinity _ => inl OverflowError
  | x => inr (SF2Prim x)
  end.

(** An operand of a float operation. *)
Definition as_float (x : number) : exn + float :=
  match x with
  | PyInt n => float_of_int n
  | PyFloat x => inr x
  end.

(** [1 + x]: an [int] sum for an [int], a float sum for a float. *)
Definition one_plus (x : number) : number :=
  match x with
  | PyInt n => PyInt (1 + n)
  | PyFloat x => PyFloat (1 + x)%float
  end.

(** [int(x)] for a float [x]: truncation toward zero; OverflowError for an
    infinity, ValueError for NaN. *)
Definition py_int_of_float (x : float) : exn + Z :=
  match Prim2SF x with
  | S754_zero _ => inr 0
  | S754_finite s m e =>
      let a := Z.shiftl (Z.pos m) e in
      inr (if s then - a else a)
  | S754_infinity _ => inl OverflowError
  | S754_nan => inl IntOfNaN
  end.

(** The value of [i] in [np.arange(0, num)], and of the [int] divisor
    [num - 1], as floats: the nearest float, for every length an array
    can have (below 2^63). *)
Definition float_of_nat (n : nat) : float :=
  PrimFloat.of_uint63 (Uint63.of_Z (Z.of_nat n)).

(** [np.linspace(start, stop, num)] as numpy computes it, each operation
    rounded to binary64: the step is [(stop - start) / (num - 1)], sample
    [i] is [i * step + start] (or [i / (num - 1) * (stop - start) + start]
    when the step underflows to zero), and the last sample is overwritten
    with [stop] when [num > 1]. *)
Definition np_linspace (start stop : float) (num : nat) : list float :=
  let div := float_of_nat (num - 1) in
  let delta := (stop - start)%float in
  let step := (delta / div)%float in
  let scaled (i : nat) : float :=
    let y := float_of_nat i in
    if (1 <? num)%nat
    then (if PrimFloat.eqb step 0 then (y / div) * delta else y * step)%float
    else (y * delta)%float in
  let y := map (fun i => (scaled i + start)%float) (seq 0 num) in
  if (1 <? num)%nat then firstn (num - 1) y ++ [stop] else y.

(** ** The VISA resource and its environment *)

(** [self.sa]: a pyvisa message-based resource.
    - [timeout], [chunk_size]: its two attributes touched by the class
      ([chunk_size] is read with [getattr(self.sa, "chunk_size", 20000)],
      hence optional);
    - [sent]: every command handed to the transport so far, oldest first;
    - [rx]: the bytes the instrument has queued for [read_bytes];
    - [frag]: how the transport fragments the coming [read_bytes] calls:
      the k-th call returns at most the k-th entry many bytes; once the
      list is used up, reads are delivered in full. *)
Record Resource : Type := mkResource {
  timeout : Z;
  chunk_size : option Z;
  sent : list command;
  rx : list byte;
  frag : list nat
}.

(** Everything outside the class.
    - [on_write r c]: [self.sa.write(c)] on resource state [r]: an
      exception, or the receive queue and fragmentation the instrument
      leaves behind;
    - [on_query r c]: [self.sa.query(c)]: an exception or the raw reply;
    - [on_values r c]: [self.sa.query_binary_values(c, datatype='f',
      container=np.array)]: an exception or the decoded samples;
    - [fs_write name data]: [open(name, "wb")] followed by [f.write(data)];
    - [py_float]: Python's [float(str)], a binary64 float, [None] for
      ValueError;
    - [py_int_decode]: Python's [int(bytes.decode())]. *)
Record World : Type := mkWorld {
  on_write : Resource -> command -> exn + (list byte * list nat);
  on_query : Resource -> command -> exn + string;
  on_values : Resource -> command -> exn + list Q;
  fs_write : string -> list byte -> option exn;
  py_float : string -> option float;
  py_int_decode : list byte -> exn + Z
}.

(** One line of diagnostics on standard output. *)
Inductive message : Type :=
| AllAttemptsFailed (last_error : option exn).

(** [self].  [cfg_timeout] is the attribute [self.timeout] set by
    [__init__]; [sa] is [None] while disconnected. *)
Record Analyzer : Type := mkAnalyzer {
  resource_address : string;
  cfg_timeout : Z;
  sa : option Resource;
  console : list message
}.

Definition with_sa (s : Analyzer) (r : option Resource) : Analyzer :=
  mkAnalyzer (resource_address s) (cfg_timeout s) r (console s).

Definition with_console (s : Analyzer) (c : list message) : Analyzer :=
  mkAnalyzer (resource_address s) (cfg_timeout s) (sa s) c.

Definition with_timeout (r : Resource) (t : Z) : Resource :=
  mkResource t (chunk_size r) (sent r) (rx r) (frag r).

Definition with_chunk_size (r : Resource) (c : Z) : Resource :=
  mkResource (timeout r) (Some c) (sent r) (rx r) (frag r).

Definition with_sent (r : Resource) (l : list command) : Resource :=
  mkResource (timeout r) (chunk_size r) l (rx r) (frag r).

Definition with_rx (r : Resource) (q : list byte) (f : list nat) : Resource :=
  mkResource (timeout r) (chunk_size r) (sent r) q f.

(** ** The monad: state, exceptions, and running out of fuel *)

Inductive outcome (A : Type) : Type :=
| Ret (a : A)
| Raise (e : exn)
| Diverge.

Arguments Ret {A} a.
Arguments Raise {A} e.
Arguments Diverge {A}.

Definition M (A : Type) : Type := Analyzer -> outcome A * Analyzer.

Definition ret {A} (a : A) : M A := fun s => (Ret a, s).

Definition raise {A} (e : exn) : M A := fun s => (Raise e, s).

Definition diverge {A} : M A := fun s => (Diverge, s).

(** A pure computation that may raise. *)
Definition lift {A} (r : exn + A) : M A :=
  match r with
  | inl e => raise e
  | inr a => ret a
  end.

Definition bind {A B} (m : M A) (k : A -> M B) : M B := fun s =>
  match m s with
  | (Ret a, s1) => k a s1
  | (Raise e, s1) => (Raise e, s1)
  | (Diverge, s1) => (Diverge, s1)
  end.

(** [try: m  except Exception as e: h e] *)
Definition try_except {A} (m : M A) (h : exn -> M A) : M A := fun s =>
  match m s with
  | (Raise e, s1) => h e s1
  | other => other
  end.

(** [try: m  finally: fin].  The finaliser runs when [m] returns or raises;
    an exception of the finaliser replaces the result. *)
Definition try_finally {A} (m : M A) (fin : M unit) : M A := fun s =>
  match m s with
  | (Diverge, s1) => (Diverge, s1)
  | (o, s1) =>
      match fin s1 with
      | (Ret _, s2) => (o, s2)
      | (Raise e, s2) => (Raise e, s2)
      | (Diverge, s2) => (Diverge, s2)
      end
  end.

Declare Scope monad_scope.
Delimit Scope monad_scope with monad.
Notation "x <- m ;; k" := (bind m (fun x => k))
  (at level 61, m at next level, right associativity) : monad_scope.
Notation "m ;; k" := (bind m (fun _ => k))
  (at level 61, right associativity) : monad_scope.
Local Open Scope monad_scope.

(** ** Low-level channel *)

Section Channel.

Variable W : World.

(** [self.sa.write(cmd)] / [self.sa.query(cmd)] on a live resource: the
    command is recorded, then the instrument answers. *)
Definition sa_write (r : Resource) (cmd : command)
  : outcome unit * Resource :=
  let r1 := with_sent r (sent r ++ [cmd]) in
  match on_write W r cmd with
  | inl e => (Raise e, r1)
  | inr (q, f) => (Ret tt, with_rx r1 q f)
  end.

Definition sa_query (r : Resource) (cmd : command)
  : outcome string * Resource :=
  let r1 := with_sent r (sent r ++ [cmd]) in
  match on_query W r cmd with
  | inl e => (Raise e, r1)
  | inr reply => (Ret reply, r1)
  end.

Definition sa_query_binary_values (r : Resource) (cmd : command)
  : outcome (list Q) * Resource :=
  let r1 := with_sent r (sent r ++ [cmd]) in
  match on_values W r cmd with
  | inl e => (Raise e, r1)
  | inr v => (Ret v, r1)
  end.

(** Lift an operation of the resource to [self]; [if not self.sa: raise
    ValueError("Analyzer not connected")]. *)
Definition on_sa {A} (f : Resource -> outcome A * Resource) : M A := fun s =>
  match sa s with
  | None => (Raise NotConnected, s)
  | Some r => let (o, r1) := f r in (o, with_sa s (Some r1))
  end.

(** [str.strip()]: the ASCII white space of Python ([\t\n\v\f\r],
    [\x1c]..[\x1f] and the blank). *)
Definition is_space (c : ascii) : bool :=
  let n := nat_of_ascii c in
  ((9 <=? n) && (n <=? 13) || (28 <=? n) && (n <=? 32))%nat.

Fixpoint lstrip (s : string) : string :=
  match s with
  | EmptyString => EmptyString
  | String c t => if is_space c then lstrip t else s
  end.

Fixpoint rstrip (s : string) : string :=
  match s with
  | EmptyString => EmptyString
  | String c t =>
      match rstrip t with
      | EmptyString => if is_space c then EmptyString else String c EmptyString
      | t' => String c t'
      end
  end.

Definition strip (s : string) : string := rstrip (lstrip s).

Definition write (cmd : command) : M unit :=
  on_sa (fun r => sa_write r cmd).

Definition query (cmd : command) : M string :=
  resp <- on_sa (fun r => sa_query r cmd) ;;
  ret (strip resp).

Definition query_binary_values (cmd : command) : M (list Q) :=
  on_sa (fun r => sa_query_binary_values r cmd).

Definition wait_for_opc : M unit :=
  _ <- query [Lit "*OPC?"] ;; ret tt.

(** Attribute access on [self.sa] without the connection check. *)
Definition get_sa : M Resource := fun s =>
  match sa s with
  | None => (Raise NoResource, s)
  | Some r => (Ret r, s)
  end.

Definition set_timeout (t : Z) : M unit := fun s =>
  match sa s with
  | None => (Raise NoResource, s)
  | Some r => (Ret tt, with_sa s (Some (with_timeout r t)))
  end.

Definition set_chunk_size (c : Z) : M unit := fun s =>
  match sa s with
  | None => (Raise NoResource, s)
  | Some r => (Ret tt, with_sa s (Some (with_chunk_size r c)))
  end.

(** ** Controls *)

Definition set_center_frequency (freq_hz : Q) : M unit :=
  write [Lit "FREQ:CENT "; Num freq_hz; Lit " Hz"].

Definition get_center_frequency : M string := query [Lit "FREQ:CENT?"].

Definition set_span (span_hz : Q) : M unit :=
  write [Lit "FREQ:SPAN "; Num span_hz; Lit " Hz"].

Definition get_span : M string := query [Lit "FREQ:SPAN?"].

(** ** IEEE block decoder *)

(** [self.sa.read_bytes(count)].  The transport hands over [count] bytes,
    or fewer when it fragments this read; it raises a timeout when the
    instrument has not queued that many.  A count of zero or less returns
    no bytes. *)
Definition sa_read_bytes (count : Z) : M (list byte) := fun s =>
  match sa s with
  | None => (Raise NoResource, s)
  | Some r =>
      let want :=
        match frag r with
        | [] => count
        | k :: _ => Z.min count (Z.of_nat k)
        end in
      let n := Z.to_nat want in
      if (List.length (rx r) <? n)%nat
      then (Raise (VisaIOError VI_ERROR_TMO),
            with_sa s (Some (with_rx r (rx r) (tl (frag r)))))
      else (Ret (firstn n (rx r)),
            with_sa s (Some (with_rx r (skipn n (rx r)) (tl (frag r)))))
  end.

(** [int(chr(b))] for a single byte [b]: the value of an ASCII decimal
    digit, ValueError for every other byte. *)
Definition digit_value (b : byte) : option Z :=
  let n := Z.of_N (Byte.to_N b) in
  if (48 <=? n) && (n <=? 57) then Some (n - 48) else None.

(** The loop [while remaining: ...] of [_read_ieee_block]; [fuel] bounds
    the number of iterations. *)
Fixpoint read_payload (fuel : nat) (data : list byte) (remaining : Z)
  {struct fuel} : M (list byte) :=
  if remaining =? 0 then ret data
  else
    match fuel with
    | O => diverge
    | S fuel' =>
        chunk <- sa_read_bytes (Z.min 1048576 remaining) ;;
        read_payload fuel' (data ++ chunk)
          (remaining - Z.of_nat (List.length chunk))
    end.

Definition _read_ieee_block (fuel : nat) : M (list byte) :=
  hdr <- sa_read_bytes 2 ;;
  match hdr with
  | [] => raise NotAnIEEEBlock
  | b0 :: hdr_tl =>
      if negb (Byte.eqb b0 x23) then raise NotAnIEEEBlock
      else
        match hdr_tl with
        | [] => raise IndexOutOfRange
        | b1 :: _ =>
            match digit_value b1 with
            | None => raise InvalidIntLiteral
            | Some n_digits =>
                len_str <- sa_read_bytes n_digits ;;
                match py_int_decode W len_str with
                | inl e => raise e
                | inr total => read_payload fuel [] total
                end
            end
        end
  end.

End Channel.

(** ** Measurements *)

Section Measurements.

Variable W : World.

(** [if not self.sa: raise ValueError("Analyzer not connected")] *)
Definition require_connected : M unit := fun s =>
  match sa s with
  | None => (Raise NotConnected, s)
  | Some _ => (Ret tt, s)
  end.

Definition get_current_high_peak : M (option string) :=
  try_except
    (write W [Lit "CALC:MARK:MAX"] ;;
     y <- query W [Lit "CALC:MARK:Y?"] ;;
     ret (Some y))
    (fun _ => ret None).

Definition get_current_low_peak : M (option string) :=
  try_except
    (write W [Lit "CALC:MARK:MIN"] ;;
     y <- query W [Lit "CALC:MARK:Y?"] ;;
     ret (Some y))
    (fun _ => ret None).

Definition get_band_power (band_span_hz : Q) : M (option string) :=
  require_connected ;;
  r <- get_sa ;;
  let old_timeout := timeout r in
  set_timeout 10000 ;;
  try_finally
    (try_except
       (write W [Lit "CALC:MARK1:STAT ON"] ;;
        write W [Lit "CALC:MARK1:FUNC:BAND ON"] ;;
        status <- query W [Lit "CALC:MARK1:FUNC?"] ;;
        write W [Lit "CALC:MARK1:FUNC:BAND:SPAN "; Num band_span_hz] ;;
        span_rb <- query W [Lit "CALC:MARK1:FUNC:BAND:SPAN?"] ;;
        try_except
          (_ <- query W [Lit "CALC:MARK:FUNC BPOW"] ;; ret tt)
          (fun _ => ret tt) ;;
        power <- query W [Lit "CALC:MARK1:Y?"] ;;
        ret (Some power))
       (fun _ => ret None))
    (set_timeout old_timeout).

(** The span chosen by [read_obwidth]: [None in (ob_symbol_rate,
    ob_spread_factor, ob_tx_roll_off)] selects 10e6, otherwise
    [ob_symbol_rate * 1e3 * ob_spread_factor * (1 + ob_tx_roll_off) * 2],
    a product of floats evaluated from left to right, every [int] operand
    converted where it meets a float. *)
Definition span_hz (ob_symbol_rate ob_spread_factor ob_tx_roll_off
                    : option number) : exn + float :=
  match ob_symbol_rate, ob_spread_factor, ob_tx_roll_off with
  | Some sr, Some sf, Some ro =>
      match as_float sr with
      | inl e => inl e
      | inr a =>
          match as_float sf with
          | inl e => inl e
          | inr b =>
              match as_float (one_plus ro) with
              | inl e => inl e
              | inr c => inr (a * 1e3 * b * c * 2)%float
              end
          end
      end
  | _, _, _ => inr 10e6%float
  end.

Definition read_obwidth (ob_symbol_rate ob_spread_factor ob_tx_roll_off
                         : option number) : M (option string) :=
  try_except
    (span <- lift (span_hz ob_symbol_rate ob_spread_factor
                     ob_tx_roll_off) ;;
     write W [Lit ":SENSe:OBWidth:FREQ:SPAN "; Flt span; Lit " Hz"] ;;
     readback <- query W [Lit ":SENSe:OBWidth:FREQ:SPAN?"] ;;
     result <- query W [Lit ":READ:OBWidth?"] ;;
     ret (Some result))
    (fun _ => ret None).

(** ** Trace acquisition *)

(** [float(text)] *)
Definition float_of (text : string) : M float :=
  match py_float W text with
  | Some x => ret x
  | None => raise InvalidFloatLiteral
  end.

(** [float(text or default)]: an empty reply is falsy and selects the
    default; any other reply is parsed. *)
Definition float_or (text : string) (default : float) : M float :=
  match text with
  | EmptyString => ret default
  | _ => float_of text
  end.

Definition fetch_trace (trace_name : string) : M (list float * list Q) :=
  require_connected ;;
  try_except
    (write W [Lit ":FORM REAL,32"] ;;
     write W [Lit ":FORM:BORD SWAP"])
    (fun _ => ret tt) ;;
  pts <- try_except
           (resp <- query W [Lit "SWE:POIN?"] ;;
            x <- float_of resp ;;
            lift (py_int_of_float x))
           (fun _ => ret 1001%Z) ;;
  trace <- query_binary_values W [Lit ("TRAC:DATA? " ++ trace_name)] ;;
  if (List.length trace =? 0)%nat then raise NoTraceData
  else
    let pts := if negb (Z.of_nat (List.length trace) =? pts)%Z
               then Z.of_nat (List.length trace) else pts in
    cf_text <- get_center_frequency W ;;
    cf <- float_or cf_text 0%float ;;
    span_text <- get_span W ;;
    span <- float_or span_text 1%float ;;
    ret (np_linspace (cf - span / 2)%float (cf + span / 2)%float
           (Z.to_nat pts), trace).

(** ** Screenshot retrieval *)

(** [needle in hay] on strings. *)
Fixpoint contains (hay needle : string) : bool :=
  if prefix needle hay then true
  else
    match hay with
    | EmptyString => false
    | String _ rest => contains rest needle
    end.

Definition attempts : list (string * string) :=
  [ ("D:\\Users\\Instrument\\Documents\\SA\\screen",
     "hiSky instrument SA screen folder");
    ("SA\\screen", "default subdir");
    ("C:\\temp", "root temp dir");
    ("D:\\", "root D drive");
    ("C:\\", "root C drive") ]%string.

Definition remote_name_of (timestamp : string) : string :=
  ("Screenshot_" ++ timestamp ++ ".PNG")%string.

Definition remote_path_of (timestamp subdir : string) : string :=
  (subdir ++ "\" ++ remote_name_of timestamp)%string.

Definition STOR (remote_path : string) : command :=
  [Lit (":MMEM:STOR:SCR " ++ dq ++ remote_path ++ dq)].

Definition CAT (subdir : string) : command :=
  [Lit (":MMEM:CAT? " ++ dq ++ subdir ++ dq)].

Definition DATA (remote_path : string) : command :=
  [Lit (":MMEM:DATA? " ++ dq ++ remote_path ++ dq)].

(** [with open(local_filename, "wb") as f: f.write(data)] *)
Definition write_file (local_filename : string) (data : list byte) : M unit :=
  fun s =>
    match fs_write W local_filename data with
    | Some e => (Raise e, s)
    | None => (Ret tt, s)
    end.

(** How one round of the [for subdir, desc in attempts] loop ends:
    [return local_filename, remote_path], [continue] after the listing
    reported the file absent, or falling out of a handler that has set
    [last_error = e]. *)
Inductive iteration : Type :=
| Returned (local_filename remote_path : string)
| Continued
| FellThrough (e : exn).

(** The transfer step of one round: the timeout and chunk-size override
    around the file request, with its [except] and [finally] clauses. *)
Definition transfer (fuel : nat) (local_filename remote_path : string)
  : M iteration :=
  r <- get_sa ;;
  let old_timeout := timeout r in
  let old_chunk := match chunk_size r with Some c => c | None => 20000%Z end in
  set_timeout 120000 ;;
  set_chunk_size 1048576 ;;
  try_finally
    (try_except
       (write W (DATA remote_path) ;;
        data <- _read_ieee_block W fuel ;;
        write_file local_filename data ;;
        ret (Returned local_filename remote_path))
       (fun e => ret (FellThrough e)))
    (set_timeout old_timeout ;;
     set_chunk_size old_chunk).

(** The body of the loop for one candidate directory. *)
Definition attempt (fuel : nat) (timestamp local_filename subdir : string)
  : M iteration :=
  try_except
    (let remote_name := remote_name_of timestamp in
     let remote_path := remote_path_of timestamp subdir in
     write W (STOR remote_path) ;;
     wait_for_opc W ;;
     listed <- try_except
                 (cat <- query W (CAT subdir) ;;
                  ret (contains cat remote_name))
                 (fun _ => ret true) ;;
     if negb listed then ret Continued
     else transfer fuel local_filename remote_path)
    (fun e => ret (FellThrough e)).

Definition print (m : message) : M unit := fun s =>
  (Ret tt, with_console s (console s ++ [m])).

(** The loop over the candidates, with the variable [last_error]. *)
Fixpoint capture_loop (fuel : nat) (timestamp local_filename : string)
  (candidates : list (string * string)) (last_error : option exn)
  : M (option string * option string) :=
  match candidates with
  | [] =>
      print (AllAttemptsFailed last_error) ;;
      ret (None, None)
  | (subdir, _) :: rest =>
      it <- attempt fuel timestamp local_filename subdir ;;
      match it with
      | Returned l r => ret (Some l, Some r)
      | Continued => capture_loop fuel timestamp local_filename rest last_error
      | FellThrough e =>
          capture_loop fuel timestamp local_filename rest (Some e)
      end
  end.

(** [timestamp] is [datetime.datetime.now().strftime("%Y%m%d_%H%M%S")]. *)
Definition capture_screen (fuel : nat) (timestamp : string)
  (local_filename : option string) : M (option string * option string) :=
  require_connected ;;
  let local_filename :=
    match local_filename with
    | None => ("screenshot_" ++ timestamp ++ ".png")%string
    | Some name => name
    end in
  capture_loop fuel timestamp local_filename attempts None.

End Measurements.

(** ** Remaining controls and file removal *)

Section Facade.

Variable W : World.

Definition set_rbw (rbw_hz : Q) : M unit :=
  write W [Lit "BAND "; Num rbw_hz; Lit " Hz"].

Definition get_rbw : M string := query W [Lit "BAND?"].

Definition set_ref_level (ref_dbm : Q) : M unit :=
  write W [Lit "DISP:WIND:TRACE:Y:SCAL:RLEV "; Num ref_dbm; Lit " dBm"].

Definition get_ref_level : M string :=
  query W [Lit "DISP:WIND:TRACE:Y:SCAL:RLEV?"].

Definition set_trace_average : M unit := write W [Lit ":TRAC:TYPE AVER"].

Definition set_sanalyzer : M unit := write W [Lit ":CONF:SAN"].

Definition DEL (remote_path : string) : command :=
  [Lit (":MMEM:DEL " ++ dq ++ remote_path ++ dq)].

Definition delete_remote_file (remote_path : string) : M bool :=
  try_except
    (write W (DEL remote_path) ;;
     wait_for_opc W ;;
     ret true)
    (fun _ => ret false).

End Facade.

(** ** Connecting and disconnecting *)

(** The pyvisa library as [connect] and [disconnect] use it:
    [pyvisa.ResourceManager()], [rm.open_resource(address)], the setter
    of the property [timeout] on the resource just opened (it raises for
    a value pyvisa rejects and for a fault of the VISA library) and
    [self.sa.close()]; each gives the exception it raises, if any.  What
    [self.rm.close()] does has no effect on the object: [disconnect]
    prints its fault and returns.  The progress lines these methods print
    are not among the [message]s of the console. *)
Record Visa : Type := mkVisa {
  new_manager : option exn;
  open_resource : string -> exn + Resource;
  assign_timeout : Resource -> Z -> option exn;
  close_resource : Resource -> option exn
}.

(** The calls to [close] made so far. *)
Inductive closing : Type :=
| CloseResource (r : Resource)
| CloseManager.

(** [self] with the attribute [self.rm] ([has_rm]: it is not [None]) and
    the record of the close calls. *)
Record Client : Type := mkClient {
  self : Analyzer;
  has_rm : bool;
  closings : list closing
}.

(** [SpectrumAnalyzer(resource_address, timeout)] *)
Definition init (resource_address : string) (timeout : Z) : Client :=
  mkClient (mkAnalyzer resource_address timeout None []) false [].

Definition connect (V : Visa) (c : Client) : bool * Client :=
  match new_manager V with
  | Some _ =>
      (false, mkClient (with_sa (self c) None) (has_rm c) (closings c))
  | None =>
      match open_resource V (resource_address (self c)) with
      | inl _ => (false, mkClient (with_sa (self c) None) true (closings c))
      | inr r =>
          match assign_timeout V r (cfg_timeout (self c)) with
          | Some _ =>
              (false, mkClient (with_sa (self c) None) true (closings c))
          | None =>
              (true,
               mkClient
                 (with_sa (self c)
                    (Some (with_timeout r (cfg_timeout (self c)))))
                 true (closings c))
          end
      end
  end.

Definition disconnect (V : Visa) (c : Client) : Client :=
  let close_rm (c1 : Client) : Client :=
    if has_rm c1
    then mkClient (self c1) (has_rm c1) (closings c1 ++ [CloseManager])
    else c1 in
  match sa (self c) with
  | Some r =>
      let c1 :=
        mkClient (self c) (has_rm c) (closings c ++ [CloseResource r]) in
      match close_resource V r with
      | Some _ => c1
      | None => close_rm c1
      end
  | None => close_rm c
  end.

(** An operation of the class run on the client. *)
Definition run {A} (m : M A) (c : Client) : outcome A * Client :=
  let (o, s) := m (self c) in (o, mkClient s (has_rm c) (closings c)).

(** ** Test benches

    Concrete environments on which the functions above are run. *)

(** A plain decimal field: the value of a non-empty run of ASCII digits. *)
Fixpoint decimal_digits (acc : Z) (field : list byte) : option Z :=
  match field with
  | [] => Some acc
  | b :: rest =>
      match digit_value b with
      | Some d => decimal_digits (10 * acc + d) rest
      | None => None
      end
  end.

Definition decimal_field (field : list byte) : exn + Z :=
  match field with
  | [] => inl InvalidIntLiteral
  | _ =>
      match decimal_digits 0 field with
      | Some v => inr v
      | None => inl InvalidIntLiteral
      end
  end.

(** A plain decimal text, read as a float. *)
Definition decimal_text (text : string) : option float :=
  match decimal_field (list_byte_of_string text) with
  | inr v => Some (nearest_float v)
  | inl _ => None
  end.

(** The text of a command that is a single literal. *)
Definition text_of (cmd : command) : string :=
  match cmd with
  | [Lit s] => s
  | _ => EmptyString
  end.

(** An instrument whose answers depend on the command only. *)
Definition bench (wr : command -> exn + (list byte * list nat))
  (qr : command -> exn + string) (samples : exn + list Q)
  (disk : string -> option exn) : World :=
  mkWorld (fun _ c => wr c) (fun _ c => qr c) (fun _ _ => samples)
    (fun name _ => disk name) decimal_text decimal_field.

(** An instrument that accepts every command and answers every query with
    the same text. *)
Definition quiet (reply : string) : World :=
  bench (fun _ => inr ([], [])) (fun _ => inr reply) (inr []) (fun _ => None).

(** An instrument on which selecting the band-power mode times out. *)
Definition flaky_bpow : World :=
  bench (fun _ => inr ([], []))
    (fun c =>
       if String.eqb (text_of c) "CALC:MARK:FUNC BPOW"
       then inl (VisaIOError VI_ERROR_TMO)
       else inr "-42.5 "%string)
    (inr []) (fun _ => None).

(** An instrument that refuses one command and answers the others. *)
Definition refusing (bad : string) : World :=
  bench
    (fun c =>
       if String.eqb (text_of c) bad then inl (VisaIOError VI_ERROR_TMO)
       else inr ([], []))
    (fun c =>
       if String.eqb (text_of c) bad then inl (VisaIOError VI_ERROR_TMO)
       else inr "1"%string)
    (inr []) (fun _ => None).

(** An instrument that can store screenshots in [good_dir] only, lists
    them there, and serves the stored file as [block], fragmented as
    [sched]. *)
Definition shot_bench (timestamp good_dir : string) (block : list byte)
  (sched : list nat) (disk : string -> option exn) : World :=
  bench
    (fun c =>
       if String.eqb (text_of c)
            (text_of (DATA (remote_path_of timestamp good_dir)))
       then inr (block, sched)
       else inr ([], []))
    (fun c =>
       if String.eqb (text_of c) (text_of (CAT good_dir))
       then inr ("OLD.PNG," ++ remote_name_of timestamp)%string
       else inr "1"%string)
    (inr []) disk.

(** An instrument that reports 1001 sweep points, the given readbacks of
    centre frequency and span, and the given trace samples. *)
Definition trace_bench (cf_reply span_reply : string) (samples : list Q)
  : World :=
  bench (fun _ => inr ([], []))
    (fun c =>
       if String.eqb (text_of c) "FREQ:CENT?" then inr cf_reply
       else if String.eqb (text_of c) "FREQ:SPAN?" then inr span_reply
       else inr "1001"%string)
    (inr samples) (fun _ => None).

Definition connected (q : list byte) (f : list nat) : Analyzer :=
  mkAnalyzer "TCPIP0::192.168.1.75::inst0::INSTR" 5000
    (Some (mkResource 5000 (Some 20480%Z) [] q f)) [].

Definition disconnected : Analyzer :=
  mkAnalyzer "TCPIP0::192.168.1.75::inst0::INSTR" 5000 None [].

(** An instrument that decodes the given trace samples, answers the
    point-count query, and lets the two readback queries time out or
    answer as given. *)
Definition readback_bench (cf_reply span_reply : exn + string)
  (samples : list Q) : World :=
  bench (fun _ => inr ([], []))
    (fun c =>
       if String.eqb (text_of c) "FREQ:CENT?" then cf_reply
       else if String.eqb (text_of c) "FREQ:SPAN?" then span_reply
       else inr "1001"%string)
    (inr samples) (fun _ => None).

(** ** The claimed formulas, in exact arithmetic

    The value of a finite float as a rational, and the two formulas of
    the specification evaluated without rounding. *)

Definition value (x : float) : option Q :=
  match Prim2SF x with
  | S754_zero _ => Some 0%Q
  | S754_finite s m e =>
      let a := (inject_Z (Z.pos m) * Qpower 2 e)%Q in
      Some (if s then (- a)%Q else a)
  | S754_infinity _ | S754_nan => None
  end.

(** The value of a finite float, 0 for the others. *)
Definition exact (x : float) : Q :=
  match value x with
  | Some v => v
  | None => 0%Q
  end.

(** The float [x] is finite and its value is [q]. *)
Definition agrees (x : float) (q : Q) : bool :=
  match value x with
  | Some v => Qeq_bool v q
  | None => false
  end.

(** [symbolRate(kHz) x 1000 x spreadFactor x (1 + rollOff) x 2] *)
Definition claimed_span (symbol_rate spread_factor roll_off : Q) : Q :=
  (symbol_rate * 1000 * spread_factor * (1 + roll_off) * 2)%Q.



(** * Specification vocabulary *)

(** The number of bytes a read of [count] bytes obtains under [sched]. *)
Definition granted (count : Z) (sched : list nat) : nat :=
  Z.to_nat
    match sched with
    | [] => count
    | k :: _ => Z.min count (Z.of_nat k)
    end.

(** [respects R m]: whenever [m] comes back, the states before and after
    it are related by [R]. *)
Definition respects (R : Analyzer -> Analyzer -> Prop) {A} (m : M A) : Prop :=
  forall s, fst (m s) <> Diverge -> R s (snd (m s)).

(** What the class itself reads back from [self.sa]: [self.sa.timeout] and
    [getattr(self.sa, "chunk_size", 20000)]. *)
Definition timeout_of (s : Analyzer) : option Z :=
  option_map timeout (sa s).

Definition chunk_of (s : Analyzer) : option Z :=
  option_map
    (fun r => match chunk_size r with Some c => c | None => 20000 end)
    (sa s).

Definition observed (s : Analyzer) : option Z * option Z :=
  (timeout_of s, chunk_of s).

(** [restores m]: if [m] comes back at all, the settings are what they
    were.  [terminates m]: [m] always comes back. *)
Definition same_settings (s s' : Analyzer) : Prop :=
  observed s' = observed s.

Definition restores {A} (m : M A) : Prop := respects same_settings m.

Definition terminates {A} (m : M A) : Prop :=
  forall s, fst (m s) <> Diverge.

(** The commands handed to the transport so far. *)
Definition sent_of (s : Analyzer) : list command :=
  match sa s with
  | Some r => sent r
  | None => []
  end.

Definition extends (s s' : Analyzer) : Prop :=
  exists more, sent_of s' = sent_of s ++ more.

(** [grows m]: [m] only ever appends to the log of sent commands. *)
Definition grows {A} (m : M A) : Prop := respects extends m.

(** [yields P m]: every value [m] returns satisfies [P]. *)
Definition yields {A} (P : A -> Prop) (m : M A) : Prop :=
  forall s a s', m s = (Ret a, s') -> P a.

(** One step of a measurement: a command written, a query whose answer is
    awaited, or a query whose fault the measurement tolerates. *)
Inductive step : Type :=
| Send (cmd : command)
| Ask (cmd : command)
| Attempt (cmd : command).

(** The fault that ends a run of [steps] started in state [s]: the steps
    are handed to the instrument in order, each on the state its
    predecessors left, up to the first that raises; a tolerated fault is
    passed over. *)
Fixpoint first_fault (W : World) (steps : list step) (s : Analyzer)
  : option exn :=
  match steps with
  | [] => None
  | Send cmd :: rest =>
      match write W cmd s with
      | (Ret _, s1) => first_fault W rest s1
      | (Raise e, _) => Some e
      | (Diverge, _) => None
      end
  | Ask cmd :: rest =>
      match query W cmd s with
      | (Ret _, s1) => first_fault W rest s1
      | (Raise e, _) => Some e
      | (Diverge, _) => None
      end
  | Attempt cmd :: rest => first_fault W rest (snd (query W cmd s))
  end.

(** The steps of each measurement. *)
Definition high_peak_steps : list step :=
  [Send [Lit "CALC:MARK:MAX"]; Ask [Lit "CALC:MARK:Y?"]].

Definition low_peak_steps : list step :=
  [Send [Lit "CALC:MARK:MIN"]; Ask [Lit "CALC:MARK:Y?"]].

Definition band_power_steps (band_span_hz : Q) : list step :=
  [Send [Lit "CALC:MARK1:STAT ON"];
   Send [Lit "CALC:MARK1:FUNC:BAND ON"];
   Ask [Lit "CALC:MARK1:FUNC?"];
   Send [Lit "CALC:MARK1:FUNC:BAND:SPAN "; Num band_span_hz];
   Ask [Lit "CALC:MARK1:FUNC:BAND:SPAN?"];
   Attempt [Lit "CALC:MARK:FUNC BPOW"];
   Ask [Lit "CALC:MARK1:Y?"]].

Definition obwidth_steps (span : float) : list step :=
  [Send [Lit ":SENSe:OBWidth:FREQ:SPAN "; Flt span; Lit " Hz"];
   Ask [Lit ":SENSe:OBWidth:FREQ:SPAN?"];
   Ask [Lit ":READ:OBWidth?"]].

(** An instrument that fails once: the command it is handed after [n]
    others times out, every other command goes through. *)
Definition glitch (n : nat) : World :=
  mkWorld
    (fun r _ =>
       if (List.length (sent r) =? n)%nat then inl (VisaIOError VI_ERROR_TMO)
       else inr ([], []))
    (fun r _ =>
       if (List.length (sent r) =? n)%nat then inl (VisaIOError VI_ERROR_TMO)
       else inr "-20.1"%string)
    (fun _ _ => inr []) (fun _ _ => None) decimal_text decimal_field.

(** The commands of a round that ends at [continue]. *)
Definition skip_commands (timestamp subdir : string) : list command :=
  [STOR (remote_path_of timestamp subdir); [Lit "*OPC?"]; CAT subdir].

(** The store and the barrier succeed, the listing check runs and reports
    the file absent. *)
Definition listed_absent (W : World) (timestamp subdir : string)
  (s s' : Analyzer) : Prop :=
  exists sA sB cat,
    write W (STOR (remote_path_of timestamp subdir)) s = (Ret tt, sA) /\
    wait_for_opc W sA = (Ret tt, sB) /\
    query W (CAT subdir) sB = (Ret cat, s') /\
    contains cat (remote_name_of timestamp) = false.

Fixpoint all_listed_absent (W : World) (timestamp : string)
  (candidates : list (string * string)) (s s' : Analyzer) : Prop :=
  match candidates with
  | [] => s' = s
  | (subdir, _) :: rest =>
      exists s1,
        listed_absent W timestamp subdir s s1 /\
        all_listed_absent W timestamp rest s1 s'
  end.

(** A run of rounds none of which returns: [last_error] is updated by the
    rounds that fall through a handler and kept by those that continue. *)
Inductive failing_run (W : World) (fuel : nat)
  (timestamp local_filename : string)
  : list (string * string) -> option exn -> Analyzer ->
    option exn -> Analyzer -> Prop :=
| run_done last_error s :
    failing_run W fuel timestamp local_filename [] last_error s last_error s
| run_continued subdir desc rest last_error s s1 last_error' s' :
    attempt W fuel timestamp local_filename subdir s = (Ret Continued, s1) ->
    failing_run W fuel timestamp local_filename rest last_error s1
      last_error' s' ->
    failing_run W fuel timestamp local_filename ((subdir, desc) :: rest)
      last_error s last_error' s'
| run_fell_through subdir desc rest last_error s e s1 last_error' s' :
    attempt W fuel timestamp local_filename subdir s =
      (Ret (FellThrough e), s1) ->
    failing_run W fuel timestamp local_filename rest (Some e) s1
      last_error' s' ->
    failing_run W fuel timestamp local_filename ((subdir, desc) :: rest)
      last_error s last_error' s'.

(** A round that ends at [continue], computed: the state it leaves, if the
    store, the barrier and the listing succeed and the name is absent. *)
Definition skip_round (W : World) (timestamp subdir : string) (s : Analyzer)
  : option Analyzer :=
  match write W (STOR (remote_path_of timestamp subdir)) s with
  | (Ret _, sA) =>
      match wait_for_opc W sA with
      | (Ret _, sB) =>
          match query W (CAT subdir) sB with
          | (Ret cat, s') =>
              if contains cat (remote_name_of timestamp) then None
              else Some s'
          | _ => None
          end
      | _ => None
      end
  | _ => None
  end.

Fixpoint skip_rounds (W : World) (timestamp : string)
  (candidates : list (string * string)) (s : Analyzer) : option Analyzer :=
  match candidates with
  | [] => Some s
  | (subdir, _) :: rest =>
      match skip_round W timestamp subdir s with
      | Some s1 => skip_rounds W timestamp rest s1
      | None => None
      end
  end.

(** ** Further test benches *)

(** A decimal field with an optional minus sign, as [int] reads it. *)
Definition signed_field (field : list byte) : exn + Z :=
  match field with
  | x2d :: digits =>
      match decimal_field digits with
      | inr v => inr (- v)
      | inl e => inl e
      end
  | _ => decimal_field field
  end.

(** The quiet instrument, with lengths read by [signed_field]. *)
Definition signed_bench : World :=
  mkWorld (fun _ _ => inr ([], [])) (fun _ _ => inr EmptyString)
    (fun _ _ => inr []) (fun _ _ => None) decimal_text signed_field.

(** ** Further vocabulary *)

(** [keeps_settings m]: [m] always comes back, and with the settings it
    found. *)
Definition keeps_settings {A} (m : M A) : Prop :=
  forall s, fst (m s) <> Diverge /\ observed (snd (m s)) = observed s.

(** An instrument that answers only while the session timeout is
    [needed], and times out otherwise. *)
Definition patient_only (needed : Z) (reply : string) : World :=
  mkWorld
    (fun r _ =>
       if timeout r =? needed then inr ([], [])
       else inl (VisaIOError VI_ERROR_TMO))
    (fun r _ =>
       if timeout r =? needed then inr reply
       else inl (VisaIOError VI_ERROR_TMO))
    (fun _ _ => inr []) (fun _ _ => None) decimal_text decimal_field.

(** The commands of a band-power measurement, in the order sent. *)
Definition band_power_commands (band_span_hz : Q) : list command :=
  [[Lit "CALC:MARK1:STAT ON"];
   [Lit "CALC:MARK1:FUNC:BAND ON"];
   [Lit "CALC:MARK1:FUNC?"];
   [Lit "CALC:MARK1:FUNC:BAND:SPAN "; Num band_span_hz];
   [Lit "CALC:MARK1:FUNC:BAND:SPAN?"];
   [Lit "CALC:MARK:FUNC BPOW"];
   [Lit "CALC:MARK1:Y?"]].

(** [needle] occurs in [hay]. *)
Definition occurs_in (needle hay : string) : Prop :=
  exists before after, hay = (before ++ needle ++ after)%string.

(** [never_raises m]: [m] ends with a value or not at all. *)
Definition never_raises {A} (m : M A) : Prop :=
  forall s e, fst (m s) <> Raise e.

(** An instrument that stores screenshots anywhere but cannot list any
    directory; it serves the stored file as [block]. *)
Definition unlisted_bench (block : list byte) (sched : list nat) : World :=
  bench
    (fun c => inr (block, sched))
    (fun c =>
       if prefix ":MMEM:CAT?" (text_of c)
       then inl (VisaIOError VI_ERROR_TMO)
       else inr "1"%string)
    (inr []) (fun _ => None).

(** The store commands of the candidates, in order. *)
Definition store_commands (timestamp : string)
  (candidates : list (string * string)) : list command :=
  map (fun c => STOR (remote_path_of timestamp (fst c))) candidates.

(** An instrument that refuses every command. *)
Definition dead : World :=
  bench (fun _ => inl (VisaIOError VI_ERROR_TMO))
    (fun _ => inl (VisaIOError VI_ERROR_TMO))
    (inl (VisaIOError VI_ERROR_TMO)) (fun _ => None).

(** A VISA library that opens every address as the resource [r] and
    closes without fault, and one whose resources cannot be opened. *)
Definition visa_up (r : Resource) : Visa :=
  mkVisa None (fun _ => inr r) (fun _ _ => None) (fun _ => None).

Definition visa_down : Visa :=
  mkVisa None (fun _ => inl (VisaIOError VI_ERROR_TMO)) (fun _ _ => None)
    (fun _ => None).

(** A VISA library whose resources fail to close. *)
Definition visa_stuck (r : Resource) : Visa :=
  mkVisa None (fun _ => inr r) (fun _ _ => None)
    (fun _ => Some (VisaIOError VI_ERROR_TMO)).

(** A VISA library that opens [r] and accepts the timeouts pyvisa
    accepts, those up to 4294967294 ms. *)
Definition visa_strict (r : Resource) : Visa :=
  mkVisa None (fun _ => inr r)
    (fun _ t => if (t <=? 4294967294)%Z then None else Some InvalidTimeout)
    (fun _ => None).

(** * Properties *)

(** ** Combinators *)

(** A reflexive and transitive relation that every step respects is
    respected by the whole program. *)
Section Respects.

Variable R : Analyzer -> Analyzer -> Prop.
Hypothesis R_refl : forall s, R s s.
Hypothesis R_trans : forall a b c, R a b -> R b c -> R a c.

Lemma respects_ret {A} (a : A) : respects R (ret a).
Proof. intros s _. apply R_refl. Qed.

Lemma respects_raise {A} e : respects R (@raise A e).
Proof. intros s _. apply R_refl. Qed.

Lemma respects_bind {A B} (m : M A) (k : A -> M B) :
  respects R m -> (forall a, respects R (k a)) -> respects R (bind m k).
Proof.
  intros Hm Hk s. unfold bind. specialize (Hm s).
  destruct (m s) as [[a|e|] s1]; simpl in *; intros Hd.
  - apply (R_trans _ s1); [apply Hm; discriminate | apply Hk; exact Hd].
  - apply Hm. discriminate.
  - contradiction.
Qed.

Lemma respects_try_except {A} (m : M A) h :
  respects R m -> (forall e, respects R (h e)) ->
  respects R (try_except m h).
Proof.
  intros Hm Hh s. unfold try_except. specialize (Hm s).
  destruct (m s) as [[a|e|] s1]; simpl in *; intros Hd.
  - apply Hm. discriminate.
  - apply (R_trans _ s1); [apply Hm; discriminate | apply Hh; exact Hd].
  - contradiction.
Qed.

Lemma respects_try_finally {A} (m : M A) fin :
  respects R m -> respects R fin -> respects R (try_finally m fin).
Proof.
  intros Hm Hf s. unfold try_finally. specialize (Hm s).
  destruct (m s) as [o s1]. specialize (Hf s1). simpl in *.
  destruct o as [a|e|]; [| |contradiction];
    destruct (fin s1) as [[[]|e'|] s2]; simpl in *; intros Hd;
      try contradiction;
      (apply (R_trans _ s1); [apply Hm; discriminate
                             |apply Hf; discriminate]).
Qed.

End Respects.

(** ** IEEE block decoder *)

Lemma read_payload_done fuel data s :
  read_payload fuel data 0 s = (Ret data, s).
Proof. destruct fuel; reflexivity. Qed.

Lemma read_payload_step fuel data remaining s :
  remaining <> 0 ->
  read_payload (S fuel) data remaining s =
  bind (sa_read_bytes (Z.min 1048576 remaining))
    (fun chunk =>
       read_payload fuel (data ++ chunk)
         (remaining - Z.of_nat (List.length chunk))) s.
Proof.
  intros H. simpl. destruct (remaining =? 0) eqn:E; [|reflexivity].
  apply Z.eqb_eq in E. contradiction.
Qed.

Lemma sa_read_bytes_enough count addr ct tmo ch se q sched con :
  (granted count sched <= List.length q)%nat ->
  sa_read_bytes count
    (mkAnalyzer addr ct (Some (mkResource tmo ch se q sched)) con) =
  (Ret (firstn (granted count sched) q),
   mkAnalyzer addr ct
     (Some (mkResource tmo ch se (skipn (granted count sched) q) (tl sched)))
     con).
Proof.
  intros H. unfold sa_read_bytes, granted in *. cbn [sa frag rx].
  destruct (Nat.ltb_spec (List.length q)
              (Z.to_nat match sched with
                        | [] => count
                        | k :: _ => Z.min count (Z.of_nat k)
                        end)) as [Hlt|Hge]; [lia|reflexivity].
Qed.

Lemma granted_payload_le (payload : list byte) sched :
  (granted (Z.min 1048576 (Z.of_nat (List.length payload))) sched
   <= List.length payload)%nat.
Proof. unfold granted. destruct sched; lia. Qed.

Lemma granted_progress (payload : list byte) :
  payload <> [] ->
  (0 < granted (Z.min 1048576 (Z.of_nat (List.length payload))) [])%nat.
Proof.
  intros H. unfold granted. destruct payload; [contradiction|].
  simpl List.length. lia.
Qed.

(** The accumulation loop: whatever the fragmentation, it ends with the
    whole payload and leaves the queue right behind it. *)
Lemma read_payload_complete fuel :
  forall sched data payload rest addr ct tmo ch se con,
    (List.length sched + List.length payload < fuel)%nat ->
    exists sched',
      read_payload fuel data (Z.of_nat (List.length payload))
        (mkAnalyzer addr ct
           (Some (mkResource tmo ch se (payload ++ rest) sched)) con) =
      (Ret (data ++ payload),
       mkAnalyzer addr ct (Some (mkResource tmo ch se rest sched')) con).
Proof.
  induction fuel as [|fuel IH];
    intros sched data payload rest addr ct tmo ch se con Hf.
  - lia.
  - destruct payload as [|b payload'] eqn:Ep.
    + exists sched. simpl List.length. change (Z.of_nat 0) with 0.
      rewrite read_payload_done, app_nil_r. reflexivity.
    + rewrite <- Ep in *.
      assert (Hne : payload <> []) by (rewrite Ep; discriminate).
      assert (Hlen : Z.of_nat (List.length payload) <> 0)
        by (rewrite Ep; simpl List.length; lia).
      rewrite (read_payload_step _ _ _ _ Hlen).
      unfold bind.
      pose proof (granted_payload_le payload sched) as Hg.
      rewrite sa_read_bytes_enough by (rewrite length_app; lia).
      set (n := granted (Z.min 1048576 (Z.of_nat (List.length payload)))
                  sched) in *.
      rewrite firstn_app, skipn_app.
      replace (n - List.length payload)%nat with 0%nat by lia.
      rewrite firstn_O, skipn_O, app_nil_r.
      rewrite length_firstn, Nat.min_l by exact Hg.
      replace (Z.of_nat (List.length payload) - Z.of_nat n)
        with (Z.of_nat (List.length (skipn n payload)))
        by (rewrite length_skipn; lia).
      destruct (IH (tl sched) (data ++ firstn n payload) (skipn n payload)
                  rest addr ct tmo ch se con) as [sched' Hrun].
      * rewrite length_skipn.
        destruct sched as [|k sched0].
        -- pose proof (granted_progress payload Hne). subst n. simpl in *. lia.
        -- simpl in *. lia.
      * exists sched'. rewrite Hrun, <- app_assoc, firstn_skipn. reflexivity.
Qed.

Lemma granted_full count k sched :
  0 <= count -> (Z.to_nat count <= k)%nat ->
  granted count (k :: sched) = Z.to_nat count.
Proof. intros H0 H. unfold granted. f_equal. lia. Qed.

(** C1.  A valid block is the marker, a digit giving the width of the
    length field, a length field that reads as L, and L payload bytes.
    When the two header reads are delivered whole, the decoder returns
    exactly those L bytes for every fragmentation [sched] of the payload
    reads (chunks may be short, even empty), provided the loop is given
    more steps than there are fragments and bytes; the receive queue is
    left at the first byte after the block. *)
Theorem read_ieee_block_fragmented :
  forall (W : World) fuel s r b1 len_str payload rest c1 c2 sched L,
    sa s = Some r ->
    rx r = x23 :: b1 :: len_str ++ payload ++ rest ->
    digit_value b1 = Some (Z.of_nat (List.length len_str)) ->
    py_int_decode W len_str = inr L ->
    L = Z.of_nat (List.length payload) ->
    frag r = c1 :: c2 :: sched ->
    (2 <= c1)%nat ->
    (List.length len_str <= c2)%nat ->
    (List.length sched + List.length payload < fuel)%nat ->
    exists s',
      _read_ieee_block W fuel s = (Ret payload, s') /\
      Z.of_nat (List.length payload) = L /\
      option_map rx (sa s') = Some rest.
Proof.
  intros W fuel [addr ct osa con] [tmo ch se q fr] b1 len_str payload rest
    c1 c2 sched L Hsa Hrx Hdig Hint HL Hfrag Hc1 Hc2 Hfuel.
  simpl in Hsa, Hrx, Hfrag. subst osa q fr L.
  unfold _read_ieee_block, bind.
  rewrite sa_read_bytes_enough;
    rewrite (granted_full 2 c1) by (simpl; lia);
    [|simpl; lia].
  change (Z.to_nat 2) with 2%nat. cbn [firstn skipn tl].
  change (negb (Byte.eqb x23 x23)) with false. cbn iota.
  rewrite Hdig.
  rewrite sa_read_bytes_enough;
    rewrite (granted_full _ c2) by lia;
    rewrite Nat2Z.id;
    [|rewrite length_app; lia].
  rewrite firstn_app, skipn_app, Nat.sub_diag, firstn_all, skipn_all.
  cbn [firstn skipn tl app]. rewrite app_nil_r.
  rewrite Hint.
  destruct (read_payload_complete fuel sched [] payload rest addr ct tmo ch se
              con Hfuel) as [sched' Hrun].
  eexists. split; [exact Hrun|]. split; reflexivity.
Qed.

Lemma read_ieee_block_fragmented_witness :
  exists s',
    _read_ieee_block (quiet EmptyString) 20
      (connected [x23; x31; x35; x68; x65; x6c; x6c; x6f; x0a]
         [2; 1; 2; 0; 1; 5]%nat) =
    (Ret [x68; x65; x6c; x6c; x6f], s') /\
    Z.of_nat (List.length [x68; x65; x6c; x6c; x6f]) = 5 /\
    option_map rx (sa s') = Some [x0a].
Proof.
  eapply (read_ieee_block_fragmented (quiet EmptyString) 20
            (connected [x23; x31; x35; x68; x65; x6c; x6c; x6f; x0a]
               [2; 1; 2; 0; 1; 5]%nat)
            _ x31 [x35] [x68; x65; x6c; x6c; x6f] [x0a] 2 1
            [2; 0; 1; 5]%nat 5);
    try reflexivity; simpl; lia.
Defined.

(** The header itself is read with two single [read_bytes] calls and no
    loop: a transport that hands over the marker alone on the first call
    makes [hdr[1]] fail with IndexError. *)
Lemma read_ieee_block_short_header :
  forall (W : World) fuel s r rest sched,
    sa s = Some r ->
    rx r = x23 :: rest ->
    frag r = 1%nat :: sched ->
    fst (_read_ieee_block W fuel s) = Raise IndexOutOfRange.
Proof.
  intros W fuel [addr ct osa con] [tmo ch se q fr] rest sched Hsa Hrx Hfr.
  simpl in Hsa, Hrx, Hfr. subst osa q fr. reflexivity.
Qed.

(** C8.  When the first queued byte is not the marker, the decoder raises
    "Not an IEEE block" whatever the second byte is, and however the
    two-byte header read is fragmented. *)
Theorem read_ieee_block_rejects_bad_marker :
  forall (W : World) fuel s r b0 b1 rest,
    sa s = Some r ->
    rx r = b0 :: b1 :: rest ->
    b0 <> x23 ->
    fst (_read_ieee_block W fuel s) = Raise NotAnIEEEBlock.
Proof.
  intros W fuel [addr ct osa con] [tmo ch se q fr] b0 b1 rest Hsa Hrx Hb0.
  simpl in Hsa, Hrx. subst osa q.
  assert (Hneq : Byte.eqb b0 x23 = false).
  { destruct (Byte.eqb b0 x23) eqn:E; [|reflexivity].
    apply byte_dec_bl in E. contradiction. }
  unfold _read_ieee_block, bind.
  rewrite sa_read_bytes_enough.
  - unfold granted.
    destruct fr as [|[|[|k]] fr']; cbn [firstn Z.to_nat Z.min];
      try (replace (Z.min 2 (Z.of_nat (S (S k)))) with 2 by lia);
      simpl; try rewrite Hneq; reflexivity.
  - unfold granted. destruct fr; simpl List.length; lia.
Qed.

Lemma read_ieee_block_rejects_bad_marker_witness :
  fst (_read_ieee_block (quiet EmptyString) 20
         (connected [x21; x31; x35; x68] [1; 7]%nat)) =
  Raise NotAnIEEEBlock.
Proof.
  eapply (read_ieee_block_rejects_bad_marker (quiet EmptyString) 20
           (connected [x21; x31; x35; x68] [1; 7]%nat) _ x21 x31 [x35; x68]);
    [reflexivity | reflexivity | discriminate].
Defined.

(** C10.  When the marker is present, the header read is delivered whole
    and the second byte is not an ASCII decimal digit, the decoder raises
    the ValueError of [int(chr(hdr[1]))], not "Not an IEEE block". *)
Theorem read_ieee_block_bad_digit_count :
  forall (W : World) fuel s r b1 rest,
    sa s = Some r ->
    rx r = x23 :: b1 :: rest ->
    digit_value b1 = None ->
    match frag r with [] => True | k :: _ => (2 <= k)%nat end ->
    fst (_read_ieee_block W fuel s) = Raise InvalidIntLiteral /\
    fst (_read_ieee_block W fuel s) <> Raise NotAnIEEEBlock.
Proof.
  intros W fuel [addr ct osa con] [tmo ch se q fr] b1 rest Hsa Hrx Hdig Hfr.
  simpl in Hsa, Hrx, Hfr. subst osa q.
  assert (Hrun : fst (_read_ieee_block W fuel
                        (mkAnalyzer addr ct
                           (Some (mkResource tmo ch se (x23 :: b1 :: rest) fr))
                           con)) = Raise InvalidIntLiteral).
  { unfold _read_ieee_block, bind.
    rewrite sa_read_bytes_enough.
    - replace (granted 2 fr) with 2%nat.
      + cbn [firstn]. change (negb (Byte.eqb x23 x23)) with false. cbn iota.
        rewrite Hdig. reflexivity.
      + unfold granted. destruct fr; [reflexivity|]. lia.
    - unfold granted. destruct fr; simpl List.length; lia. }
  split; [exact Hrun|]. rewrite Hrun. discriminate.
Qed.

Lemma read_ieee_block_bad_digit_count_witness :
  fst (_read_ieee_block (quiet EmptyString) 20
         (connected [x23; x41; x35; x68] [2; 7]%nat)) =
  Raise InvalidIntLiteral /\
  fst (_read_ieee_block (quiet EmptyString) 20
         (connected [x23; x41; x35; x68] [2; 7]%nat)) <>
  Raise NotAnIEEEBlock.
Proof.
  eapply (read_ieee_block_bad_digit_count (quiet EmptyString) 20
           (connected [x23; x41; x35; x68] [2; 7]%nat) _ x41 [x35; x68]);
    [reflexivity | reflexivity | reflexivity | simpl; lia].
Defined.

(** ** Session settings across an operation *)

Create HintDb frame.

Lemma same_settings_refl s : same_settings s s.
Proof. reflexivity. Qed.

Lemma same_settings_trans a b c :
  same_settings a b -> same_settings b c -> same_settings a c.
Proof. unfold same_settings. intros H1 H2. rewrite H2. exact H1. Qed.

Lemma restores_ret {A} (a : A) : restores (ret a).
Proof. apply respects_ret, same_settings_refl. Qed.

Lemma restores_raise {A} e : restores (@raise A e).
Proof. apply respects_raise, same_settings_refl. Qed.

Lemma restores_bind {A B} (m : M A) (k : A -> M B) :
  restores m -> (forall a, restores (k a)) -> restores (bind m k).
Proof. apply respects_bind, same_settings_trans. Qed.

Lemma restores_try_except {A} (m : M A) h :
  restores m -> (forall e, restores (h e)) -> restores (try_except m h).
Proof. apply respects_try_except, same_settings_trans. Qed.

Lemma restores_on_sa {A} (f : Resource -> outcome A * Resource) :
  (forall r, timeout (snd (f r)) = timeout r /\
             chunk_size (snd (f r)) = chunk_size r) ->
  restores (on_sa f).
Proof.
  intros Hf [addr ct [r|] con] _; [|reflexivity].
  unfold on_sa. cbn [sa]. destruct (Hf r) as [Ht Hc].
  destruct (f r) as [o r1]. simpl in *.
  unfold same_settings, observed, timeout_of, chunk_of. simpl.
  rewrite Ht, Hc. reflexivity.
Qed.

Lemma restores_write W cmd : restores (write W cmd).
Proof.
  apply restores_on_sa. intros r. unfold sa_write.
  destruct (on_write W r cmd) as [e|[q f]]; split; reflexivity.
Qed.

Lemma restores_query W cmd : restores (query W cmd).
Proof.
  unfold query. apply restores_bind; [|intros; apply restores_ret].
  apply restores_on_sa. intros r. unfold sa_query.
  destruct (on_query W r cmd); split; reflexivity.
Qed.

Lemma restores_wait_for_opc W : restores (wait_for_opc W).
Proof.
  unfold wait_for_opc.
  apply restores_bind; [apply restores_query|intros; apply restores_ret].
Qed.

Lemma restores_sa_read_bytes count : restores (sa_read_bytes count).
Proof.
  intros [addr ct [r|] con] _; [|reflexivity].
  unfold sa_read_bytes. cbn [sa].
  destruct (_ <? _)%nat; reflexivity.
Qed.

Lemma restores_read_payload fuel :
  forall data remaining, restores (read_payload fuel data remaining).
Proof.
  induction fuel as [|fuel IH]; intros data remaining; simpl;
    destruct (remaining =? 0).
  - apply restores_ret.
  - intros s Hd. exfalso. apply Hd. reflexivity.
  - apply restores_ret.
  - apply restores_bind; [apply restores_sa_read_bytes|].
    intros chunk. apply IH.
Qed.

Lemma restores_read_ieee_block W fuel : restores (_read_ieee_block W fuel).
Proof.
  unfold _read_ieee_block.
  apply restores_bind; [apply restores_sa_read_bytes|].
  intros [|b0 [|b1 hdr]]; try apply restores_raise;
    destruct (negb (Byte.eqb b0 x23)); try apply restores_raise.
  destruct (digit_value b1); [|apply restores_raise].
  apply restores_bind; [apply restores_sa_read_bytes|].
  intros len_str. destruct (py_int_decode W len_str);
    [apply restores_raise|apply restores_read_payload].
Qed.

Lemma restores_write_file W name data : restores (write_file W name data).
Proof.
  intros s _. unfold write_file. destruct (fs_write W name data); reflexivity.
Qed.

Lemma restores_print m : restores (print m).
Proof. intros s _. reflexivity. Qed.

Lemma restores_require_connected : restores require_connected.
Proof. intros s _. unfold require_connected. destruct (sa s); reflexivity. Qed.

#[local] Hint Resolve restores_ret restores_raise restores_write
  restores_query restores_wait_for_opc restores_sa_read_bytes
  restores_read_payload restores_read_ieee_block restores_write_file
  restores_print restores_require_connected : frame.

Lemma terminates_ret {A} (a : A) : terminates (ret a).
Proof. intros s. discriminate. Qed.

Lemma terminates_bind {A B} (m : M A) (k : A -> M B) :
  terminates m -> (forall a, terminates (k a)) -> terminates (bind m k).
Proof.
  intros Hm Hk s. unfold bind. specialize (Hm s).
  destruct (m s) as [[a|e|] s1]; simpl in *;
    [apply Hk | discriminate | contradiction].
Qed.

Lemma terminates_try_except {A} (m : M A) h :
  terminates m -> (forall e, terminates (h e)) -> terminates (try_except m h).
Proof.
  intros Hm Hh s. unfold try_except. specialize (Hm s).
  destruct (m s) as [[a|e|] s1]; simpl in *;
    [discriminate | apply Hh | contradiction].
Qed.

Lemma terminates_on_sa {A} (f : Resource -> outcome A * Resource) :
  (forall r, fst (f r) <> Diverge) -> terminates (on_sa f).
Proof.
  intros Hf [addr ct [r|] con]; unfold on_sa; cbn [sa]; [|discriminate].
  specialize (Hf r). destruct (f r) as [o r1]. exact Hf.
Qed.

Lemma terminates_write W cmd : terminates (write W cmd).
Proof.
  apply terminates_on_sa. intros r. unfold sa_write.
  destruct (on_write W r cmd) as [e|[q f]]; discriminate.
Qed.

Lemma terminates_query W cmd : terminates (query W cmd).
Proof.
  unfold query. apply terminates_bind; [|intros; apply terminates_ret].
  apply terminates_on_sa. intros r. unfold sa_query.
  destruct (on_query W r cmd); discriminate.
Qed.

#[local] Hint Resolve terminates_ret terminates_write terminates_query : frame.

(** The scoped override: with the session connected, set the attributes,
    run a body that leaves them alone, and set them back in [finally]. *)
Lemma set_timeout_connected t addr ct r con :
  set_timeout t (mkAnalyzer addr ct (Some r) con) =
  (Ret tt, mkAnalyzer addr ct (Some (with_timeout r t)) con).
Proof. reflexivity. Qed.

Lemma set_chunk_size_connected c addr ct r con :
  set_chunk_size c (mkAnalyzer addr ct (Some r) con) =
  (Ret tt, mkAnalyzer addr ct (Some (with_chunk_size r c)) con).
Proof. reflexivity. Qed.

Lemma require_connected_connected addr ct r con :
  require_connected (mkAnalyzer addr ct (Some r) con) =
  (Ret tt, mkAnalyzer addr ct (Some r) con).
Proof. reflexivity. Qed.

Lemma get_sa_connected addr ct r con :
  get_sa (mkAnalyzer addr ct (Some r) con) =
  (Ret r, mkAnalyzer addr ct (Some r) con).
Proof. reflexivity. Qed.

Lemma bind_Ret {A B} (m : M A) (k : A -> M B) s a s1 :
  m s = (Ret a, s1) -> bind m k s = k a s1.
Proof. intros H. unfold bind. rewrite H. reflexivity. Qed.

Lemma bind_Raise {A B} (m : M A) (k : A -> M B) s e s1 :
  m s = (Raise e, s1) -> bind m k s = (Raise e, s1).
Proof. intros H. unfold bind. rewrite H. reflexivity. Qed.

Lemma finally_restores {A} (body : M A) (fin : M unit) s1 target :
  restores body ->
  fst (body s1) <> Diverge ->
  (forall s2, observed s2 = observed s1 ->
     fst (fin s2) = Ret tt /\ observed (snd (fin s2)) = target) ->
  fst (try_finally body fin s1) = fst (body s1) /\
  observed (snd (try_finally body fin s1)) = target.
Proof.
  intros Hb Hd Hfin. specialize (Hb s1 Hd).
  unfold try_finally. destruct (body s1) as [o s2]. simpl in *.
  destruct (Hfin s2 Hb) as [Hr Ho].
  destruct (fin s2) as [[[]|e|] s3]; simpl in *; try discriminate.
  destruct o; [auto | auto | contradiction].
Qed.

(** Decompose a program along its binds and handlers, closing the leaves
    with the lemmas of the [frame] database. *)
Ltac frame_tac :=
  repeat (first
    [ solve [auto with frame]
    | apply restores_try_except
    | apply restores_bind
    | apply terminates_try_except
    | apply terminates_bind
    | match goal with |- forall _, _ => intro end ]).

Lemma band_power_body_frame W band_span_hz :
  restores
    (try_except
       (write W [Lit "CALC:MARK1:STAT ON"] ;;
        write W [Lit "CALC:MARK1:FUNC:BAND ON"] ;;
        status <- query W [Lit "CALC:MARK1:FUNC?"] ;;
        write W [Lit "CALC:MARK1:FUNC:BAND:SPAN "; Num band_span_hz] ;;
        span_rb <- query W [Lit "CALC:MARK1:FUNC:BAND:SPAN?"] ;;
        try_except
          (_ <- query W [Lit "CALC:MARK:FUNC BPOW"] ;; ret tt)
          (fun _ => ret tt) ;;
        power <- query W [Lit "CALC:MARK1:Y?"] ;;
        ret (Some power))
       (fun _ => ret None)) /\
  terminates
    (try_except
       (write W [Lit "CALC:MARK1:STAT ON"] ;;
        write W [Lit "CALC:MARK1:FUNC:BAND ON"] ;;
        status <- query W [Lit "CALC:MARK1:FUNC?"] ;;
        write W [Lit "CALC:MARK1:FUNC:BAND:SPAN "; Num band_span_hz] ;;
        span_rb <- query W [Lit "CALC:MARK1:FUNC:BAND:SPAN?"] ;;
        try_except
          (_ <- query W [Lit "CALC:MARK:FUNC BPOW"] ;; ret tt)
          (fun _ => ret tt) ;;
        power <- query W [Lit "CALC:MARK1:Y?"] ;;
        ret (Some power))
       (fun _ => ret None)).
Proof.
  split; frame_tac.
Qed.

Lemma get_band_power_frame W band_span_hz s r :
  sa s = Some r ->
  fst (get_band_power W band_span_hz s) <> Diverge /\
  observed (snd (get_band_power W band_span_hz s)) = observed s.
Proof.
  intros Hsa. destruct s as [addr ct osa con]. simpl in Hsa. subst osa.
  destruct (band_power_body_frame W band_span_hz) as [Hres Hterm].
  unfold get_band_power.
  rewrite (bind_Ret _ _ _ _ _ (require_connected_connected addr ct r con)).
  rewrite (bind_Ret _ _ _ _ _ (get_sa_connected addr ct r con)).
  rewrite (bind_Ret _ _ _ _ _ (set_timeout_connected 10000 addr ct r con)).
  match goal with
  | |- context [try_finally ?b ?f ?s1] =>
      destruct (finally_restores b f s1
                  (observed (mkAnalyzer addr ct (Some r) con)) Hres)
        as [Ho Hobs]; [apply Hterm | | ]
  end.
  - intros s2 Hs2.
    unfold set_timeout, observed, timeout_of, chunk_of in *.
    destruct (sa s2) as [r2|]; [|discriminate]. simpl in *.
    injection Hs2 as _ Hc. rewrite Hc. auto.
  - split; [|exact Hobs]. rewrite Ho. apply Hterm.
Qed.

Lemma try_finally_returns {A} (body : M A) fin s :
  fst (try_finally body fin s) <> Diverge -> fst (body s) <> Diverge.
Proof.
  unfold try_finally. destruct (body s) as [[a|e|] s1]; simpl;
    [discriminate | discriminate | auto].
Qed.

Lemma transfer_frame W fuel local_filename remote_path :
  restores (transfer W fuel local_filename remote_path).
Proof.
  intros [addr ct [r|] con] Hd; [|reflexivity].
  unfold transfer in *.
  rewrite (bind_Ret _ _ _ _ _ (get_sa_connected addr ct r con)) in *.
  rewrite (bind_Ret _ _ _ _ _
             (set_timeout_connected 120000 addr ct r con)) in *.
  rewrite (bind_Ret _ _ _ _ _
             (set_chunk_size_connected 1048576 addr ct _ con)) in *.
  apply try_finally_returns in Hd.
  match goal with
  | |- context [try_finally ?b ?f ?s1] =>
      destruct (finally_restores b f s1
                  (observed (mkAnalyzer addr ct (Some r) con)))
        as [_ Hobs]; [frame_tac | exact Hd | | exact Hobs]
  end.
  intros s2 Hs2.
  unfold observed, timeout_of, chunk_of in Hs2.
  destruct s2 as [addr2 ct2 [r2|] con2]; [|discriminate].
  rewrite (bind_Ret _ _ _ _ _ (set_timeout_connected _ addr2 ct2 r2 con2)).
  rewrite set_chunk_size_connected. split; reflexivity.
Qed.

#[local] Hint Resolve transfer_frame : frame.

Lemma attempt_frame W fuel timestamp local_filename subdir :
  restores (attempt W fuel timestamp local_filename subdir).
Proof.
  unfold attempt. frame_tac.
  match goal with |- restores (if ?b then _ else _) => destruct b end;
    frame_tac.
Qed.

#[local] Hint Resolve attempt_frame : frame.

Lemma capture_loop_frame W fuel timestamp local_filename candidates :
  forall last_error,
    restores (capture_loop W fuel timestamp local_filename candidates
                last_error).
Proof.
  induction candidates as [|[subdir desc] rest IH]; intros last_error; simpl.
  - frame_tac.
  - apply restores_bind; [frame_tac|].
    intros [l r| |e]; [frame_tac | apply IH | apply IH].
Qed.

Lemma capture_screen_frame W fuel timestamp local_filename :
  restores (capture_screen W fuel timestamp local_filename).
Proof.
  unfold capture_screen. apply restores_bind; [frame_tac|].
  intros _. apply capture_loop_frame.
Qed.

(** C4.  From a connected session, band power always comes back, and with
    the timeout it started from; the screenshot transfer step, and the
    whole screenshot capture, whenever they come back (with a file or with
    a failure), leave the timeout and the chunk size as read by
    [getattr(self.sa, "chunk_size", 20000)] at their values from before. *)
Theorem overrides_are_restored :
  forall (W : World),
    (forall band_span_hz s r,
        sa s = Some r ->
        fst (get_band_power W band_span_hz s) <> Diverge /\
        timeout_of (snd (get_band_power W band_span_hz s)) =
        Some (timeout r)) /\
    (forall fuel local_filename remote_path s r,
        sa s = Some r ->
        fst (transfer W fuel local_filename remote_path s) <> Diverge ->
        observed (snd (transfer W fuel local_filename remote_path s)) =
        observed s) /\
    (forall fuel timestamp local_filename s r,
        sa s = Some r ->
        fst (capture_screen W fuel timestamp local_filename s) <> Diverge ->
        observed (snd (capture_screen W fuel timestamp local_filename s)) =
        observed s).
Proof.
  intros W. split; [|split].
  - intros band_span_hz s r Hsa.
    destruct (get_band_power_frame W band_span_hz s r Hsa) as [Hd Hobs].
    split; [exact Hd|].
    unfold observed in Hobs. injection Hobs as Ht _. rewrite Ht.
    unfold timeout_of. rewrite Hsa. reflexivity.
  - intros fuel local_filename remote_path s r _ Hd.
    apply transfer_frame. exact Hd.
  - intros fuel timestamp local_filename s r _ Hd.
    apply capture_screen_frame. exact Hd.
Qed.

(** ** Band power *)

Lemma try_except_Raise {A} (m : M A) h s e s1 :
  m s = (Raise e, s1) -> try_except m h s = h e s1.
Proof. intros H. unfold try_except. rewrite H. reflexivity. Qed.

Lemma try_except_Ret {A} (m : M A) h s a s1 :
  m s = (Ret a, s1) -> try_except m h s = (Ret a, s1).
Proof. intros H. unfold try_except. rewrite H. reflexivity. Qed.

Lemma try_finally_Ret {A} (m : M A) fin s a s1 s2 :
  m s = (Ret a, s1) -> fin s1 = (Ret tt, s2) ->
  try_finally m fin s = (Ret a, s2).
Proof. intros H1 H2. unfold try_finally. rewrite H1, H2. reflexivity. Qed.

Lemma query_Ret_inv W cmd s v s' :
  query W cmd s = (Ret v, s') ->
  exists r,
    sa s = Some r /\
    s' = with_sa s (Some (with_sent r (sent r ++ [cmd]))) /\
    exists reply, on_query W r cmd = inr reply /\ v = strip reply.
Proof.
  unfold query, bind, on_sa, sa_query, ret.
  destruct (sa s) as [r|]; [|discriminate].
  destruct (on_query W r cmd) as [e|reply] eqn:Hq; [discriminate|].
  intros H. injection H as Hv Hs. exists r.
  split; [reflexivity|]. split; [symmetry; exact Hs|].
  exists reply. split; [exact Hq | symmetry; exact Hv].
Qed.

(** C7.  On a connected session, when the steps before it succeed and the
    band-power-mode selection [CALC:MARK:FUNC BPOW] raises, the operation
    goes on: the query [CALC:MARK1:Y?] is the last command sent, and its
    answer is what [get_band_power] returns. *)
Theorem band_power_continues_after_bpow_failure :
  forall (W : World) band_span_hz s r s1 s2 status s3 s4 span_rb s5 e s6
         power s7,
    sa s = Some r ->
    write W [Lit "CALC:MARK1:STAT ON"]
      (with_sa s (Some (with_timeout r 10000))) = (Ret tt, s1) ->
    write W [Lit "CALC:MARK1:FUNC:BAND ON"] s1 = (Ret tt, s2) ->
    query W [Lit "CALC:MARK1:FUNC?"] s2 = (Ret status, s3) ->
    write W [Lit "CALC:MARK1:FUNC:BAND:SPAN "; Num band_span_hz] s3 =
      (Ret tt, s4) ->
    query W [Lit "CALC:MARK1:FUNC:BAND:SPAN?"] s4 = (Ret span_rb, s5) ->
    query W [Lit "CALC:MARK:FUNC BPOW"] s5 = (Raise e, s6) ->
    query W [Lit "CALC:MARK1:Y?"] s6 = (Ret power, s7) ->
    fst (get_band_power W band_span_hz s) = Ret (Some power) /\
    option_map sent (sa (snd (get_band_power W band_span_hz s))) =
    option_map (fun r6 => sent r6 ++ [[Lit "CALC:MARK1:Y?"]]) (sa s6).
Proof.
  intros W band_span_hz [addr ct osa con] r s1 s2 status s3 s4 span_rb s5 e
    s6 power s7 Hsa H1 H2 H3 H4 H5 H6 H7.
  simpl in Hsa. subst osa. unfold with_sa in H1. cbn [resource_address
    cfg_timeout console] in H1.
  destruct (query_Ret_inv _ _ _ _ _ H7) as [r6 [Hs6 [Hs7 _]]].
  unfold get_band_power.
  rewrite (bind_Ret _ _ _ _ _ (require_connected_connected addr ct r con)).
  rewrite (bind_Ret _ _ _ _ _ (get_sa_connected addr ct r con)).
  rewrite (bind_Ret _ _ _ _ _ (set_timeout_connected 10000 addr ct r con)).
  subst s7. destruct s6 as [a6 c6 o6 m6]. simpl in Hs6. subst o6.
  unfold with_sa in H7. cbn [resource_address cfg_timeout console sa] in H7.
  match goal with
  | |- context [try_finally ?b ?f ?s0] =>
      assert (Hbody :
        b s0 =
        (Ret (Some power),
         mkAnalyzer a6 c6
           (Some (with_sent r6 (sent r6 ++ [[Lit "CALC:MARK1:Y?"]]))) m6))
  end.
  { apply try_except_Ret.
    rewrite (bind_Ret _ _ _ _ _ H1).
    rewrite (bind_Ret _ _ _ _ _ H2).
    rewrite (bind_Ret _ _ _ _ _ H3).
    rewrite (bind_Ret _ _ _ _ _ H4).
    rewrite (bind_Ret _ _ _ _ _ H5).
    rewrite (bind_Ret _ _ _ tt _
               (eq_trans (try_except_Raise _ _ _ _ _
                            (bind_Raise _ _ _ _ _ H6)) eq_refl)).
    rewrite (bind_Ret _ _ _ _ _ H7). reflexivity. }
  rewrite (try_finally_Ret _ _ _ _ _ _ Hbody
             (set_timeout_connected (timeout r) _ _ _ _)).
  split; reflexivity.
Qed.

Lemma band_power_continues_after_bpow_failure_witness :
  fst (get_band_power flaky_bpow (inject_Z 1000000) (connected [] [])) =
  Ret (Some "-42.5"%string).
Proof.
  eapply proj1.
  eapply (band_power_continues_after_bpow_failure flaky_bpow
            (inject_Z 1000000) (connected [] [])); reflexivity.
Defined.

Lemma overrides_are_restored_witness :
  timeout_of (snd (get_band_power flaky_bpow (inject_Z 1000000)
                     (connected [] []))) = Some 5000 /\
  observed (snd (transfer (quiet "1") 20 "shot.png" "C:\\\x.PNG"
                   (connected [] []))) = observed (connected [] []) /\
  observed (snd (capture_screen
                   (shot_bench "20240101_120000" "C:\\"
                      [x23; x31; x33; x50; x4e; x47] [2; 1; 1; 1]%nat
                      (fun _ => None))
                   20 "20240101_120000" None (connected [] []))) =
  observed (connected [] []).
Proof.
  split; [|split].
  - exact (proj2 (proj1 (overrides_are_restored flaky_bpow)
                    (inject_Z 1000000) (connected [] []) _ eq_refl)).
  - eapply (proj1 (proj2 (overrides_are_restored (quiet "1"))));
      [reflexivity | vm_compute; discriminate].
  - eapply (proj2 (proj2 (overrides_are_restored _)));
      [reflexivity | vm_compute; discriminate].
Defined.

(** ** Measurement engine: degradation and the missing session *)

(** Run a straight-line sequence on an explicit state, splitting on every
    answer of the instrument; a refused command is rewritten first. *)
Ltac unfold_ops :=
  cbv beta iota zeta delta
    [get_current_high_peak get_current_low_peak get_band_power read_obwidth
     bind try_except try_finally write query on_sa sa_write sa_query ret
     raise require_connected get_sa set_timeout with_sa with_sent with_rx
     with_timeout sa resource_address cfg_timeout console fst snd
     timeout chunk_size sent rx frag].

Ltac run_steps W :=
  unfold_ops;
  repeat (first
    [ match goal with
      | H : forall r, exists e, on_write W r ?c = inl e
        |- context [on_write W ?r ?c] =>
          let e := fresh "e" in
          let E := fresh "E" in
          destruct (H r) as [e E]; rewrite E; clear E
      | H : forall r, exists e, on_query W r ?c = inl e
        |- context [on_query W ?r ?c] =>
          let e := fresh "e" in
          let E := fresh "E" in
          destruct (H r) as [e E]; rewrite E; clear E
      end
    | match goal with
      | |- context [match on_write W ?r ?c with _ => _ end] =>
          destruct (on_write W r c) as [?|[? ?]]
      | |- context [match on_query W ?r ?c with _ => _ end] =>
          destruct (on_query W r c)
      end ];
    cbv beta iota zeta).

Lemma high_peak_total W s :
  exists v, fst (get_current_high_peak W s) = Ret v.
Proof.
  destruct s as [addr ct [[tmo ch se q f]|] con]; run_steps W;
    eexists; reflexivity.
Qed.

Lemma low_peak_total W s :
  exists v, fst (get_current_low_peak W s) = Ret v.
Proof.
  destruct s as [addr ct [[tmo ch se q f]|] con]; run_steps W;
    eexists; reflexivity.
Qed.

Lemma obwidth_total W sr sf ro s :
  exists v, fst (read_obwidth W sr sf ro s) = Ret v.
Proof.
  unfold read_obwidth.
  destruct (span_hz sr sf ro) as [e|span];
    destruct s as [addr ct [[tmo ch se q f]|] con]; cbn [lift];
    run_steps W; eexists; reflexivity.
Qed.

Lemma band_power_total W span s r :
  sa s = Some r -> exists v, fst (get_band_power W span s) = Ret v.
Proof.
  destruct s as [addr ct osa con]. simpl. intros ->.
  destruct r as [tmo ch se q f]. run_steps W; eexists; reflexivity.
Qed.

(** Settle an equivalence between a result and a fault once both sides
    have been computed. *)
Ltac settle_fault :=
  split; intros Hfault;
  first [ discriminate | reflexivity | exact I
        | exfalso; apply Hfault; reflexivity ].

Lemma high_peak_fault W s :
  fst (get_current_high_peak W s) = Ret None <->
  first_fault W high_peak_steps s <> None.
Proof.
  destruct s as [addr ct [[tmo ch se q f]|] con];
    unfold high_peak_steps; cbn [first_fault]; run_steps W; settle_fault.
Qed.

Lemma low_peak_fault W s :
  fst (get_current_low_peak W s) = Ret None <->
  first_fault W low_peak_steps s <> None.
Proof.
  destruct s as [addr ct [[tmo ch se q f]|] con];
    unfold low_peak_steps; cbn [first_fault]; run_steps W; settle_fault.
Qed.

Lemma obwidth_fault W sr sf ro s :
  fst (read_obwidth W sr sf ro s) = Ret None <->
  match span_hz sr sf ro with
  | inl _ => True
  | inr span => first_fault W (obwidth_steps span) s <> None
  end.
Proof.
  unfold read_obwidth.
  destruct (span_hz sr sf ro) as [e|span];
    destruct s as [addr ct [[tmo ch se q f]|] con];
    unfold obwidth_steps; cbn [first_fault lift]; run_steps W; settle_fault.
Qed.

Lemma band_power_fault W span s r :
  sa s = Some r ->
  fst (get_band_power W span s) = Ret None <->
  first_fault W (band_power_steps span)
    (with_sa s (Some (with_timeout r 10000))) <> None.
Proof.
  destruct s as [addr ct osa con]. simpl. intros ->.
  destruct r as [tmo ch se q f].
  unfold band_power_steps; cbn [first_fault]; run_steps W; settle_fault.
Qed.

(** C5, as the code has it.  None of the four measurements raises on a
    failing step: with the session connected each returns a value, and the
    marker [None] exactly when one of its steps fails, be it once or every
    time (for band power, a step other than the tolerated selection of
    the band-power mode; for the occupied bandwidth, the computation of
    the span included).  With the session absent, band power raises
    "Analyzer not connected", while high peak, low peak and occupied
    bandwidth catch that fault like any other and return [None]. *)
Theorem measurements_degrade :
  forall (W : World),
    (forall s, exists v, fst (get_current_high_peak W s) = Ret v) /\
    (forall s, exists v, fst (get_current_low_peak W s) = Ret v) /\
    (forall sr sf ro s, exists v, fst (read_obwidth W sr sf ro s) = Ret v) /\
    (forall span s r,
        sa s = Some r -> exists v, fst (get_band_power W span s) = Ret v) /\
    (forall s,
        fst (get_current_high_peak W s) = Ret None <->
        first_fault W high_peak_steps s <> None) /\
    (forall s,
        fst (get_current_low_peak W s) = Ret None <->
        first_fault W low_peak_steps s <> None) /\
    (forall sr sf ro s,
        fst (read_obwidth W sr sf ro s) = Ret None <->
        match span_hz sr sf ro with
        | inl _ => True
        | inr span => first_fault W (obwidth_steps span) s <> None
        end) /\
    (forall span s r,
        sa s = Some r ->
        (fst (get_band_power W span s) = Ret None <->
         first_fault W (band_power_steps span)
           (with_sa s (Some (with_timeout r 10000))) <> None)) /\
    (forall span s,
        sa s = None -> fst (get_band_power W span s) = Raise NotConnected) /\
    (forall sr sf ro s,
        sa s = None ->
        fst (get_current_high_peak W s) = Ret None /\
        fst (get_current_low_peak W s) = Ret None /\
        fst (read_obwidth W sr sf ro s) = Ret None).
Proof.
  intros W.
  split; [intros s; apply high_peak_total|].
  split; [intros s; apply low_peak_total|].
  split; [intros sr sf ro s; apply obwidth_total|].
  split; [intros span s r; apply band_power_total|].
  split; [intros s; apply high_peak_fault|].
  split; [intros s; apply low_peak_fault|].
  split; [intros sr sf ro s; apply obwidth_fault|].
  split; [intros span s r; apply band_power_fault|].
  split.
  - intros span [addr ct osa con]. simpl. intros ->. reflexivity.
  - intros sr sf ro [addr ct osa con]. simpl. intros ->.
    split; [reflexivity|]. split; [reflexivity|].
    unfold read_obwidth. destruct (span_hz sr sf ro); reflexivity.
Qed.

Lemma measurements_degrade_witness :
  fst (get_band_power (glitch 2) (inject_Z 1000000) (connected [] [])) =
  Ret None /\
  fst (get_band_power (quiet "1") (inject_Z 1000000) disconnected) =
  Raise NotConnected /\
  fst (get_current_high_peak (quiet "1") disconnected) = Ret None.
Proof.
  split; [|split].
  - apply (proj2 (proj1 (proj2 (proj2 (proj2 (proj2 (proj2 (proj2 (proj2
             (measurements_degrade (glitch 2)))))))))
             (inject_Z 1000000) (connected [] []) _ eq_refl)).
    discriminate.
  - apply (proj1 (proj2 (proj2 (proj2 (proj2 (proj2 (proj2 (proj2 (proj2
             (measurements_degrade (quiet "1"))))))))))).
    reflexivity.
  - apply (proj2 (proj2 (proj2 (proj2 (proj2 (proj2 (proj2 (proj2 (proj2
             (measurements_degrade (quiet "1")))))))))) None None None).
    reflexivity.
Defined.

(** The claim that every measurement fails hard without a session is
    false: on a disconnected analyzer the two peak searches and the
    occupied-bandwidth measurement return [None]. *)
Lemma measurements_not_connected_counterexample :
  sa disconnected = None /\
  fst (get_current_high_peak (quiet "1") disconnected) = Ret None /\
  fst (get_current_low_peak (quiet "1") disconnected) = Ret None /\
  fst (read_obwidth (quiet "1") None None None disconnected) = Ret None /\
  fst (get_current_high_peak (quiet "1") disconnected) <> Raise NotConnected.
Proof. repeat split; discriminate. Qed.

(** ** Occupied bandwidth *)

(** C3, as the code has it.  On a connected session the first command
    [read_obwidth] sends is the span setting.  With the three inputs given
    it carries the binary64 product
    [ob_symbol_rate * 1e3 * ob_spread_factor * (1 + ob_tx_roll_off) * 2],
    evaluated from left to right with the rounding of each operation, the
    [int] inputs converted to floats; with one of them [None] it carries
    10,000,000.  When an [int] input is too large for a float, no command
    is sent and the result is [None].  For 1000, 7 and 0.35 the span is
    18,900,000. *)
Theorem read_obwidth_span_applied :
  (forall (W : World) sr sf ro s r span,
      sa s = Some r ->
      span_hz sr sf ro = inr span ->
      exists more r',
        sa (snd (read_obwidth W sr sf ro s)) = Some r' /\
        sent r' =
        sent r ++
        [Lit ":SENSe:OBWidth:FREQ:SPAN "; Flt span; Lit " Hz"] :: more) /\
  (forall sr sf ro a b c,
      as_float sr = inr a ->
      as_float sf = inr b ->
      as_float (one_plus ro) = inr c ->
      span_hz (Some sr) (Some sf) (Some ro) =
      inr (a * 1e3 * b * c * 2)%float) /\
  (forall a b c,
      span_hz (Some (PyFloat a)) (Some (PyFloat b)) (Some (PyFloat c)) =
      inr (a * 1e3 * b * (1 + c) * 2)%float) /\
  (forall sr sf ro,
      sr = None \/ sf = None \/ ro = None ->
      span_hz sr sf ro = inr 10000000%float) /\
  (forall (W : World) sr sf ro s e,
      span_hz sr sf ro = inl e ->
      e = OverflowError /\
      read_obwidth W sr sf ro s = (Ret None, s)) /\
  span_hz (Some (PyFloat 1000)) (Some (PyInt 7))
    (Some (PyFloat 0x1.6666666666666p-2)) = inr 18900000%float.
Proof.
  split; [|split; [|split; [|split; [|split]]]].
  - intros W sr sf ro [addr ct osa con] r span Hsa Hspan.
    simpl in Hsa. subst osa. destruct r as [tmo ch se q f].
    unfold read_obwidth. rewrite Hspan. cbn [lift].
    run_steps W; repeat rewrite <- app_assoc; cbn [app];
      eexists _, _; (split; reflexivity).
  - intros sr sf ro a b c Ha Hb Hc. unfold span_hz.
    rewrite Ha, Hb, Hc. reflexivity.
  - reflexivity.
  - intros sr sf ro H.
    destruct sr, sf, ro; destruct H as [H|[H|H]];
      try discriminate; reflexivity.
  - intros W sr sf ro s e Hspan. split.
    + unfold span_hz in Hspan.
      assert (Hconv : forall x e', as_float x = inl e' ->
                                   e' = OverflowError).
      { intros [n|x] e'; simpl; [|discriminate].
        unfold float_of_int.
        destruct (binary_normalize prec emax n 0 false);
          intros H; inversion H; reflexivity. }
      destruct sr as [sr|]; [|discriminate].
      destruct sf as [sf|]; [|discriminate].
      destruct ro as [ro|]; [|discriminate].
      destruct (as_float sr) eqn:Ea; [inversion Hspan; subst; eauto|].
      destruct (as_float sf) eqn:Eb; [inversion Hspan; subst; eauto|].
      destruct (as_float (one_plus ro)) eqn:Ec;
        [inversion Hspan; subst; eauto|discriminate].
    + unfold read_obwidth. rewrite Hspan. reflexivity.
  - vm_compute. reflexivity.
Qed.

Lemma read_obwidth_span_applied_witness :
  exists more r',
    sa (snd (read_obwidth (quiet "1") (Some (PyFloat 1000)) (Some (PyInt 7))
               (Some (PyFloat 0x1.6666666666666p-2))
               (connected [] []))) = Some r' /\
    sent r' =
    [] ++ [Lit ":SENSe:OBWidth:FREQ:SPAN "; Flt 18900000; Lit " Hz"] :: more.
Proof.
  apply (proj1 read_obwidth_span_applied (quiet "1") (Some (PyFloat 1000))
           (Some (PyInt 7)) (Some (PyFloat 0x1.6666666666666p-2))
           (connected [] []) _ 18900000%float eq_refl).
  vm_compute. reflexivity.
Defined.

(** The claim that the span applied is the product itself is false.  For
    1000, 7 and a roll-off of 0.1, as the three floats, the span sent is
    15400000.000000002: neither 15,400,000 nor the product of the exact
    values of the three floats.  For a spread factor of 10^400, an [int],
    no span is applied at all. *)
Lemma read_obwidth_span_applied_counterexample :
  sent_of (snd (read_obwidth (quiet "1") (Some (PyFloat 1000))
                  (Some (PyFloat 7)) (Some (PyFloat 0x1.999999999999ap-4))
                  (connected [] []))) =
  [[Lit ":SENSe:OBWidth:FREQ:SPAN "; Flt 0x1.d5f8800000001p+23; Lit " Hz"];
   [Lit ":SENSe:OBWidth:FREQ:SPAN?"];
   [Lit ":READ:OBWidth?"]] /\
  agrees 0x1.d5f8800000001p+23 (claimed_span 1000 7 (1 # 10)) = false /\
  agrees 0x1.d5f8800000001p+23
    (claimed_span 1000 7 (exact 0x1.999999999999ap-4)) = false /\
  read_obwidth (quiet "1") (Some (PyFloat 1000)) (Some (PyInt (10 ^ 400)))
    (Some (PyFloat 0x1.6666666666666p-2)) (connected [] []) =
  (Ret None, connected [] []).
Proof. repeat split; vm_compute; reflexivity. Qed.

(** ** Trace acquisition *)

Lemma np_linspace_length start stop num :
  List.length (np_linspace start stop num) = num.
Proof.
  unfold np_linspace. destruct (Nat.ltb_spec 1 num) as [H|H].
  - rewrite length_app, length_firstn, length_map, length_seq.
    simpl List.length. lia.
  - rewrite length_map, length_seq. reflexivity.
Qed.

(** With two samples or more the last one is [stop] itself. *)
Lemma np_linspace_last start stop num :
  (2 <= num)%nat ->
  nth (num - 1) (np_linspace start stop num) 0%float = stop.
Proof.
  intros Hn. unfold np_linspace.
  destruct (Nat.ltb_spec 1 num) as [_|Hc]; [|lia].
  rewrite app_nth2 by (rewrite length_firstn, length_map, length_seq; lia).
  rewrite length_firstn, length_map, length_seq.
  replace (num - 1 - Nat.min (num - 1) num)%nat with 0%nat by lia.
  reflexivity.
Qed.

(** Every sample before the last is computed from the step. *)
Lemma np_linspace_inner start stop num i :
  (i + 1 < num)%nat ->
  nth i (np_linspace start stop num) 0%float =
  ((if ((stop - start) / float_of_nat (num - 1) =? 0)%float
    then float_of_nat i / float_of_nat (num - 1) * (stop - start)
    else float_of_nat i * ((stop - start) / float_of_nat (num - 1)))
   + start)%float.
Proof.
  intros Hi. unfold np_linspace.
  destruct (Nat.ltb_spec 1 num) as [_|Hc]; [|lia].
  rewrite app_nth1 by (rewrite length_firstn, length_map, length_seq; lia).
  rewrite nth_firstn.
  destruct (Nat.ltb_spec i (num - 1)) as [_|Hc]; [|lia].
  match goal with
  | |- nth i (map ?g _) _ = _ =>
      rewrite (nth_indep _ 0%float (g 0%nat))
        by (rewrite length_map, length_seq; lia);
      rewrite (map_nth g)
  end.
  rewrite seq_nth by lia. reflexivity.
Qed.

(** A single sample is computed from [start] and the distance to [stop]. *)
Lemma np_linspace_single start stop :
  np_linspace start stop 1 = [(0 * (stop - start) + start)%float].
Proof. reflexivity. Qed.

Lemma decoded_count_wins n pts :
  Z.to_nat (if negb (Z.of_nat n =? pts) then Z.of_nat n else pts) = n.
Proof.
  destruct (Z.eqb_spec (Z.of_nat n) pts) as [E|E]; simpl.
  - subst pts. apply Nat2Z.id.
  - apply Nat2Z.id.
Qed.

Lemma float_or_empty W default : float_or W EmptyString default = ret default.
Proof. reflexivity. Qed.

Lemma float_or_text W text default x :
  text <> EmptyString -> py_float W text = Some x ->
  float_or W text default = ret x.
Proof.
  intros Hne Hx. destruct text; [contradiction|].
  unfold float_or, float_of. rewrite Hx. reflexivity.
Qed.

Lemma float_or_invalid W text default :
  text <> EmptyString -> py_float W text = None ->
  float_or W text default = raise InvalidFloatLiteral.
Proof.
  intros Hne Hx. destruct text; [contradiction|].
  unfold float_or, float_of. rewrite Hx. reflexivity.
Qed.

Ltac run_fetch W :=
  cbv beta iota zeta delta
    [fetch_trace get_center_frequency get_span query_binary_values
     sa_query_binary_values float_of lift
     bind try_except try_finally write query on_sa sa_write sa_query ret
     raise require_connected with_sa with_sent with_rx
     sa resource_address cfg_timeout console fst snd
     timeout chunk_size sent rx frag];
  repeat (first
    [ match goal with
      | H : forall r, on_values W r ?c = _
        |- context [on_values W ?r ?c] => rewrite (H r)
      | H : forall r, on_query W r ?c = _
        |- context [on_query W ?r ?c] => rewrite (H r)
      | H : float_or W ?t ?d = _ |- context [float_or W ?t ?d ?s] =>
          rewrite H; unfold ret, raise
      | H : (List.length ?l =? 0)%nat = false
        |- context [(List.length ?l =? 0)%nat] => rewrite H
      end
    | match goal with
      | |- context [match on_write W ?r ?c with _ => _ end] =>
          destruct (on_write W r c) as [?|[? ?]]
      | |- context [match on_query W ?r ?c with _ => _ end] =>
          destruct (on_query W r c)
      | |- context [match py_float W ?t with _ => _ end] =>
          destruct (py_float W t)
      | |- context [match py_int_of_float ?x with _ => _ end] =>
          destruct (py_int_of_float x)
      end ];
    cbv beta iota zeta).

(** What [fetch_trace] returns when the trace query yields samples and the
    two readbacks yield [cf] and [span], whatever the format commands and
    the point-count query do. *)
Lemma fetch_trace_run W trace_name s r samples cf_text span_text cf span :
  sa s = Some r ->
  samples <> [] ->
  (forall r', on_values W r' [Lit ("TRAC:DATA? " ++ trace_name)] =
              inr samples) ->
  (forall r', on_query W r' [Lit "FREQ:CENT?"] = inr cf_text) ->
  (forall r', on_query W r' [Lit "FREQ:SPAN?"] = inr span_text) ->
  float_or W (strip cf_text) 0 = ret cf ->
  float_or W (strip span_text) 1 = ret span ->
  fst (fetch_trace W trace_name s) =
  Ret (np_linspace (cf - span / 2) (cf + span / 2) (List.length samples),
       samples).
Proof.
  intros Hsa Hne Hv Hcf Hspan Hfcf Hfspan.
  destruct s as [addr ct osa con]. simpl in Hsa. subst osa.
  destruct r as [tmo ch se q f].
  assert (Hlen : (List.length samples =? 0)%nat = false)
    by (destruct samples; [contradiction|reflexivity]).
  run_fetch W; rewrite decoded_count_wins; reflexivity.
Qed.

(** The fault of a centre-frequency readback is the result. *)
Lemma fetch_trace_cf_fault W trace_name s r samples cf_text e :
  sa s = Some r ->
  samples <> [] ->
  (forall r', on_values W r' [Lit ("TRAC:DATA? " ++ trace_name)] =
              inr samples) ->
  (forall r', on_query W r' [Lit "FREQ:CENT?"] = inr cf_text) ->
  float_or W (strip cf_text) 0 = raise e ->
  fst (fetch_trace W trace_name s) = Raise e.
Proof.
  intros Hsa Hne Hv Hcf Hfcf.
  destruct s as [addr ct osa con]. simpl in Hsa. subst osa.
  destruct r as [tmo ch se q f].
  assert (Hlen : (List.length samples =? 0)%nat = false)
    by (destruct samples; [contradiction|reflexivity]).
  run_fetch W; reflexivity.
Qed.

(** The fault of a span readback is the result. *)
Lemma fetch_trace_span_fault W trace_name s r samples cf_text span_text cf e :
  sa s = Some r ->
  samples <> [] ->
  (forall r', on_values W r' [Lit ("TRAC:DATA? " ++ trace_name)] =
              inr samples) ->
  (forall r', on_query W r' [Lit "FREQ:CENT?"] = inr cf_text) ->
  (forall r', on_query W r' [Lit "FREQ:SPAN?"] = inr span_text) ->
  float_or W (strip cf_text) 0 = ret cf ->
  float_or W (strip span_text) 1 = raise e ->
  fst (fetch_trace W trace_name s) = Raise e.
Proof.
  intros Hsa Hne Hv Hcf Hspan Hfcf Hfspan.
  destruct s as [addr ct osa con]. simpl in Hsa. subst osa.
  destruct r as [tmo ch se q f].
  assert (Hlen : (List.length samples =? 0)%nat = false)
    by (destruct samples; [contradiction|reflexivity]).
  run_fetch W; reflexivity.
Qed.

(** A readback query that raises is not caught by [fetch_trace]: its
    fault is the result. *)
Lemma fetch_trace_readback_fault :
  forall (W : World) trace_name s r samples e,
    sa s = Some r ->
    samples <> [] ->
    (forall r', on_values W r' [Lit ("TRAC:DATA? " ++ trace_name)] =
                inr samples) ->
    (forall r', on_query W r' [Lit "FREQ:CENT?"] = inl e) ->
    fst (fetch_trace W trace_name s) = Raise e.
Proof.
  intros W trace_name s r samples e Hsa Hne Hv Hcf.
  destruct s as [addr ct osa con]. simpl in Hsa. subst osa.
  destruct r as [tmo ch se q f].
  assert (Hlen : (List.length samples =? 0)%nat = false)
    by (destruct samples; [contradiction|reflexivity]).
  run_fetch W; reflexivity.
Qed.

Lemma fetch_trace_span_query_fault :
  forall (W : World) trace_name s r samples cf_text cf e,
    sa s = Some r ->
    samples <> [] ->
    (forall r', on_values W r' [Lit ("TRAC:DATA? " ++ trace_name)] =
                inr samples) ->
    (forall r', on_query W r' [Lit "FREQ:CENT?"] = inr cf_text) ->
    float_or W (strip cf_text) 0 = ret cf ->
    (forall r', on_query W r' [Lit "FREQ:SPAN?"] = inl e) ->
    fst (fetch_trace W trace_name s) = Raise e.
Proof.
  intros W trace_name s r samples cf_text cf e Hsa Hne Hv Hcf Hfcf Hspan.
  destruct s as [addr ct osa con]. simpl in Hsa. subst osa.
  destruct r as [tmo ch se q f].
  assert (Hlen : (List.length samples =? 0)%nat = false)
    by (destruct samples; [contradiction|reflexivity]).
  run_fetch W; reflexivity.
Qed.




(** C9, as the code has it.  When the trace query decodes samples and the
    centre-frequency readback comes back empty (nothing but white space),
    the axis is built around 0 Hz; when the span readback comes back
    empty, with a span of 1 Hz; in both cases [fetch_trace] returns the
    trace.  A readback that is unavailable in another way is not replaced
    by the default: when the readback query raises, and when it answers
    text that is not a number, [fetch_trace] raises that fault and
    returns no trace. *)
Theorem fetch_trace_readback_defaults :
  forall (W : World) trace_name s r samples,
    sa s = Some r ->
    samples <> [] ->
    (forall r', on_values W r' [Lit ("TRAC:DATA? " ++ trace_name)] =
                inr samples) ->
    (forall cf_text span_text,
        (forall r', on_query W r' [Lit "FREQ:CENT?"] = inr cf_text) ->
        (forall r', on_query W r' [Lit "FREQ:SPAN?"] = inr span_text) ->
        (strip cf_text = EmptyString ->
         forall span,
           strip span_text <> EmptyString ->
           py_float W (strip span_text) = Some span ->
           fst (fetch_trace W trace_name s) =
           Ret (np_linspace (0 - span / 2) (0 + span / 2)
                  (List.length samples), samples)) /\
        (strip span_text = EmptyString ->
         forall cf,
           strip cf_text <> EmptyString ->
           py_float W (strip cf_text) = Some cf ->
           fst (fetch_trace W trace_name s) =
           Ret (np_linspace (cf - 1 / 2) (cf + 1 / 2)
                  (List.length samples), samples)) /\
        (strip cf_text = EmptyString ->
         strip span_text = EmptyString ->
         fst (fetch_trace W trace_name s) =
         Ret (np_linspace (0 - 1 / 2) (0 + 1 / 2) (List.length samples),
              samples)) /\
        (strip cf_text <> EmptyString ->
         py_float W (strip cf_text) = None ->
         fst (fetch_trace W trace_name s) = Raise InvalidFloatLiteral) /\
        (forall cf,
            float_or W (strip cf_text) 0 = ret cf ->
            strip span_text <> EmptyString ->
            py_float W (strip span_text) = None ->
            fst (fetch_trace W trace_name s) = Raise InvalidFloatLiteral)) /\
    (forall e,
        (forall r', on_query W r' [Lit "FREQ:CENT?"] = inl e) ->
        fst (fetch_trace W trace_name s) = Raise e) /\
    (forall cf_text cf e,
        (forall r', on_query W r' [Lit "FREQ:CENT?"] = inr cf_text) ->
        float_or W (strip cf_text) 0 = ret cf ->
        (forall r', on_query W r' [Lit "FREQ:SPAN?"] = inl e) ->
        fst (fetch_trace W trace_name s) = Raise e).
Proof.
  intros W trace_name s r samples Hsa Hne Hv.
  split; [|split].
  - intros cf_text span_text Hcf Hspan.
    split; [|split; [|split; [|split]]].
    + intros Hempty span Hsp1 Hsp2.
      apply (fetch_trace_run W trace_name s r samples cf_text span_text
               0 span Hsa Hne Hv Hcf Hspan).
      * rewrite Hempty. apply float_or_empty.
      * apply float_or_text; assumption.
    + intros Hempty cf Hcf1 Hcf2.
      apply (fetch_trace_run W trace_name s r samples cf_text span_text
               cf 1 Hsa Hne Hv Hcf Hspan).
      * apply float_or_text; assumption.
      * rewrite Hempty. apply float_or_empty.
    + intros Hcfe Hspe.
      apply (fetch_trace_run W trace_name s r samples cf_text span_text
               0 1 Hsa Hne Hv Hcf Hspan).
      * rewrite Hcfe. apply float_or_empty.
      * rewrite Hspe. apply float_or_empty.
    + intros Hcf1 Hcf2.
      apply (fetch_trace_cf_fault W trace_name s r samples cf_text
               InvalidFloatLiteral Hsa Hne Hv Hcf).
      apply float_or_invalid; assumption.
    + intros cf Hfcf Hsp1 Hsp2.
      apply (fetch_trace_span_fault W trace_name s r samples cf_text
               span_text cf InvalidFloatLiteral Hsa Hne Hv Hcf Hspan Hfcf).
      apply float_or_invalid; assumption.
  - intros e Hcf.
    apply (fetch_trace_readback_fault W trace_name s r samples e
             Hsa Hne Hv Hcf).
  - intros cf_text cf e Hcf Hfcf Hspan.
    apply (fetch_trace_span_query_fault W trace_name s r samples cf_text cf e
             Hsa Hne Hv Hcf Hfcf Hspan).
Qed.

Lemma fetch_trace_readback_defaults_witness :
  fst (fetch_trace (trace_bench " " "2000000" [1; 2; 3]%Q) "TRACE1"
         (connected [] [])) =
  Ret (np_linspace (0 - 2000000 / 2) (0 + 2000000 / 2) 3, [1; 2; 3]%Q) /\
  fst (fetch_trace (trace_bench "1000000000" " " [1; 2; 3]%Q) "TRACE1"
         (connected [] [])) =
  Ret (np_linspace (1000000000 - 1 / 2) (1000000000 + 1 / 2) 3,
       [1; 2; 3]%Q) /\
  fst (fetch_trace
         (readback_bench (inl (VisaIOError VI_ERROR_TMO)) (inr "2000000"%string)
            [1; 2; 3]%Q)
         "TRACE1" (connected [] [])) = Raise (VisaIOError VI_ERROR_TMO).
Proof.
  split; [|split].
  - refine (proj1 (proj1 (fetch_trace_readback_defaults
              (trace_bench " " "2000000" [1; 2; 3]%Q) "TRACE1"%string
              (connected [] []) _ [1; 2; 3]%Q
              eq_refl ltac:(discriminate) (fun _ => eq_refl))
              " "%string "2000000"%string
              (fun _ => eq_refl) (fun _ => eq_refl))
              eq_refl 2000000%float ltac:(discriminate) eq_refl).
  - refine (proj1 (proj2 (proj1 (fetch_trace_readback_defaults
              (trace_bench "1000000000" " " [1; 2; 3]%Q) "TRACE1"%string
              (connected [] []) _ [1; 2; 3]%Q
              eq_refl ltac:(discriminate) (fun _ => eq_refl))
              "1000000000"%string " "%string
              (fun _ => eq_refl) (fun _ => eq_refl)))
              eq_refl 1000000000%float ltac:(discriminate) eq_refl).
  - refine (proj1 (proj2 (fetch_trace_readback_defaults
              (readback_bench (inl (VisaIOError VI_ERROR_TMO))
                 (inr "2000000"%string) [1; 2; 3]%Q) "TRACE1"%string
              (connected [] []) _ [1; 2; 3]%Q
              eq_refl ltac:(discriminate) (fun _ => eq_refl)))
              (VisaIOError VI_ERROR_TMO) (fun _ => eq_refl)).
Defined.

(** The claim that a fetch whose readback is unavailable still returns a
    trace is false: when the centre-frequency query times out, and when
    the span readback is a text that is no number, [fetch_trace] raises. *)
Lemma fetch_trace_readback_defaults_counterexample :
  fst (fetch_trace
         (readback_bench (inl (VisaIOError VI_ERROR_TMO)) (inr "2000000"%string)
            [1; 2; 3]%Q)
         "TRACE1" (connected [] [])) = Raise (VisaIOError VI_ERROR_TMO) /\
  fst (fetch_trace
         (readback_bench (inr "1000000000"%string) (inr "n/a"%string)
            [1; 2; 3]%Q)
         "TRACE1" (connected [] [])) = Raise InvalidFloatLiteral.
Proof. split; vm_compute; reflexivity. Qed.

(** ** Screenshot retrieval *)


Lemma extends_refl s : extends s s.
Proof. exists []. symmetry. apply app_nil_r. Qed.

Lemma extends_trans a b c : extends a b -> extends b c -> extends a c.
Proof.
  intros [m1 H1] [m2 H2]. exists (m1 ++ m2).
  rewrite H2, H1, app_assoc. reflexivity.
Qed.

Lemma grows_ret {A} (a : A) : grows (ret a).
Proof. apply respects_ret, extends_refl. Qed.

Lemma grows_raise {A} e : grows (@raise A e).
Proof. apply respects_raise, extends_refl. Qed.

Lemma grows_bind {A B} (m : M A) (k : A -> M B) :
  grows m -> (forall a, grows (k a)) -> grows (bind m k).
Proof. apply respects_bind, extends_trans. Qed.

Lemma grows_try_except {A} (m : M A) h :
  grows m -> (forall e, grows (h e)) -> grows (try_except m h).
Proof. apply respects_try_except, extends_trans. Qed.

Lemma grows_try_finally {A} (m : M A) fin :
  grows m -> grows fin -> grows (try_finally m fin).
Proof. apply respects_try_finally, extends_trans. Qed.

Lemma grows_on_sa {A} (f : Resource -> outcome A * Resource) :
  (forall r, exists more, sent (snd (f r)) = sent r ++ more) ->
  grows (on_sa f).
Proof.
  intros Hf [addr ct [r|] con] _; [|apply extends_refl].
  unfold on_sa. cbn [sa]. destruct (Hf r) as [more Hm].
  destruct (f r) as [o r1]. exists more. exact Hm.
Qed.

Lemma grows_write W cmd : grows (write W cmd).
Proof.
  apply grows_on_sa. intros r. unfold sa_write.
  destruct (on_write W r cmd) as [e|[q f]]; exists [cmd]; reflexivity.
Qed.

Lemma grows_query W cmd : grows (query W cmd).
Proof.
  unfold query. apply grows_bind; [|intros; apply grows_ret].
  apply grows_on_sa. intros r. unfold sa_query.
  destruct (on_query W r cmd); exists [cmd]; reflexivity.
Qed.

Lemma grows_wait_for_opc W : grows (wait_for_opc W).
Proof.
  unfold wait_for_opc.
  apply grows_bind; [apply grows_query|intros; apply grows_ret].
Qed.

Lemma grows_quiet {A} (m : M A) :
  (forall s, sent_of (snd (m s)) = sent_of s) -> grows m.
Proof.
  intros H s _. exists []. rewrite H. symmetry. apply app_nil_r.
Qed.

Lemma grows_sa_read_bytes count : grows (sa_read_bytes count).
Proof.
  apply grows_quiet. intros [addr ct [r|] con]; [|reflexivity].
  unfold sa_read_bytes. cbn [sa]. destruct (_ <? _)%nat; reflexivity.
Qed.

Lemma grows_read_payload fuel :
  forall data remaining, grows (read_payload fuel data remaining).
Proof.
  induction fuel as [|fuel IH]; intros data remaining; simpl;
    destruct (remaining =? 0).
  - apply grows_ret.
  - intros s Hd. exfalso. apply Hd. reflexivity.
  - apply grows_ret.
  - apply grows_bind; [apply grows_sa_read_bytes|].
    intros chunk. apply IH.
Qed.

Lemma grows_read_ieee_block W fuel : grows (_read_ieee_block W fuel).
Proof.
  unfold _read_ieee_block.
  apply grows_bind; [apply grows_sa_read_bytes|].
  intros [|b0 [|b1 hdr]]; try apply grows_raise;
    destruct (negb (Byte.eqb b0 x23)); try apply grows_raise.
  destruct (digit_value b1); [|apply grows_raise].
  apply grows_bind; [apply grows_sa_read_bytes|].
  intros len_str. destruct (py_int_decode W len_str);
    [apply grows_raise|apply grows_read_payload].
Qed.

Lemma grows_write_file W name data : grows (write_file W name data).
Proof.
  apply grows_quiet. intros s. unfold write_file.
  destruct (fs_write W name data); reflexivity.
Qed.

Lemma grows_get_sa : grows get_sa.
Proof.
  apply grows_quiet. intros [addr ct [r|] con]; reflexivity.
Qed.

Lemma grows_set_timeout t : grows (set_timeout t).
Proof.
  apply grows_quiet. intros [addr ct [r|] con]; reflexivity.
Qed.

Lemma grows_set_chunk_size c : grows (set_chunk_size c).
Proof.
  apply grows_quiet. intros [addr ct [r|] con]; reflexivity.
Qed.

Create HintDb log.

#[local] Hint Resolve grows_ret grows_raise grows_write grows_query
  grows_wait_for_opc grows_sa_read_bytes grows_read_payload
  grows_read_ieee_block grows_write_file grows_get_sa grows_set_timeout
  grows_set_chunk_size : log.

Ltac log_tac :=
  repeat (first
    [ solve [auto with log]
    | apply grows_try_finally
    | apply grows_try_except
    | apply grows_bind
    | match goal with |- forall _, _ => intro end ]).

Lemma grows_transfer W fuel local_filename remote_path :
  grows (transfer W fuel local_filename remote_path).
Proof. unfold transfer. log_tac. Qed.

Lemma grows_attempt_rest W fuel timestamp local_filename subdir :
  grows
    (wait_for_opc W ;;
     listed <- try_except
                 (cat <- query W (CAT subdir) ;;
                  ret (contains cat (remote_name_of timestamp)))
                 (fun _ => ret true) ;;
     if negb listed then ret Continued
     else transfer W fuel local_filename
            (remote_path_of timestamp subdir)).
Proof.
  log_tac.
  match goal with |- grows (if ?b then _ else _) => destruct b end;
    [apply grows_ret | apply grows_transfer].
Qed.

Lemma write_Ret_inv W cmd s s' :
  write W cmd s = (Ret tt, s') ->
  sa s <> None /\ sent_of s' = sent_of s ++ [cmd].
Proof.
  destruct s as [addr ct [r|] con]; unfold write, on_sa, sa_write; cbn [sa];
    [|discriminate].
  destruct (on_write W r cmd) as [e|[q f]]; [discriminate|].
  intros H. injection H as <-. split; [discriminate|reflexivity].
Qed.

Lemma query_Ret_sent W cmd s v s' :
  query W cmd s = (Ret v, s') ->
  sa s <> None /\ sent_of s' = sent_of s ++ [cmd].
Proof.
  intros H. destruct (query_Ret_inv _ _ _ _ _ H) as [r [Hs [-> _]]].
  split; [rewrite Hs; discriminate|].
  unfold sent_of. rewrite Hs. reflexivity.
Qed.

Lemma wait_for_opc_Ret_sent W s s' :
  wait_for_opc W s = (Ret tt, s') ->
  sent_of s' = sent_of s ++ [[Lit "*OPC?"]].
Proof.
  unfold wait_for_opc. unfold bind at 1.
  destruct (query W [Lit "*OPC?"] s) as [[v|e|] s1] eqn:E; try discriminate.
  intros H. injection H as <-.
  apply (query_Ret_sent _ _ _ _ _ E).
Qed.

Lemma listed_absent_sent W timestamp subdir s s' :
  listed_absent W timestamp subdir s s' ->
  sa s <> None /\ sa s' <> None /\
  sent_of s' = sent_of s ++ skip_commands timestamp subdir.
Proof.
  intros [sA [sB [cat [H1 [H2 [H3 _]]]]]].
  destruct (write_Ret_inv _ _ _ _ H1) as [Hc HA].
  pose proof (wait_for_opc_Ret_sent _ _ _ H2) as HB.
  destruct (query_Ret_inv _ _ _ _ _ H3) as [rB [HsB [Hs' _]]].
  destruct (query_Ret_sent _ _ _ _ _ H3) as [_ HC].
  split; [exact Hc|]. split; [subst s'; discriminate|].
  rewrite HC, HB, HA. unfold skip_commands.
  repeat rewrite <- app_assoc. reflexivity.
Qed.

Lemma all_listed_absent_sent W timestamp candidates :
  forall s s',
    all_listed_absent W timestamp candidates s s' ->
    (sa s <> None -> sa s' <> None) /\
    sent_of s' =
    sent_of s ++ flat_map (skip_commands timestamp) (map fst candidates).
Proof.
  induction candidates as [|[subdir desc] rest IH]; intros s s' H; simpl in H.
  - subst s'. split; [auto|]. simpl. symmetry. apply app_nil_r.
  - destruct H as [s1 [Habs Hrest]].
    destruct (listed_absent_sent _ _ _ _ _ Habs) as [_ [Hc1 Hs1]].
    destruct (IH _ _ Hrest) as [Hc Hs'].
    split; [auto|].
    rewrite Hs', Hs1. cbn [map fst flat_map]. rewrite <- app_assoc.
    reflexivity.
Qed.

Lemma attempt_absent W fuel timestamp local_filename subdir s s' :
  listed_absent W timestamp subdir s s' ->
  attempt W fuel timestamp local_filename subdir s = (Ret Continued, s').
Proof.
  intros [sA [sB [cat [H1 [H2 [H3 H4]]]]]].
  unfold attempt. apply try_except_Ret.
  rewrite (bind_Ret _ _ _ _ _ H1).
  rewrite (bind_Ret _ _ _ _ _ H2).
  rewrite (bind_Ret _ _ _ false s').
  - reflexivity.
  - apply try_except_Ret. rewrite (bind_Ret _ _ _ _ _ H3).
    unfold ret. rewrite H4. reflexivity.
Qed.

Lemma all_listed_absent_run W fuel timestamp local_filename candidates :
  forall last_error s s',
    all_listed_absent W timestamp candidates s s' ->
    failing_run W fuel timestamp local_filename candidates last_error s
      last_error s'.
Proof.
  induction candidates as [|[subdir desc] rest IH];
    intros last_error s s' H; simpl in H.
  - subst s'. constructor.
  - destruct H as [s1 [Habs Hrest]].
    eapply run_continued; [apply attempt_absent; exact Habs|].
    apply IH. exact Hrest.
Qed.

Lemma failing_run_app W fuel timestamp local_filename pre post :
  forall e0 s e1 s1 e2 s2,
    failing_run W fuel timestamp local_filename pre e0 s e1 s1 ->
    failing_run W fuel timestamp local_filename post e1 s1 e2 s2 ->
    failing_run W fuel timestamp local_filename (pre ++ post) e0 s e2 s2.
Proof.
  intros e0 s e1 s1 e2 s2 Hpre. revert e2 s2.
  induction Hpre; intros e2 s2 Hpost; simpl.
  - exact Hpost.
  - eapply run_continued; eauto.
  - eapply run_fell_through; eauto.
Qed.

Lemma capture_loop_all_fail W fuel timestamp local_filename candidates :
  forall last_error s last_error' s',
    failing_run W fuel timestamp local_filename candidates last_error s
      last_error' s' ->
    capture_loop W fuel timestamp local_filename candidates last_error s =
    (Ret (None, None),
     with_console s' (console s' ++ [AllAttemptsFailed last_error'])).
Proof.
  intros last_error s last_error' s' H. induction H; simpl.
  - reflexivity.
  - rewrite (bind_Ret _ _ _ _ _ H). exact IHfailing_run.
  - rewrite (bind_Ret _ _ _ _ _ H). exact IHfailing_run.
Qed.

Lemma capture_loop_first_success W fuel timestamp local_filename pre :
  forall subdir desc post last_error s last_error1 s1 l r s2,
    failing_run W fuel timestamp local_filename pre last_error s
      last_error1 s1 ->
    attempt W fuel timestamp local_filename subdir s1 =
      (Ret (Returned l r), s2) ->
    capture_loop W fuel timestamp local_filename
      (pre ++ (subdir, desc) :: post) last_error s =
    (Ret (Some l, Some r), s2).
Proof.
  intros subdir desc post last_error s last_error1 s1 l r s2 H Hok.
  induction H; simpl.
  - rewrite (bind_Ret _ _ _ _ _ Hok). reflexivity.
  - rewrite (bind_Ret _ _ _ _ _ H). apply IHfailing_run. exact Hok.
  - rewrite (bind_Ret _ _ _ _ _ H). apply IHfailing_run. exact Hok.
Qed.

Lemma yields_ret {A} (P : A -> Prop) a : P a -> yields P (ret a).
Proof. intros H s a' s' E. injection E as <- _. exact H. Qed.

Lemma yields_bind {A B} (P : B -> Prop) (m : M A) (k : A -> M B) :
  (forall a, yields P (k a)) -> yields P (bind m k).
Proof.
  intros Hk s b s'. unfold bind.
  destruct (m s) as [[a|e|] s1]; [apply Hk | discriminate | discriminate].
Qed.

Lemma yields_try_except {A} (P : A -> Prop) (m : M A) h :
  yields P m -> (forall e, yields P (h e)) -> yields P (try_except m h).
Proof.
  intros Hm Hh s a s'. unfold try_except. specialize (Hm s).
  destruct (m s) as [[a1|e|] s1];
    [apply Hm | apply Hh | discriminate].
Qed.

Lemma yields_try_finally {A} (P : A -> Prop) (m : M A) fin :
  yields P m -> yields P (try_finally m fin).
Proof.
  intros Hm s a s'. unfold try_finally. specialize (Hm s).
  destruct (m s) as [[a1|e|] s1]; [| |discriminate];
    destruct (fin s1) as [[[]|e'|] s2]; try discriminate.
  intros E. injection E as <- _. eapply Hm. reflexivity.
Qed.

(** A round that returns, returns the local name it was given and the
    remote path of its own candidate. *)
Lemma attempt_returned W fuel timestamp local_filename subdir :
  yields
    (fun it => forall l r, it = Returned l r ->
       l = local_filename /\ r = remote_path_of timestamp subdir)
    (attempt W fuel timestamp local_filename subdir).
Proof.
  unfold attempt, transfer.
  apply yields_try_except; [|intros e; apply yields_ret; discriminate].
  do 3 (apply yields_bind; intro).
  match goal with |- yields _ (if ?b then _ else _) => destruct b end;
    [apply yields_ret; discriminate|].
  do 3 (apply yields_bind; intro).
  apply yields_try_finally.
  apply yields_try_except; [|intros e; apply yields_ret; discriminate].
  do 3 (apply yields_bind; intro).
  apply yields_ret. intros l r E. injection E as <- <-. auto.
Qed.

Lemma write_sent W cmd s :
  sa s <> None -> sent_of (snd (write W cmd s)) = sent_of s ++ [cmd].
Proof.
  destruct s as [addr ct [r|] con];
    [intros _|intros H; contradiction H; reflexivity].
  unfold write, on_sa, sa_write. cbn [sa].
  destruct (on_write W r cmd) as [e|[q f]]; reflexivity.
Qed.

(** A round on a connected session begins by sending its store command. *)
Lemma attempt_sends_store W fuel timestamp local_filename subdir s it s2 :
  sa s <> None ->
  attempt W fuel timestamp local_filename subdir s = (Ret it, s2) ->
  exists more,
    sent_of s2 =
    sent_of s ++ STOR (remote_path_of timestamp subdir) :: more.
Proof.
  intros Hc H. unfold attempt, try_except in H. unfold bind at 1 in H.
  pose proof (write_sent W (STOR (remote_path_of timestamp subdir)) s Hc)
    as Hw.
  destruct (write W (STOR (remote_path_of timestamp subdir)) s)
    as [[[]|e|] sA]; cbn [snd] in Hw.
  - pose proof (grows_attempt_rest W fuel timestamp local_filename subdir sA)
      as Hg.
    match type of H with
    | context [match ?m sA with _ => _ end] =>
        change (fst (m sA) <> Diverge -> extends sA (snd (m sA))) in Hg;
        destruct (m sA) as [[a|e|] s1]
    end; cbn [fst snd] in Hg.
    + injection H as _ <-. destruct Hg as [more Hm]; [discriminate|].
      exists more. rewrite Hm, Hw, <- app_assoc. reflexivity.
    + injection H as _ <-. destruct Hg as [more Hm]; [discriminate|].
      exists more. rewrite Hm, Hw, <- app_assoc. reflexivity.
    + discriminate.
  - injection H as _ <-. exists []. exact Hw.
  - discriminate.
Qed.

(** C6.  Over a candidate list of N directories:
    - when for each of the first N-1 the store and the barrier succeed and
      the listing check runs and reports the file absent, exactly the
      store, barrier and listing commands of those candidates have been
      sent, in order, the N-th candidate is then tried (its store command
      comes next), and the operation ends as that round ends: with the
      local path and the remote path of the N-th candidate if its transfer
      succeeds, with (None, None) and the last error on the console
      otherwise;
    - in general, the first round that returns ends the operation with
      its local and remote path, and no later candidate is tried;
    - when no round returns, the result is (None, None) and the console
      shows the last error a round fell through with;
    - [capture_screen] runs this loop over its five fixed candidates. *)
Theorem capture_screen_fallback_chain :
  forall (W : World) fuel timestamp local_filename,
    (forall pre subdir desc s s1 it s2,
        sa s <> None ->
        all_listed_absent W timestamp pre s s1 ->
        attempt W fuel timestamp local_filename subdir s1 = (Ret it, s2) ->
        sent_of s1 =
        sent_of s ++ flat_map (skip_commands timestamp) (map fst pre) /\
        (exists more,
            sent_of s2 =
            sent_of s1 ++ STOR (remote_path_of timestamp subdir) :: more) /\
        capture_loop W fuel timestamp local_filename
          (pre ++ [(subdir, desc)]) None s =
        match it with
        | Returned _ _ =>
            (Ret (Some local_filename,
                  Some (remote_path_of timestamp subdir)), s2)
        | Continued =>
            (Ret (None, None),
             with_console s2 (console s2 ++ [AllAttemptsFailed None]))
        | FellThrough e =>
            (Ret (None, None),
             with_console s2 (console s2 ++ [AllAttemptsFailed (Some e)]))
        end) /\
    (forall pre subdir desc post last_error s last_error1 s1 l r s2,
        failing_run W fuel timestamp local_filename pre last_error s
          last_error1 s1 ->
        attempt W fuel timestamp local_filename subdir s1 =
          (Ret (Returned l r), s2) ->
        capture_loop W fuel timestamp local_filename
          (pre ++ (subdir, desc) :: post) last_error s =
        (Ret (Some local_filename, Some (remote_path_of timestamp subdir)),
         s2)) /\
    (forall candidates last_error s last_error' s',
        failing_run W fuel timestamp local_filename candidates last_error s
          last_error' s' ->
        capture_loop W fuel timestamp local_filename candidates last_error s =
        (Ret (None, None),
         with_console s' (console s' ++ [AllAttemptsFailed last_error']))) /\
    (forall s r,
        sa s = Some r ->
        capture_screen W fuel timestamp (Some local_filename) s =
        capture_loop W fuel timestamp local_filename attempts None s /\
        capture_screen W fuel timestamp None s =
        capture_loop W fuel timestamp
          ("screenshot_" ++ timestamp ++ ".png")%string attempts None s) /\
    List.length attempts = 5%nat.
Proof.
  intros W fuel timestamp local_filename.
  assert (Hfirst :
    forall pre subdir desc post last_error s last_error1 s1 l r s2,
      failing_run W fuel timestamp local_filename pre last_error s
        last_error1 s1 ->
      attempt W fuel timestamp local_filename subdir s1 =
        (Ret (Returned l r), s2) ->
      capture_loop W fuel timestamp local_filename
        (pre ++ (subdir, desc) :: post) last_error s =
      (Ret (Some local_filename, Some (remote_path_of timestamp subdir)),
       s2)).
  { intros pre subdir desc post last_error s last_error1 s1 l r s2 Hrun Hok.
    destruct (attempt_returned W fuel timestamp local_filename subdir
                _ _ _ Hok l r eq_refl) as [-> ->].
    eapply capture_loop_first_success; eassumption. }
  split; [|split; [exact Hfirst|split; [|split; [|reflexivity]]]].
  - intros pre subdir desc s s1 it s2 Hc Habs Hit.
    destruct (all_listed_absent_sent _ _ _ _ _ Habs) as [Hc1 Hsent].
    split; [exact Hsent|].
    split; [eapply attempt_sends_store; [auto|exact Hit]|].
    pose proof (all_listed_absent_run W fuel timestamp local_filename pre
                  None s s1 Habs) as Hrun.
    destruct it as [l r| |e].
    + eapply Hfirst; eassumption.
    + apply capture_loop_all_fail.
      eapply failing_run_app; [exact Hrun|].
      eapply run_continued; [exact Hit|constructor].
    + apply capture_loop_all_fail.
      eapply failing_run_app; [exact Hrun|].
      eapply run_fell_through; [exact Hit|constructor].
  - apply capture_loop_all_fail.
  - intros [addr ct osa con] r Hsa. simpl in Hsa. subst osa.
    split; reflexivity.
Qed.


Lemma skip_round_sound W timestamp subdir s s' :
  skip_round W timestamp subdir s = Some s' ->
  listed_absent W timestamp subdir s s'.
Proof.
  unfold skip_round, listed_absent.
  destruct (write W (STOR (remote_path_of timestamp subdir)) s)
    as [[[]|e|] sA] eqn:E1; try discriminate.
  destruct (wait_for_opc W sA) as [[[]|e|] sB] eqn:E2; try discriminate.
  destruct (query W (CAT subdir) sB) as [[cat|e|] s1] eqn:E3;
    try discriminate.
  destruct (contains cat (remote_name_of timestamp)) eqn:E4;
    [discriminate|].
  intros H. injection H as <-. exists sA, sB, cat. auto.
Qed.

Lemma skip_rounds_sound W timestamp candidates :
  forall s s',
    skip_rounds W timestamp candidates s = Some s' ->
    all_listed_absent W timestamp candidates s s'.
Proof.
  induction candidates as [|[subdir desc] rest IH]; intros s s'; simpl.
  - intros H. injection H as <-. reflexivity.
  - destruct (skip_round W timestamp subdir s) as [s1|] eqn:E;
      [|discriminate].
    intros H. exists s1. split; [apply skip_round_sound; exact E|].
    apply IH. exact H.
Qed.

Lemma capture_screen_fallback_chain_witness :
  fst (capture_screen
         (shot_bench "20240101_120000" "C:\\"
            [x23; x31; x33; x50; x4e; x47] [2; 1; 1; 1]%nat (fun _ => None))
         20 "20240101_120000" None (connected [] [])) =
  Ret (Some "screenshot_20240101_120000.png"%string,
       Some "C:\\\Screenshot_20240101_120000.PNG"%string).
Proof.
  set (W := shot_bench "20240101_120000" "C:\\"
              [x23; x31; x33; x50; x4e; x47] [2; 1; 1; 1]%nat
              (fun _ => None)).
  destruct (capture_screen_fallback_chain W 20 "20240101_120000"
              "screenshot_20240101_120000.png")
    as [Hscenario [_ [_ [Hcs _]]]].
  rewrite (proj2 (Hcs (connected [] []) _ eq_refl)).
  pose (s1 := match skip_rounds W "20240101_120000" (firstn 4 attempts)
                      (connected [] []) with
              | Some s => s
              | None => disconnected
              end).
  assert (Habs : all_listed_absent W "20240101_120000" (firstn 4 attempts)
                   (connected [] []) s1)
    by (apply skip_rounds_sound; vm_compute; reflexivity).
  assert (Hit : attempt W 20 "20240101_120000"
                  "screenshot_20240101_120000.png" "C:\\" s1 =
                (Ret (Returned "screenshot_20240101_120000.png"
                        "C:\\\Screenshot_20240101_120000.PNG"),
                 snd (attempt W 20 "20240101_120000"
                        "screenshot_20240101_120000.png" "C:\\" s1)))
    by (vm_compute; reflexivity).
  destruct (Hscenario (firstn 4 attempts) "C:\\"%string
              "root C drive"%string (connected [] []) s1 _ _
              ltac:(discriminate) Habs Hit) as [_ [_ Hloop]].
  exact (f_equal fst Hloop).
Defined.

(** * Further properties *)

(** ** IEEE block decoder: what a decode implies, and how it fails *)

Lemma sa_read_bytes_Ret count s chunk s' :
  sa_read_bytes count s = (Ret chunk, s') ->
  exists r,
    sa s = Some r /\
    chunk = firstn (granted count (frag r)) (rx r) /\
    (granted count (frag r) <= List.length (rx r))%nat /\
    s' = with_sa s
           (Some (with_rx r (skipn (granted count (frag r)) (rx r))
                    (tl (frag r)))).
Proof.
  unfold sa_read_bytes, granted. destruct (sa s) as [r|]; [|discriminate].
  destruct (Nat.ltb_spec (List.length (rx r))
              (Z.to_nat match frag r with
                        | [] => count
                        | k :: _ => Z.min count (Z.of_nat k)
                        end)) as [Hlt|Hge]; [discriminate|].
  intros H. injection H as <- <-. exists r. auto.
Qed.

(** Whatever the loop returns is what it was given plus exactly
    [remaining] bytes, taken in order from the front of the queue. *)
Lemma read_payload_sound fuel :
  forall data remaining s out s' r,
    sa s = Some r ->
    read_payload fuel data remaining s = (Ret out, s') ->
    exists got r',
      out = data ++ got /\
      Z.of_nat (List.length got) = remaining /\
      sa s' = Some r' /\
      rx r = got ++ rx r'.
Proof.
  induction fuel as [|fuel IH]; intros data remaining s out s' r Hsa Hrun.
  - simpl in Hrun. destruct (Z.eqb_spec remaining 0) as [E|E];
      [|discriminate].
    injection Hrun as <- <-. exists [], r. rewrite app_nil_r. auto.
  - destruct (Z.eq_dec remaining 0) as [E|E].
    + subst remaining. rewrite read_payload_done in Hrun.
      injection Hrun as <- <-. exists [], r. rewrite app_nil_r. auto.
    + rewrite (read_payload_step _ _ _ _ E) in Hrun. unfold bind in Hrun.
      destruct (sa_read_bytes (Z.min 1048576 remaining) s)
        as [[chunk|e|] s1] eqn:Hread; try discriminate.
      destruct (sa_read_bytes_Ret _ _ _ _ Hread)
        as [r0 [Hsa0 [Hchunk [Hle Hs1]]]].
      rewrite Hsa in Hsa0. injection Hsa0 as <-.
      set (n := granted (Z.min 1048576 remaining) (frag r)) in *.
      assert (Hsa1 : sa s1 = Some (with_rx r (skipn n (rx r)) (tl (frag r))))
        by (subst s1; reflexivity).
      destruct (IH _ _ _ _ _ _ Hsa1 Hrun) as [got [r' [Hout [Hlen [Hs' Hrx]]]]].
      exists (chunk ++ got), r'.
      split; [rewrite Hout, app_assoc; reflexivity|].
      split; [rewrite length_app; lia|].
      split; [exact Hs'|].
      cbn [rx with_rx] in Hrx.
      rewrite <- app_assoc, <- Hrx, Hchunk. symmetry. apply firstn_skipn.
Qed.

(** X1.  Whenever [_read_ieee_block] returns, on any transport, it has
    consumed from the front of the receive queue exactly one block: the
    marker, a digit, the length field it read, and a payload whose length
    is what [int] made of that field; the bytes behind the block are left
    in the queue. *)
Theorem read_ieee_block_sound :
  forall (W : World) fuel s r data s',
    sa s = Some r ->
    _read_ieee_block W fuel s = (Ret data, s') ->
    exists b1 len_str r',
      rx r = x23 :: b1 :: len_str ++ data ++ rx r' /\
      sa s' = Some r' /\
      digit_value b1 <> None /\
      py_int_decode W len_str = inr (Z.of_nat (List.length data)).
Proof.
  intros W fuel s r data s' Hsa Hrun.
  unfold _read_ieee_block in Hrun. unfold bind at 1 in Hrun.
  destruct (sa_read_bytes 2 s) as [[hdr|e|] s1] eqn:Hread; try discriminate.
  destruct (sa_read_bytes_Ret _ _ _ _ Hread) as [r0 [Hsa0 [Hhdr [Hle Hs1]]]].
  rewrite Hsa in Hsa0. injection Hsa0 as <-.
  assert (Hn : (granted 2 (frag r) <= 2)%nat)
    by (unfold granted; destruct (frag r); lia).
  set (n := granted 2 (frag r)) in *.
  destruct hdr as [|b0 [|b1 hdr']]; try discriminate.
  - destruct (negb (Byte.eqb b0 x23)); discriminate.
  - destruct (Byte.eqb b0 x23) eqn:Eb0; [|discriminate].
    apply byte_dec_bl in Eb0. subst b0. cbn [negb] in Hrun.
    destruct (digit_value b1) as [n_digits|] eqn:Hdig; [|discriminate].
    assert (Hlen2 : List.length (x23 :: b1 :: hdr') = n).
    { rewrite Hhdr, length_firstn. lia. }
    assert (hdr' = []) by (destruct hdr'; [reflexivity|simpl in Hlen2; lia]).
    subst hdr'. simpl in Hlen2.
    unfold bind at 1 in Hrun.
    destruct (sa_read_bytes n_digits s1) as [[len_str|e|] s2] eqn:Hread2;
      try discriminate.
    destruct (sa_read_bytes_Ret _ _ _ _ Hread2)
      as [r1 [Hsa1 [Hls [Hle1 Hs2]]]].
    assert (Hr1 : r1 = with_rx r (skipn n (rx r)) (tl (frag r))).
    { subst s1. cbn [sa with_sa] in Hsa1. injection Hsa1 as <-.
      reflexivity. }
    destruct (py_int_decode W len_str) as [e|total] eqn:Hint;
      [discriminate|].
    assert (Hsa2 : sa s2 =
              Some (with_rx r1 (skipn (granted n_digits (frag r1)) (rx r1))
                      (tl (frag r1))))
      by (subst s2; reflexivity).
    destruct (read_payload_sound _ _ _ _ _ _ _ Hsa2 Hrun)
      as [got [r' [Hout [Hlen [Hs' Hrx]]]]].
    simpl in Hout. subst got.
    exists b1, len_str, r'.
    split; [|split; [exact Hs'|split; [congruence|]]].
    + cbn [rx with_rx] in Hrx.
      rewrite <- (firstn_skipn n (rx r)), <- Hhdr. cbn [app].
      do 2 f_equal.
      rewrite <- Hrx, Hls. subst r1. cbn [rx with_rx frag].
      symmetry. apply firstn_skipn.
    + rewrite Hlen. exact Hint.
Qed.

Lemma read_ieee_block_sound_witness :
  exists b1 len_str r',
    [x23; x31; x32; x4f; x4b; x0a] = x23 :: b1 :: len_str ++ [x4f; x4b]
                                        ++ rx r' /\
    digit_value b1 <> None /\
    py_int_decode (quiet EmptyString) len_str = inr 2.
Proof.
  destruct (read_ieee_block_sound (quiet EmptyString) 20
              (connected [x23; x31; x32; x4f; x4b; x0a] [2; 5; 1]%nat)
              _ [x4f; x4b] _ eq_refl eq_refl)
    as [b1 [len_str [r' [Hrx [_ [Hdig Hint]]]]]].
  exists b1, len_str, r'. auto.
Defined.

Lemma sa_read_bytes_starved count addr ct tmo ch se q sched con :
  (List.length q < granted count sched)%nat ->
  fst (sa_read_bytes count
         (mkAnalyzer addr ct (Some (mkResource tmo ch se q sched)) con)) =
  Raise (VisaIOError VI_ERROR_TMO).
Proof.
  intros H. unfold sa_read_bytes, granted in *. cbn [sa frag rx].
  destruct (Nat.ltb_spec (List.length q)
              (Z.to_nat match sched with
                        | [] => count
                        | k :: _ => Z.min count (Z.of_nat k)
                        end)) as [Hlt|Hge]; [reflexivity|lia].
Qed.

(** With fewer bytes queued than are still due, the loop ends in the
    timeout of the transport, however the reads are fragmented. *)
Lemma read_payload_starved fuel :
  forall sched data q remaining addr ct tmo ch se con,
    Z.of_nat (List.length q) < remaining ->
    (List.length sched + List.length q < fuel)%nat ->
    fst (read_payload fuel data remaining
           (mkAnalyzer addr ct (Some (mkResource tmo ch se q sched)) con)) =
    Raise (VisaIOError VI_ERROR_TMO).
Proof.
  induction fuel as [|fuel IH];
    intros sched data q remaining addr ct tmo ch se con Hlt Hf; [lia|].
  assert (Hne : remaining <> 0) by lia.
  rewrite (read_payload_step _ _ _ _ Hne). unfold bind.
  set (n := granted (Z.min 1048576 remaining) sched).
  destruct (Nat.lt_ge_cases (List.length q) n) as [Hshort|Hok].
  - pose proof (sa_read_bytes_starved (Z.min 1048576 remaining)
                  addr ct tmo ch se q sched con Hshort) as Hs.
    destruct (sa_read_bytes _ _) as [[c|e|] s1]; simpl in Hs;
      try discriminate.
    exact Hs.
  - rewrite sa_read_bytes_enough by exact Hok. fold n.
    rewrite length_firstn, Nat.min_l by exact Hok.
    apply IH.
    + rewrite length_skipn. lia.
    + rewrite length_skipn. destruct sched as [|k sched0].
      * assert (0 < n)%nat by (unfold n, granted; lia). simpl in *. lia.
      * simpl in *. lia.
Qed.

(** X2.  A block whose header is well formed and declares more bytes than
    the instrument ever sends is not returned short: once the queue runs
    dry the decoder raises the timeout of the transport, whatever the
    fragmentation of the payload reads. *)
Theorem read_ieee_block_truncated :
  forall (W : World) fuel s r b1 len_str q c1 c2 sched L,
    sa s = Some r ->
    rx r = x23 :: b1 :: len_str ++ q ->
    digit_value b1 = Some (Z.of_nat (List.length len_str)) ->
    py_int_decode W len_str = inr L ->
    Z.of_nat (List.length q) < L ->
    frag r = c1 :: c2 :: sched ->
    (2 <= c1)%nat ->
    (List.length len_str <= c2)%nat ->
    (List.length sched + List.length q < fuel)%nat ->
    fst (_read_ieee_block W fuel s) = Raise (VisaIOError VI_ERROR_TMO).
Proof.
  intros W fuel [addr ct osa con] [tmo ch se q0 fr] b1 len_str q c1 c2 sched
    L Hsa Hrx Hdig Hint HL Hfrag Hc1 Hc2 Hfuel.
  simpl in Hsa, Hrx, Hfrag. subst osa q0 fr.
  unfold _read_ieee_block, bind.
  rewrite sa_read_bytes_enough;
    rewrite (granted_full 2 c1) by (simpl; lia);
    [|simpl; lia].
  change (Z.to_nat 2) with 2%nat. cbn [firstn skipn tl].
  change (negb (Byte.eqb x23 x23)) with false. cbn iota.
  rewrite Hdig.
  rewrite sa_read_bytes_enough;
    rewrite (granted_full _ c2) by lia;
    rewrite Nat2Z.id;
    [|rewrite length_app; lia].
  rewrite firstn_app, skipn_app, Nat.sub_diag, firstn_all, skipn_all.
  cbn [firstn skipn tl app]. rewrite app_nil_r.
  rewrite Hint.
  apply read_payload_starved; assumption.
Qed.

Lemma read_ieee_block_truncated_witness :
  fst (_read_ieee_block (quiet EmptyString) 20
         (connected [x23; x31; x35; x68; x65; x6c] [2; 1; 2; 0; 1]%nat)) =
  Raise (VisaIOError VI_ERROR_TMO).
Proof.
  eapply (read_ieee_block_truncated (quiet EmptyString) 20
            (connected [x23; x31; x35; x68; x65; x6c] [2; 1; 2; 0; 1]%nat)
            _ x31 [x35] [x68; x65; x6c] 2 1 [2; 0; 1]%nat 5);
    try reflexivity; simpl; lia.
Defined.

(** A negative count obtains no bytes and always succeeds. *)
Lemma read_payload_negative fuel :
  forall data remaining s r,
    sa s = Some r ->
    remaining < 0 ->
    fst (read_payload fuel data remaining s) = Diverge.
Proof.
  induction fuel as [|fuel IH]; intros data remaining s r Hsa Hneg.
  - simpl. destruct (Z.eqb_spec remaining 0); [lia|reflexivity].
  - assert (Hne : remaining <> 0) by lia.
    rewrite (read_payload_step _ _ _ _ Hne). unfold bind.
    destruct s as [addr ct osa con]. simpl in Hsa. subst osa.
    destruct r as [tmo ch se q fr].
    assert (Hg : granted (Z.min 1048576 remaining) fr = 0%nat)
      by (unfold granted; destruct fr; lia).
    rewrite sa_read_bytes_enough by (rewrite Hg; lia).
    rewrite Hg. cbn [firstn skipn List.length].
    replace (remaining - Z.of_nat 0) with remaining by lia.
    eapply IH; [reflexivity|exact Hneg].
Qed.

(** X3.  A well-formed header whose length field [int] reads as a negative
    number makes the decoder spin: [remaining] is never zero and every
    read of a negative count returns nothing, so no number of iterations
    ends the loop, with a result or with a fault. *)
Theorem read_ieee_block_negative_length :
  forall (W : World) fuel s r b1 len_str q c1 c2 sched L,
    sa s = Some r ->
    rx r = x23 :: b1 :: len_str ++ q ->
    digit_value b1 = Some (Z.of_nat (List.length len_str)) ->
    py_int_decode W len_str = inr L ->
    L < 0 ->
    frag r = c1 :: c2 :: sched ->
    (2 <= c1)%nat ->
    (List.length len_str <= c2)%nat ->
    fst (_read_ieee_block W fuel s) = Diverge.
Proof.
  intros W fuel [addr ct osa con] [tmo ch se q0 fr] b1 len_str q c1 c2 sched
    L Hsa Hrx Hdig Hint HL Hfrag Hc1 Hc2.
  simpl in Hsa, Hrx, Hfrag. subst osa q0 fr.
  unfold _read_ieee_block, bind.
  rewrite sa_read_bytes_enough;
    rewrite (granted_full 2 c1) by (simpl; lia);
    [|simpl; lia].
  change (Z.to_nat 2) with 2%nat. cbn [firstn skipn tl].
  change (negb (Byte.eqb x23 x23)) with false. cbn iota.
  rewrite Hdig.
  rewrite sa_read_bytes_enough;
    rewrite (granted_full _ c2) by lia;
    rewrite Nat2Z.id;
    [|rewrite length_app; lia].
  rewrite firstn_app, skipn_app, Nat.sub_diag, firstn_all, skipn_all.
  cbn [firstn skipn tl app]. rewrite app_nil_r.
  rewrite Hint.
  eapply read_payload_negative; [reflexivity|exact HL].
Qed.

Lemma read_ieee_block_negative_length_witness :
  fst (_read_ieee_block signed_bench 1000
         (connected [x23; x32; x2d; x35; x68; x65] [2; 2; 1]%nat)) = Diverge.
Proof.
  eapply (read_ieee_block_negative_length signed_bench 1000
            (connected [x23; x32; x2d; x35; x68; x65] [2; 2; 1]%nat)
            _ x32 [x2d; x35] [x68; x65] 2 2 [1]%nat (-5));
    try reflexivity; simpl; lia.
Defined.

(** ** The query channel *)

Lemma rstrip_fixed s : rstrip (rstrip s) = rstrip s.
Proof.
  induction s as [|c t IH]; [reflexivity|].
  simpl. destruct (rstrip t) as [|c' t'] eqn:E.
  - destruct (is_space c) eqn:Ec; [reflexivity|]. simpl. rewrite Ec.
    reflexivity.
  - simpl. simpl in IH. rewrite IH. reflexivity.
Qed.

Lemma lstrip_head s c t : lstrip s = String c t -> is_space c = false.
Proof.
  induction s as [|c0 t0 IH]; simpl; [discriminate|].
  destruct (is_space c0) eqn:E; [exact IH|].
  intros H. injection H as <- _. exact E.
Qed.

Lemma rstrip_head c t :
  is_space c = false -> exists t', rstrip (String c t) = String c t'.
Proof.
  intros Hc. simpl. destruct (rstrip t) as [|c' t'].
  - rewrite Hc. eexists. reflexivity.
  - eexists. reflexivity.
Qed.

Lemma lstrip_fixed c t : is_space c = false -> lstrip (String c t) = String c t.
Proof. intros Hc. simpl. rewrite Hc. reflexivity. Qed.

Lemma rstrip_last s t c :
  rstrip s = (t ++ String c EmptyString)%string -> is_space c = false.
Proof.
  revert t. induction s as [|c0 t0 IH]; intros t; simpl.
  - destruct t; discriminate.
  - destruct (rstrip t0) as [|c1 t1] eqn:E.
    + destruct (is_space c0) eqn:Ec.
      * destruct t; discriminate.
      * destruct t as [|a [|b t']]; simpl; intros H; try discriminate.
        injection H as <-. exact Ec.
    + destruct t as [|a t']; simpl; intros H.
      * discriminate.
      * injection H as _ H. apply (IH t'). exact H.
Qed.

Lemma strip_fixed s : strip (strip s) = strip s.
Proof.
  unfold strip. destruct (lstrip s) as [|c t] eqn:E; [reflexivity|].
  pose proof (lstrip_head _ _ _ E) as Hc.
  destruct (rstrip_head c t Hc) as [t' Ht'].
  rewrite Ht', (lstrip_fixed _ _ Hc), <- Ht'. apply rstrip_fixed.
Qed.

(** X4.  What [query] returns, and with it every getter, is trimmed: it
    neither begins nor ends with a white-space character, and stripping it
    again changes nothing. *)
Theorem query_reply_is_trimmed :
  forall (W : World) cmd s v s',
    query W cmd s = (Ret v, s') ->
    strip v = v /\
    (forall c t, v = String c t -> is_space c = false) /\
    (forall t c, v = (t ++ String c EmptyString)%string ->
                 is_space c = false).
Proof.
  intros W cmd s v s' H.
  destruct (query_Ret_inv _ _ _ _ _ H) as [r [_ [_ [reply [_ ->]]]]].
  split; [apply strip_fixed|]. split.
  - intros c t E. unfold strip in E.
    destruct (lstrip reply) as [|c0 t0] eqn:El; [discriminate|].
    pose proof (lstrip_head _ _ _ El) as Hc0.
    destruct (rstrip_head c0 t0 Hc0) as [t' Ht']. rewrite Ht' in E.
    injection E as <- _. exact Hc0.
  - intros t c E. unfold strip in E. eapply rstrip_last. exact E.
Qed.

Lemma query_reply_is_trimmed_witness :
  strip "-42.5"%string = "-42.5"%string.
Proof.
  eapply (proj1 (query_reply_is_trimmed flaky_bpow [Lit "CALC:MARK1:Y?"]
                   (connected [] []) "-42.5"%string _ eq_refl)).
Defined.

(** ** Settings across the other operations *)

Lemma terminates_raise {A} e : terminates (@raise A e).
Proof. intros s. discriminate. Qed.

Lemma terminates_require_connected : terminates require_connected.
Proof. intros s. unfold require_connected. destruct (sa s); discriminate. Qed.

Lemma terminates_wait_for_opc W : terminates (wait_for_opc W).
Proof.
  unfold wait_for_opc.
  apply terminates_bind; [apply terminates_query|intros; apply terminates_ret].
Qed.

Lemma terminates_query_binary_values W cmd :
  terminates (query_binary_values W cmd).
Proof.
  apply terminates_on_sa. intros r. unfold sa_query_binary_values.
  destruct (on_values W r cmd); discriminate.
Qed.

Lemma restores_query_binary_values W cmd :
  restores (query_binary_values W cmd).
Proof.
  apply restores_on_sa. intros r. unfold sa_query_binary_values.
  destruct (on_values W r cmd); split; reflexivity.
Qed.

Lemma terminates_float_of W text : terminates (float_of W text).
Proof.
  unfold float_of. destruct (py_float W text);
    [apply terminates_ret|apply terminates_raise].
Qed.

Lemma restores_float_of W text : restores (float_of W text).
Proof.
  unfold float_of. destruct (py_float W text);
    [apply restores_ret|apply restores_raise].
Qed.

Lemma terminates_float_or W text d : terminates (float_or W text d).
Proof.
  destruct text; [apply terminates_ret|apply terminates_float_of].
Qed.

Lemma restores_float_or W text d : restores (float_or W text d).
Proof.
  destruct text; [apply restores_ret|apply restores_float_of].
Qed.

Lemma terminates_lift {A} (r : exn + A) : terminates (lift r).
Proof. destruct r; [apply terminates_raise|apply terminates_ret]. Qed.

Lemma restores_lift {A} (r : exn + A) : restores (lift r).
Proof. destruct r; [apply restores_raise|apply restores_ret]. Qed.

#[local] Hint Resolve terminates_raise terminates_require_connected
  terminates_wait_for_opc terminates_query_binary_values
  restores_query_binary_values terminates_float_of restores_float_of
  terminates_float_or restores_float_or terminates_lift restores_lift
  : frame.

Lemma keeps_settings_intro {A} (m : M A) :
  restores m -> terminates m -> keeps_settings m.
Proof.
  intros Hr Ht s. split; [apply Ht|]. apply Hr, Ht.
Qed.

Lemma fetch_trace_frame W trace_name :
  restores (fetch_trace W trace_name) /\
  terminates (fetch_trace W trace_name).
Proof.
  unfold fetch_trace, get_center_frequency, get_span. split.
  - frame_tac.
    match goal with |- restores (if ?b then _ else _) => destruct b end;
      frame_tac.
  - frame_tac.
    match goal with |- terminates (if ?b then _ else _) => destruct b end;
      frame_tac.
Qed.

(** X5.  Apart from band power and the screenshot transfer, no operation
    of the class touches the timeout or the chunk size of the session:
    every setter and getter, both peak searches, the occupied-bandwidth
    measurement, the trace fetch and the file removal come back, with or
    without a fault, and leave both settings as they found them. *)
Theorem operations_keep_settings :
  forall (W : World),
    (forall x, keeps_settings (set_center_frequency W x)) /\
    keeps_settings (get_center_frequency W) /\
    (forall x, keeps_settings (set_span W x)) /\
    keeps_settings (get_span W) /\
    (forall x, keeps_settings (set_rbw W x)) /\
    keeps_settings (get_rbw W) /\
    (forall x, keeps_settings (set_ref_level W x)) /\
    keeps_settings (get_ref_level W) /\
    keeps_settings (set_trace_average W) /\
    keeps_settings (set_sanalyzer W) /\
    keeps_settings (get_current_high_peak W) /\
    keeps_settings (get_current_low_peak W) /\
    (forall sr sf ro, keeps_settings (read_obwidth W sr sf ro)) /\
    (forall name, keeps_settings (fetch_trace W name)) /\
    (forall path, keeps_settings (delete_remote_file W path)).
Proof.
  intros W.
  repeat match goal with |- _ /\ _ => split end; intros;
    apply keeps_settings_intro;
    first [ apply fetch_trace_frame
          | unfold set_center_frequency, get_center_frequency, set_span,
              get_span, set_rbw, get_rbw, set_ref_level, get_ref_level,
              set_trace_average, set_sanalyzer, get_current_high_peak,
              get_current_low_peak, read_obwidth, delete_remote_file;
            frame_tac ].
Qed.

(** ** File removal *)

Lemma wait_for_opc_Raise_or_Ret W s :
  (exists s1, wait_for_opc W s = (Ret tt, s1)) \/
  (exists e s1, wait_for_opc W s = (Raise e, s1)).
Proof.
  pose proof (terminates_wait_for_opc W s) as Ht.
  destruct (wait_for_opc W s) as [[[]|e|] s1]; simpl in Ht;
    [left; eauto | right; eauto | contradiction].
Qed.

(** X6.  [delete_remote_file] never raises.  It returns [True] exactly
    when the delete command and the barrier that follows it both go
    through, and then these two commands are all it has sent; in every
    other case, a missing session included, it returns [False]. *)
Theorem delete_remote_file_reports :
  forall (W : World) remote_path s,
    (exists b, fst (delete_remote_file W remote_path s) = Ret b) /\
    (fst (delete_remote_file W remote_path s) = Ret true <->
     exists s1 s2,
       write W (DEL remote_path) s = (Ret tt, s1) /\
       wait_for_opc W s1 = (Ret tt, s2)) /\
    (fst (delete_remote_file W remote_path s) = Ret true ->
     sent_of (snd (delete_remote_file W remote_path s)) =
     sent_of s ++ [DEL remote_path; [Lit "*OPC?"]]) /\
    (sa s = None ->
     delete_remote_file W remote_path s = (Ret false, s)).
Proof.
  intros W remote_path s.
  assert (Hcases :
    (exists s1 s2,
        write W (DEL remote_path) s = (Ret tt, s1) /\
        wait_for_opc W s1 = (Ret tt, s2) /\
        delete_remote_file W remote_path s = (Ret true, s2)) \/
    ((exists s', delete_remote_file W remote_path s = (Ret false, s')) /\
     ~ (exists s1 s2,
           write W (DEL remote_path) s = (Ret tt, s1) /\
           wait_for_opc W s1 = (Ret tt, s2)))).
  { pose proof (terminates_write W (DEL remote_path) s) as Htw.
    destruct (write W (DEL remote_path) s) as [[[]|e|] s1] eqn:Hw;
      simpl in Htw; [| |contradiction].
    - destruct (wait_for_opc_Raise_or_Ret W s1) as [[s2 Ho]|[e [s2 Ho]]].
      + left. exists s1, s2. split; [reflexivity|]. split; [exact Ho|].
        unfold delete_remote_file. apply try_except_Ret.
        rewrite (bind_Ret _ _ _ _ _ Hw), (bind_Ret _ _ _ _ _ Ho).
        reflexivity.
      + right. split.
        * exists s2. unfold delete_remote_file.
          erewrite try_except_Raise; [reflexivity|].
          rewrite (bind_Ret _ _ _ _ _ Hw). apply bind_Raise. exact Ho.
        * intros [s1' [s2' [H1 H2]]]. injection H1 as <-.
          rewrite Ho in H2. discriminate.
    - right. split.
      + exists s1. unfold delete_remote_file.
        erewrite try_except_Raise; [reflexivity|].
        apply bind_Raise. exact Hw.
      + intros [s1' [s2' [H1 _]]]. discriminate. }
  split; [|split; [|split]].
  - destruct Hcases as [[s1 [s2 [_ [_ H]]]]|[[s' H] _]]; rewrite H;
      eexists; reflexivity.
  - destruct Hcases as [[s1 [s2 [H1 [H2 H]]]]|[[s' H] Hno]]; rewrite H;
      simpl; split; intros H0; try discriminate; eauto.
    contradiction.
  - destruct Hcases as [[s1 [s2 [H1 [H2 H]]]]|[[s' H] Hno]]; rewrite H;
      simpl; intros H0; [|discriminate].
    rewrite (wait_for_opc_Ret_sent _ _ _ H2).
    destruct (write_Ret_inv _ _ _ _ H1) as [_ ->].
    rewrite <- app_assoc. reflexivity.
  - destruct s as [addr ct osa con]. simpl. intros ->. reflexivity.
Qed.

Lemma delete_remote_file_reports_witness :
  sent_of (snd (delete_remote_file (quiet "1") "C:\\temp\shot.PNG"
                  (connected [] []))) =
  [DEL "C:\\temp\shot.PNG"; [Lit "*OPC?"]] /\
  delete_remote_file (quiet "1") "C:\\temp\shot.PNG" disconnected =
  (Ret false, disconnected).
Proof.
  destruct (delete_remote_file_reports (quiet "1") "C:\\temp\shot.PNG"
              (connected [] [])) as [_ [_ [Hsent _]]].
  destruct (delete_remote_file_reports (quiet "1") "C:\\temp\shot.PNG"
              disconnected) as [_ [_ [_ Hnone]]].
  split; [apply Hsent; reflexivity | apply Hnone; reflexivity].
Defined.

(** ** Without a session *)

(** X7.  On an analyzer without a session nothing reaches the transport
    and the object is left as it is: the channel operations, the setters
    and getters, band power, the trace fetch and the screenshot capture
    raise "Analyzer not connected". *)
Theorem disconnected_operations_fail_fast :
  forall (W : World) s,
    sa s = None ->
    (forall cmd, write W cmd s = (Raise NotConnected, s)) /\
    (forall cmd, query W cmd s = (Raise NotConnected, s)) /\
    (forall cmd, query_binary_values W cmd s = (Raise NotConnected, s)) /\
    wait_for_opc W s = (Raise NotConnected, s) /\
    (forall x, set_center_frequency W x s = (Raise NotConnected, s)) /\
    get_center_frequency W s = (Raise NotConnected, s) /\
    (forall x, set_span W x s = (Raise NotConnected, s)) /\
    get_span W s = (Raise NotConnected, s) /\
    (forall x, set_rbw W x s = (Raise NotConnected, s)) /\
    get_rbw W s = (Raise NotConnected, s) /\
    (forall x, set_ref_level W x s = (Raise NotConnected, s)) /\
    get_ref_level W s = (Raise NotConnected, s) /\
    set_trace_average W s = (Raise NotConnected, s) /\
    set_sanalyzer W s = (Raise NotConnected, s) /\
    (forall x, get_band_power W x s = (Raise NotConnected, s)) /\
    (forall name, fetch_trace W name s = (Raise NotConnected, s)) /\
    (forall fuel timestamp name,
        capture_screen W fuel timestamp name s = (Raise NotConnected, s)).
Proof.
  intros W [addr ct osa con] Hsa. simpl in Hsa. subst osa.
  repeat match goal with |- _ /\ _ => split end; intros; reflexivity.
Qed.

Lemma disconnected_operations_fail_fast_witness :
  fetch_trace (quiet "1") "TRACE1" disconnected =
  (Raise NotConnected, disconnected) /\
  capture_screen (quiet "1") 20 "20240101_120000" None disconnected =
  (Raise NotConnected, disconnected).
Proof.
  destruct (disconnected_operations_fail_fast (quiet "1") disconnected
              eq_refl)
    as [_ [_ [_ [_ [_ [_ [_ [_ [_ [_ [_ [_ [_ [_ [_ [Hf Hc]]]]]]]]]]]]]]]].
  split; [apply Hf | apply Hc].
Defined.

(** ** Band power under the raised timeout *)

Ltac run_patient W :=
  unfold_ops;
  repeat (match goal with
          | H : forall r c, timeout r = _ ->
                            exists q f, on_write W r c = inr (q, f)
            |- context [on_write W ?r ?c] =>
              let q := fresh "q" in
              let f := fresh "f" in
              let E := fresh "E" in
              destruct (H r c eq_refl) as [q [f E]]; rewrite E; clear E
          | H : forall r c, timeout r = _ -> exists v, on_query W r c = inr v
            |- context [on_query W ?r ?c] =>
              let v := fresh "v" in
              let E := fresh "E" in
              destruct (H r c eq_refl) as [v E]; rewrite E; clear E
          end;
          cbv beta iota zeta).

(** X8.  Every step of a band-power measurement is issued while the
    session timeout is 10000 ms: an instrument that answers only under
    that timeout, whatever the timeout was before, is measured
    successfully, with the seven commands sent in order and the timeout
    back at its old value afterwards. *)
Theorem band_power_runs_under_raised_timeout :
  forall (W : World) band_span_hz s r,
    sa s = Some r ->
    (forall r' c, timeout r' = 10000 ->
                  exists q f, on_write W r' c = inr (q, f)) ->
    (forall r' c, timeout r' = 10000 ->
                  exists v, on_query W r' c = inr v) ->
    exists power r',
      fst (get_band_power W band_span_hz s) = Ret (Some power) /\
      sa (snd (get_band_power W band_span_hz s)) = Some r' /\
      sent r' = sent r ++ band_power_commands band_span_hz /\
      timeout r' = timeout r.
Proof.
  intros W band_span_hz [addr ct osa con] r Hsa Hw Hq.
  simpl in Hsa. subst osa. destruct r as [tmo ch se q0 f0].
  run_patient W.
  eexists _, _. split; [reflexivity|]. split; [reflexivity|].
  split; [|reflexivity].
  cbn [sent]. unfold band_power_commands.
  repeat rewrite <- app_assoc. reflexivity.
Qed.

Lemma band_power_runs_under_raised_timeout_witness :
  exists power r',
    fst (get_band_power (patient_only 10000 " -17.3") (inject_Z 1000000)
           (connected [] [])) = Ret (Some power) /\
    sa (snd (get_band_power (patient_only 10000 " -17.3")
               (inject_Z 1000000) (connected [] []))) = Some r' /\
    sent r' = [] ++ band_power_commands (inject_Z 1000000) /\
    timeout r' = 5000.
Proof.
  eapply (band_power_runs_under_raised_timeout
            (patient_only 10000 " -17.3") (inject_Z 1000000)
            (connected [] []) _ eq_refl).
  - intros r' c Ht. simpl. rewrite Ht. eexists _, _. reflexivity.
  - intros r' c Ht. simpl. rewrite Ht. eexists. reflexivity.
Defined.

(** ** The transfer step, end to end *)

(** The decoder on a well-formed block, with the state it leaves. *)
Lemma read_ieee_block_run W fuel addr ct tmo ch se con b1 len_str payload
  rest c1 c2 sched :
  digit_value b1 = Some (Z.of_nat (List.length len_str)) ->
  py_int_decode W len_str = inr (Z.of_nat (List.length payload)) ->
  (2 <= c1)%nat ->
  (List.length len_str <= c2)%nat ->
  (List.length sched + List.length payload < fuel)%nat ->
  exists sched',
    _read_ieee_block W fuel
      (mkAnalyzer addr ct
         (Some (mkResource tmo ch se
                  (x23 :: b1 :: len_str ++ payload ++ rest)
                  (c1 :: c2 :: sched))) con) =
    (Ret payload,
     mkAnalyzer addr ct (Some (mkResource tmo ch se rest sched')) con).
Proof.
  intros Hdig Hint Hc1 Hc2 Hfuel.
  unfold _read_ieee_block, bind.
  rewrite sa_read_bytes_enough;
    rewrite (granted_full 2 c1) by (simpl; lia);
    [|simpl; lia].
  change (Z.to_nat 2) with 2%nat. cbn [firstn skipn tl].
  change (negb (Byte.eqb x23 x23)) with false. cbn iota.
  rewrite Hdig.
  rewrite sa_read_bytes_enough;
    rewrite (granted_full _ c2) by lia;
    rewrite Nat2Z.id;
    [|rewrite length_app; lia].
  rewrite firstn_app, skipn_app, Nat.sub_diag, firstn_all, skipn_all.
  cbn [firstn skipn tl app]. rewrite app_nil_r.
  rewrite Hint.
  apply (read_payload_complete fuel sched [] payload rest addr ct tmo ch se
           con Hfuel).
Qed.

(** X9.  The transfer step end to end: when the instrument, asked for the
    file under a timeout of 120000 ms and a chunk size of 1048576, queues
    a well-formed block, and the local file can be written with the
    payload of that block, the step returns the local name and the remote
    path, having sent the one request, consumed the block and nothing
    behind it, and put timeout and chunk size back, whatever the
    fragmentation of the payload reads. *)
Theorem transfer_delivers_block :
  forall (W : World) fuel local_filename remote_path s r b1 len_str payload
         rest c1 c2 sched,
    sa s = Some r ->
    on_write W (with_chunk_size (with_timeout r 120000) 1048576)
      (DATA remote_path) =
    inr (x23 :: b1 :: len_str ++ payload ++ rest, c1 :: c2 :: sched) ->
    digit_value b1 = Some (Z.of_nat (List.length len_str)) ->
    py_int_decode W len_str = inr (Z.of_nat (List.length payload)) ->
    (2 <= c1)%nat ->
    (List.length len_str <= c2)%nat ->
    (List.length sched + List.length payload < fuel)%nat ->
    fs_write W local_filename payload = None ->
    exists r',
      transfer W fuel local_filename remote_path s =
      (Ret (Returned local_filename remote_path), with_sa s (Some r')) /\
      sent r' = sent r ++ [DATA remote_path] /\
      rx r' = rest /\
      timeout r' = timeout r /\
      chunk_size r' =
      Some (match chunk_size r with Some c => c | None => 20000 end).
Proof.
  intros W fuel local_filename remote_path [addr ct osa con] r b1 len_str
    payload rest c1 c2 sched Hsa Hw Hdig Hint Hc1 Hc2 Hfuel Hfs.
  simpl in Hsa. subst osa. destruct r as [tmo ch se q0 f0].
  unfold with_chunk_size, with_timeout in Hw.
  cbn [timeout chunk_size sent rx frag] in Hw.
  destruct (read_ieee_block_run W fuel addr ct 120000 (Some 1048576)
              (se ++ [DATA remote_path]) con b1 len_str payload rest c1 c2
              sched Hdig Hint Hc1 Hc2 Hfuel) as [sched' Hrun].
  eexists (mkResource tmo _ (se ++ [DATA remote_path]) rest sched').
  split; [|repeat split].
  cbv beta iota zeta delta
    [transfer bind get_sa set_timeout set_chunk_size try_finally try_except
     write on_sa sa_write write_file ret with_sa with_sent with_rx
     with_timeout with_chunk_size sa resource_address cfg_timeout console
     timeout chunk_size sent rx frag].
  rewrite Hw. cbv beta iota zeta. rewrite Hrun. cbv beta iota zeta.
  rewrite Hfs. reflexivity.
Qed.

Lemma transfer_delivers_block_witness :
  exists r',
    transfer
      (shot_bench "20240101_120000" "C:\\" [x23; x31; x33; x50; x4e; x47]
         [2; 1; 1; 1]%nat (fun _ => None))
      20 "shot.png" (remote_path_of "20240101_120000" "C:\\")
      (connected [] []) =
    (Ret (Returned "shot.png" (remote_path_of "20240101_120000" "C:\\")),
     with_sa (connected [] []) (Some r')) /\
    sent r' = [] ++ [DATA (remote_path_of "20240101_120000" "C:\\")] /\
    rx r' = [] /\
    timeout r' = 5000 /\
    chunk_size r' = Some 20480.
Proof.
  eapply (transfer_delivers_block
            (shot_bench "20240101_120000" "C:\\"
               [x23; x31; x33; x50; x4e; x47] [2; 1; 1; 1]%nat
               (fun _ => None))
            20 "shot.png"%string (remote_path_of "20240101_120000" "C:\\")
            (connected [] []) (mkResource 5000 (Some 20480) [] [] [])
            x31 [x33] [x50; x4e; x47] [] 2 1 [1; 1]%nat);
    try reflexivity; simpl; lia.
Defined.

(** ** Rounds of the screenshot loop *)

Lemma prefix_spec needle :
  forall hay,
    prefix needle hay = true <->
    exists after, hay = (needle ++ after)%string.
Proof.
  induction needle as [|a needle IH]; intros hay.
  - destruct hay; simpl; split; intros _; try reflexivity; eexists;
      reflexivity.
  - destruct hay as [|b hay]; simpl.
    + split; [discriminate|]. intros [after H]. discriminate.
    + destruct (ascii_dec a b) as [->|Hne].
      * rewrite IH. split; intros [after H]; exists after.
        -- rewrite H. reflexivity.
        -- injection H as H. exact H.
      * split; [discriminate|]. intros [after H]. injection H as H _.
        congruence.
Qed.

(** The model of [needle in hay] is the substring test. *)
Lemma contains_spec needle :
  forall hay, contains hay needle = true <-> occurs_in needle hay.
Proof.
  unfold occurs_in. induction hay as [|c hay IH].
  - cbn [contains]. destruct (prefix needle EmptyString) eqn:E.
    + split; [|reflexivity]. intros _.
      apply prefix_spec in E. destruct E as [after E].
      exists EmptyString, after. exact E.
    + split; [discriminate|]. intros [before [after H]].
      destruct before; [|discriminate]. simpl in H.
      assert (prefix needle EmptyString = true)
        by (apply prefix_spec; eauto).
      congruence.
  - cbn [contains]. destruct (prefix needle (String c hay)) eqn:E.
    + split; [|reflexivity]. intros _.
      apply prefix_spec in E. destruct E as [after E].
      exists EmptyString, after. exact E.
    + rewrite IH. split.
      * intros [before [after H]]. exists (String c before), after.
        simpl. rewrite H. reflexivity.
      * intros [before [after H]]. destruct before as [|b before].
        -- simpl in H.
           assert (prefix needle (String c hay) = true)
             by (apply prefix_spec; eauto).
           congruence.
        -- simpl in H. injection H as _ H. eauto.
Qed.

Lemma never_raises_handled {A} (m : M A) (f : exn -> A) :
  never_raises (try_except m (fun e => ret (f e))).
Proof.
  intros s e. unfold try_except.
  destruct (m s) as [[a|e0|] s1]; simpl; discriminate.
Qed.

(** On a connected session the transfer step never raises: its faults
    are caught and the finaliser finds the session in place. *)
Lemma transfer_never_raises W fuel local_filename remote_path s :
  sa s <> None ->
  forall e, fst (transfer W fuel local_filename remote_path s) <> Raise e.
Proof.
  destruct s as [addr ct [r|] con]; [intros _|intros H; contradiction].
  intros e. unfold transfer.
  rewrite (bind_Ret _ _ _ _ _ (get_sa_connected addr ct r con)).
  rewrite (bind_Ret _ _ _ _ _ (set_timeout_connected 120000 addr ct r con)).
  rewrite (bind_Ret _ _ _ _ _
             (set_chunk_size_connected 1048576 addr ct _ con)).
  match goal with
  | |- context [try_finally ?b ?f ?s1] =>
      pose proof (never_raises_handled _ _ s1
                    : forall e', fst (b s1) <> Raise e') as Hnr;
      destruct (fst (b s1)) eqn:Hb;
        [ | exfalso; eapply Hnr; reflexivity |
          unfold try_finally; destruct (b s1) as [o sx]; simpl in Hb;
          subst o; discriminate ];
      destruct (finally_restores b f s1
                  (observed (mkAnalyzer addr ct (Some r) con)))
        as [Ho _]; [frame_tac | rewrite Hb; discriminate | |
                    rewrite Ho, Hb; discriminate]
  end.
  intros s2 Hs2.
  unfold observed, timeout_of, chunk_of in Hs2.
  destruct s2 as [addr2 ct2 [r2|] con2]; [|discriminate].
  rewrite (bind_Ret _ _ _ _ _ (set_timeout_connected _ addr2 ct2 r2 con2)).
  rewrite set_chunk_size_connected. split; reflexivity.
Qed.

Lemma try_except_not_raised {A} (m : M A) h s :
  (forall e, fst (m s) <> Raise e) -> try_except m h s = m s.
Proof.
  intros H. unfold try_except.
  destruct (m s) as [[a|e|] s1]; try reflexivity.
  exfalso. apply (H e). reflexivity.
Qed.

(** A round once the store and the barrier have gone through: it is
    decided by the listing step alone. *)
Lemma attempt_after_barrier W fuel timestamp local_filename subdir s s1 s2
  listed s3 :
  write W (STOR (remote_path_of timestamp subdir)) s = (Ret tt, s1) ->
  wait_for_opc W s1 = (Ret tt, s2) ->
  try_except
    (cat <- query W (CAT subdir) ;;
     ret (contains cat (remote_name_of timestamp)))
    (fun _ => ret true) s2 = (Ret listed, s3) ->
  sa s3 <> None ->
  attempt W fuel timestamp local_filename subdir s =
  if listed
  then transfer W fuel local_filename (remote_path_of timestamp subdir) s3
  else (Ret Continued, s3).
Proof.
  intros H1 H2 H3 Hc. unfold attempt.
  rewrite try_except_not_raised.
  - rewrite (bind_Ret _ _ _ _ _ H1), (bind_Ret _ _ _ _ _ H2),
      (bind_Ret _ _ _ _ _ H3).
    destruct listed; reflexivity.
  - intros e.
    rewrite (bind_Ret _ _ _ _ _ H1), (bind_Ret _ _ _ _ _ H2),
      (bind_Ret _ _ _ _ _ H3).
    destruct listed; [apply transfer_never_raises; exact Hc|discriminate].
Qed.

Lemma transfer_not_continued W fuel local_filename remote_path :
  yields (fun it => it <> Continued)
    (transfer W fuel local_filename remote_path).
Proof.
  unfold transfer.
  do 3 (apply yields_bind; intro).
  apply yields_try_finally.
  apply yields_try_except; [|intros e; apply yields_ret; discriminate].
  do 3 (apply yields_bind; intro).
  apply yields_ret. discriminate.
Qed.

(** X10.  The listing check is a substring test on the trimmed reply.
    Once the store and the barrier have gone through and the listing
    query has answered, the round is skipped exactly when the file name
    does not occur anywhere in the listing; when it occurs, as an entry or
    inside a longer one, the round is the transfer step. *)
Theorem listing_check_is_substring_test :
  forall (W : World) fuel timestamp local_filename subdir s s1 s2 cat s3,
    write W (STOR (remote_path_of timestamp subdir)) s = (Ret tt, s1) ->
    wait_for_opc W s1 = (Ret tt, s2) ->
    query W (CAT subdir) s2 = (Ret cat, s3) ->
    (attempt W fuel timestamp local_filename subdir s = (Ret Continued, s3)
     <-> ~ occurs_in (remote_name_of timestamp) cat) /\
    (occurs_in (remote_name_of timestamp) cat ->
     attempt W fuel timestamp local_filename subdir s =
     transfer W fuel local_filename (remote_path_of timestamp subdir) s3).
Proof.
  intros W fuel timestamp local_filename subdir s s1 s2 cat s3 H1 H2 H3.
  assert (Hc : sa s3 <> None).
  { destruct (query_Ret_inv _ _ _ _ _ H3) as [r [_ [-> _]]]. discriminate. }
  assert (Hl : try_except
                 (cat0 <- query W (CAT subdir) ;;
                  ret (contains cat0 (remote_name_of timestamp)))
                 (fun _ => ret true) s2 =
               (Ret (contains cat (remote_name_of timestamp)), s3)).
  { apply try_except_Ret. rewrite (bind_Ret _ _ _ _ _ H3). reflexivity. }
  pose proof (attempt_after_barrier W fuel timestamp local_filename subdir
                s s1 s2 _ s3 H1 H2 Hl Hc) as Ha.
  pose proof (contains_spec (remote_name_of timestamp) cat) as Hspec.
  destruct (contains cat (remote_name_of timestamp)) eqn:E.
  - split.
    + split.
      * intros Hk. rewrite Ha in Hk.
        exfalso. eapply transfer_not_continued; [exact Hk|reflexivity].
      * intros Hno. exfalso. apply Hno, Hspec. reflexivity.
    + intros _. exact Ha.
  - split.
    + split; [|intros _; exact Ha].
      intros _ Hocc. apply Hspec in Hocc. discriminate.
    + intros Hocc. apply Hspec in Hocc. discriminate.
Qed.

(** X11.  A listing query that fails does not end the round: once the
    store and the barrier have gone through, a fault of the listing query
    is dropped and the round is the transfer step, run without the check
    on the state the failed query left. *)
Theorem listing_failure_proceeds_to_transfer :
  forall (W : World) fuel timestamp local_filename subdir s s1 s2 e s3,
    write W (STOR (remote_path_of timestamp subdir)) s = (Ret tt, s1) ->
    wait_for_opc W s1 = (Ret tt, s2) ->
    query W (CAT subdir) s2 = (Raise e, s3) ->
    attempt W fuel timestamp local_filename subdir s =
    transfer W fuel local_filename (remote_path_of timestamp subdir) s3.
Proof.
  intros W fuel timestamp local_filename subdir s s1 s2 e s3 H1 H2 H3.
  assert (Hc : sa s3 <> None).
  { destruct (wait_for_opc_Raise_or_Ret W s1) as [[sx Ho]|[ex [sx Ho]]];
      rewrite Ho in H2; [|discriminate].
    injection H2 as ->.
    unfold wait_for_opc in Ho. unfold bind at 1 in Ho.
    destruct (query W [Lit "*OPC?"] s1) as [[v|e0|] sy] eqn:Ev;
      try discriminate.
    injection Ho as <-.
    destruct (query_Ret_inv _ _ _ _ _ Ev) as [r [_ [Hsy _]]].
    subst sy. unfold query, bind, on_sa, sa_query in H3.
    cbn [sa with_sa] in H3.
    destruct (on_query W _ (CAT subdir)); [|discriminate].
    injection H3 as _ <-. discriminate. }
  assert (Hl : try_except
                 (cat0 <- query W (CAT subdir) ;;
                  ret (contains cat0 (remote_name_of timestamp)))
                 (fun _ => ret true) s2 = (Ret true, s3)).
  { erewrite try_except_Raise; [reflexivity|]. apply bind_Raise. exact H3. }
  exact (attempt_after_barrier W fuel timestamp local_filename subdir
           s s1 s2 true s3 H1 H2 Hl Hc).
Qed.

Lemma listing_check_is_substring_test_witness :
  fst (attempt
         (shot_bench "20240101_120000" "C:\\" [x23; x31; x33; x50; x4e; x47]
            [2; 1; 1; 1]%nat (fun _ => None))
         20 "20240101_120000" "shot.png" "C:\\" (connected [] [])) =
  Ret (Returned "shot.png" (remote_path_of "20240101_120000" "C:\\")).
Proof.
  set (W := shot_bench "20240101_120000" "C:\\"
              [x23; x31; x33; x50; x4e; x47] [2; 1; 1; 1]%nat
              (fun _ => None)).
  pose (s1 := snd (write W (STOR (remote_path_of "20240101_120000" "C:\\"))
                     (connected [] []))).
  pose (s2 := snd (wait_for_opc W s1)).
  pose (s3 := snd (query W (CAT "C:\\") s2)).
  assert (H1 : write W (STOR (remote_path_of "20240101_120000" "C:\\"))
                 (connected [] []) = (Ret tt, s1)) by reflexivity.
  assert (H2 : wait_for_opc W s1 = (Ret tt, s2)) by reflexivity.
  assert (H3 : query W (CAT "C:\\") s2 =
               (Ret ("OLD.PNG," ++ remote_name_of "20240101_120000")%string,
                s3)) by reflexivity.
  rewrite (proj2 (listing_check_is_substring_test W 20 "20240101_120000"
                    "shot.png" "C:\\" (connected [] []) s1 s2 _ s3
                    H1 H2 H3)).
  - vm_compute. reflexivity.
  - exists "OLD.PNG,"%string, EmptyString. reflexivity.
Defined.

Lemma listing_failure_proceeds_to_transfer_witness :
  fst (attempt (unlisted_bench [x23; x31; x33; x50; x4e; x47] [2; 1]%nat)
         20 "20240101_120000" "shot.png" "C:\\" (connected [] [])) =
  Ret (Returned "shot.png" (remote_path_of "20240101_120000" "C:\\")).
Proof.
  set (W := unlisted_bench [x23; x31; x33; x50; x4e; x47] [2; 1]%nat).
  pose (s1 := snd (write W (STOR (remote_path_of "20240101_120000" "C:\\"))
                     (connected [] []))).
  pose (s2 := snd (wait_for_opc W s1)).
  pose (s3 := snd (query W (CAT "C:\\") s2)).
  assert (H1 : write W (STOR (remote_path_of "20240101_120000" "C:\\"))
                 (connected [] []) = (Ret tt, s1)) by reflexivity.
  assert (H2 : wait_for_opc W s1 = (Ret tt, s2)) by reflexivity.
  assert (H3 : query W (CAT "C:\\") s2 =
               (Raise (VisaIOError VI_ERROR_TMO), s3)) by reflexivity.
  rewrite (listing_failure_proceeds_to_transfer W 20 "20240101_120000"
             "shot.png" "C:\\" (connected [] []) s1 s2 _ s3 H1 H2 H3).
  vm_compute. reflexivity.
Defined.

(** ** The screenshot capture as a whole *)

Lemma yields_bind_with {A B} (Q : A -> Prop) (P : B -> Prop) (m : M A)
  (k : A -> M B) :
  yields Q m -> (forall a, Q a -> yields P (k a)) -> yields P (bind m k).
Proof.
  intros Hm Hk s b s'. unfold bind. specialize (Hm s).
  destruct (m s) as [[a|e|] s1]; [|discriminate|discriminate].
  apply Hk. eapply Hm. reflexivity.
Qed.

Lemma yields_weaken {A} (P Q : A -> Prop) (m : M A) :
  (forall a, P a -> Q a) -> yields P m -> yields Q m.
Proof. intros H Hm s a s' E. apply H. eapply Hm. exact E. Qed.

Lemma capture_loop_shape W fuel timestamp local_filename candidates :
  forall last_error,
    yields
      (fun res =>
         res = (None, None) \/
         exists subdir,
           In subdir (map fst candidates) /\
           res = (Some local_filename,
                  Some (remote_path_of timestamp subdir)))
      (capture_loop W fuel timestamp local_filename candidates last_error).
Proof.
  induction candidates as [|[subdir desc] rest IH]; intros last_error;
    simpl capture_loop.
  - apply yields_bind. intros _. apply yields_ret. left. reflexivity.
  - eapply yields_bind_with; [apply attempt_returned|].
    intros [l r| |e] Hit.
    + apply yields_ret. right. exists subdir.
      destruct (Hit l r eq_refl) as [-> ->]. split; [left|]; reflexivity.
    + eapply yields_weaken; [|apply IH].
      intros res [H|[sd [Hin H]]]; [left; exact H|].
      right. exists sd. split; [right; exact Hin|exact H].
    + eapply yields_weaken; [|apply IH].
      intros res [H|[sd [Hin H]]]; [left; exact H|].
      right. exists sd. split; [right; exact Hin|exact H].
Qed.

Lemma never_raises_bind {A B} (m : M A) (k : A -> M B) :
  never_raises m -> (forall a, never_raises (k a)) -> never_raises (bind m k).
Proof.
  intros Hm Hk s e. unfold bind. specialize (Hm s).
  destruct (m s) as [[a|e0|] s1]; simpl in *.
  - apply Hk.
  - exfalso. apply (Hm e0). reflexivity.
  - discriminate.
Qed.

Lemma never_raises_ret {A} (a : A) : never_raises (ret a).
Proof. intros s e. discriminate. Qed.

Lemma capture_loop_never_raises W fuel timestamp local_filename candidates :
  forall last_error,
    never_raises
      (capture_loop W fuel timestamp local_filename candidates last_error).
Proof.
  induction candidates as [|[subdir desc] rest IH]; intros last_error;
    simpl capture_loop.
  - apply never_raises_bind; [intros s e; discriminate|].
    intros _. apply never_raises_ret.
  - apply never_raises_bind; [apply never_raises_handled|].
    intros [l r| |e]; [apply never_raises_ret|apply IH|apply IH].
Qed.

(** X12.  On a connected session [capture_screen] never raises, whatever
    the instrument and the file system do.  What it returns is either
    (None, None) or a pair of two names: the local file name it was given
    (or the default built from the time stamp) and the remote path, under
    that same time stamp, in one of the five candidate directories; a
    local name without a remote path, or the reverse, does not occur. *)
Theorem capture_screen_result_shape :
  forall (W : World) fuel timestamp local_filename s,
    sa s <> None ->
    (forall e,
        fst (capture_screen W fuel timestamp local_filename s) <> Raise e) /\
    (forall res s',
        capture_screen W fuel timestamp local_filename s = (Ret res, s') ->
        res = (None, None) \/
        exists subdir,
          In subdir (map fst attempts) /\
          res = (Some (match local_filename with
                       | None => ("screenshot_" ++ timestamp ++ ".png")%string
                       | Some name => name
                       end),
                 Some (remote_path_of timestamp subdir))).
Proof.
  intros W fuel timestamp local_filename [addr ct [r|] con] Hc;
    [clear Hc|contradiction].
  unfold capture_screen.
  rewrite (bind_Ret _ _ _ _ _ (require_connected_connected addr ct r con)).
  split.
  - intros e. apply capture_loop_never_raises.
  - intros res s' H. eapply capture_loop_shape. exact H.
Qed.

Lemma capture_screen_result_shape_witness :
  fst (capture_screen dead 20 "20240101_120000" None (connected [] [])) <>
  Raise (VisaIOError VI_ERROR_TMO).
Proof.
  apply (proj1 (capture_screen_result_shape dead 20 "20240101_120000" None
                  (connected [] []) ltac:(discriminate))
           (VisaIOError VI_ERROR_TMO)).
Defined.

Lemma last_cons {A} (x : A) l d : last (x :: l) d = last l x.
Proof.
  revert x d. induction l as [|y l IH]; intros x d; [reflexivity|].
  change (last (x :: y :: l) d) with (last (y :: l) d).
  rewrite (IH y d). symmetry. apply IH.
Qed.

(** The loop when every store command is refused. *)
Lemma capture_loop_stores_refused W fuel timestamp local_filename fault
  candidates :
  (forall r subdir,
      on_write W r (STOR (remote_path_of timestamp subdir)) =
      inl (fault subdir)) ->
  forall last_error addr ct tmo ch se q f con,
    capture_loop W fuel timestamp local_filename candidates last_error
      (mkAnalyzer addr ct (Some (mkResource tmo ch se q f)) con) =
    (Ret (None, None),
     mkAnalyzer addr ct
       (Some (mkResource tmo ch (se ++ store_commands timestamp candidates)
                q f))
       (con ++ [AllAttemptsFailed
                  (last (map (fun c => Some (fault (fst c))) candidates)
                     last_error)])).
Proof.
  intros Hw. induction candidates as [|[subdir desc] rest IH];
    intros last_error addr ct tmo ch se q f con.
  - simpl. rewrite app_nil_r. reflexivity.
  - change (capture_loop W fuel timestamp local_filename
              ((subdir, desc) :: rest) last_error)
      with (it <- attempt W fuel timestamp local_filename subdir ;;
            match it with
            | Returned l r => ret (Some l, Some r)
            | Continued =>
                capture_loop W fuel timestamp local_filename rest last_error
            | FellThrough e =>
                capture_loop W fuel timestamp local_filename rest (Some e)
            end).
    erewrite bind_Ret.
    2:{ unfold attempt. erewrite try_except_Raise; [reflexivity|].
        apply bind_Raise. unfold write, on_sa, sa_write. cbn [sa].
        rewrite Hw. reflexivity. }
    cbv iota. unfold with_sa, with_sent.
    cbn [timeout chunk_size sent rx frag resource_address cfg_timeout
         console].
    rewrite IH. unfold store_commands. cbn [map fst].
    rewrite <- app_assoc. cbn [app]. rewrite last_cons. reflexivity.
Qed.

(** X13.  An instrument that refuses every store command costs one
    command per candidate and nothing else: the store commands are sent
    in the order of the list, no barrier, listing or file request
    follows, the result is (None, None), the settings are untouched and
    the diagnostic carries the fault of the last candidate. *)
Theorem capture_loop_all_stores_refused :
  forall (W : World) fuel timestamp local_filename fault candidates
         last_error s r,
    sa s = Some r ->
    (forall r' subdir,
        on_write W r' (STOR (remote_path_of timestamp subdir)) =
        inl (fault subdir)) ->
    capture_loop W fuel timestamp local_filename candidates last_error s =
    (Ret (None, None),
     with_console
       (with_sa s
          (Some (with_sent r (sent r ++ store_commands timestamp candidates))))
       (console s ++
        [AllAttemptsFailed
           (last (map (fun c => Some (fault (fst c))) candidates)
              last_error)])).
Proof.
  intros W fuel timestamp local_filename fault candidates last_error
    [addr ct osa con] r Hsa Hw.
  simpl in Hsa. subst osa. destruct r as [tmo ch se q f].
  apply capture_loop_stores_refused. exact Hw.
Qed.

Lemma capture_loop_all_stores_refused_witness :
  capture_screen dead 20 "20240101_120000" None (connected [] []) =
  (Ret (None, None),
   with_console
     (with_sa (connected [] [])
        (Some (mkResource 5000 (Some 20480)
                 (store_commands "20240101_120000" attempts) [] [])))
     [AllAttemptsFailed (Some (VisaIOError VI_ERROR_TMO))]).
Proof.
  exact (capture_loop_all_stores_refused dead 20 "20240101_120000"
           "screenshot_20240101_120000.png"
           (fun _ => VisaIOError VI_ERROR_TMO) attempts None
           (connected [] []) _ eq_refl (fun _ _ => eq_refl)).
Defined.

(** ** Trace acquisition: what a fetch returns, and how it fails *)

Lemma yields_raise {A} (P : A -> Prop) e : yields P (@raise A e).
Proof. intros s a s' E. discriminate. Qed.

(** X14.  Whatever the instrument answers, a trace that [fetch_trace]
    returns is never empty and comes with a frequency axis of exactly as
    many entries as there are samples. *)
Theorem fetch_trace_lengths_agree :
  forall (W : World) trace_name s freqs trace s',
    fetch_trace W trace_name s = (Ret (freqs, trace), s') ->
    trace <> [] /\ List.length freqs = List.length trace.
Proof.
  intros W trace_name s freqs trace s' H.
  assert (Hy : yields
                 (fun res : list float * list Q =>
                    snd res <> [] /\
                    List.length (fst res) = List.length (snd res))
                 (fetch_trace W trace_name)).
  { unfold fetch_trace. do 4 (apply yields_bind; intro).
    match goal with |- yields _ (if ?b then _ else _) => destruct b eqn:E end;
      [apply yields_raise|].
    do 4 (apply yields_bind; intro).
    apply yields_ret. cbn [fst snd]. split.
    - intros Hnil. rewrite Hnil in E. discriminate.
    - rewrite np_linspace_length. apply decoded_count_wins. }
  exact (Hy _ _ _ H).
Qed.

Lemma fetch_trace_lengths_agree_witness :
  [1; 2; 3]%Q <> [] /\
  List.length
    (np_linspace (1000000000 - 2000000 / 2) (1000000000 + 2000000 / 2) 3) =
  List.length [1; 2; 3]%Q.
Proof.
  eapply (fetch_trace_lengths_agree
            (trace_bench "1000000000" "2000000" [1; 2; 3]%Q)
            "TRACE1" (connected [] [])).
  vm_compute. reflexivity.
Defined.

(** X15.  The faults [fetch_trace] lets through.  With the session
    connected and whatever the format commands and the point-count query
    do: an empty trace raises "No trace data returned"; a fault of the
    trace query, of the centre-frequency readback or of the span readback
    is raised unchanged; a readback that is neither empty nor a number
    raises the ValueError of [float]. *)
Theorem fetch_trace_faults :
  forall (W : World) trace_name s r,
    sa s = Some r ->
    ((forall r', on_values W r' [Lit ("TRAC:DATA? " ++ trace_name)] =
                 inr []) ->
     fst (fetch_trace W trace_name s) = Raise NoTraceData) /\
    (forall e,
        (forall r', on_values W r' [Lit ("TRAC:DATA? " ++ trace_name)] =
                    inl e) ->
        fst (fetch_trace W trace_name s) = Raise e) /\
    (forall samples,
        samples <> [] ->
        (forall r', on_values W r' [Lit ("TRAC:DATA? " ++ trace_name)] =
                    inr samples) ->
        (forall e,
            (forall r', on_query W r' [Lit "FREQ:CENT?"] = inl e) ->
            fst (fetch_trace W trace_name s) = Raise e) /\
        (forall cf_text,
            (forall r', on_query W r' [Lit "FREQ:CENT?"] = inr cf_text) ->
            strip cf_text <> EmptyString ->
            py_float W (strip cf_text) = None ->
            fst (fetch_trace W trace_name s) = Raise InvalidFloatLiteral) /\
        (forall cf_text cf e,
            (forall r', on_query W r' [Lit "FREQ:CENT?"] = inr cf_text) ->
            float_or W (strip cf_text) 0 = ret cf ->
            (forall r', on_query W r' [Lit "FREQ:SPAN?"] = inl e) ->
            fst (fetch_trace W trace_name s) = Raise e)).
Proof.
  intros W trace_name [addr ct osa con] r Hsa. simpl in Hsa. subst osa.
  destruct r as [tmo ch se q f].
  split; [|split].
  - intros Hv. run_fetch W; reflexivity.
  - intros e Hv. run_fetch W; reflexivity.
  - intros samples Hne Hv.
    assert (Hlen : (List.length samples =? 0)%nat = false)
      by (destruct samples; [contradiction|reflexivity]).
    split; [|split].
    + intros e Hcf. run_fetch W; reflexivity.
    + intros cf_text Hcf Hnonempty Hbad.
      assert (Hfo : float_or W (strip cf_text) 0 = raise InvalidFloatLiteral)
        by (apply float_or_invalid; assumption).
      run_fetch W; reflexivity.
    + intros cf_text cf e Hcf Hfo Hspan. run_fetch W; reflexivity.
Qed.

Lemma fetch_trace_faults_witness :
  fst (fetch_trace (quiet "1") "TRACE1" (connected [] [])) =
  Raise NoTraceData /\
  fst (fetch_trace (trace_bench "n/a" "2000000" [1; 2; 3]%Q) "TRACE1"
         (connected [] [])) = Raise InvalidFloatLiteral.
Proof.
  split.
  - apply (proj1 (fetch_trace_faults (quiet "1") "TRACE1" (connected [] [])
                    _ eq_refl)).
    intros r'. reflexivity.
  - eapply (proj1 (proj2 (proj2 (proj2
              (fetch_trace_faults (trace_bench "n/a" "2000000" [1; 2; 3]%Q)
                 "TRACE1" (connected [] []) _ eq_refl))
              [1; 2; 3]%Q ltac:(discriminate) (fun _ => eq_refl)))
              "n/a"%string (fun _ => eq_refl)).
    + discriminate.
    + reflexivity.
Defined.

(** *** The ends of the axis in binary64 *)

(** A finite float is a zero or a signed mantissa with an exponent. *)
Lemma is_finite_inv x :
  is_finite x = true ->
  (exists s, Prim2SF x = S754_zero s) \/
  (exists s m e, Prim2SF x = S754_finite s m e).
Proof.
  unfold is_finite, is_nan, is_infinity.
  rewrite !FloatAxioms.eqb_spec, abs_spec.
  change (Prim2SF infinity) with (S754_infinity false).
  destruct (Prim2SF x) as [s|s| |s m e]; intros H.
  - left. exists s. reflexivity.
  - destruct s; discriminate.
  - discriminate.
  - right. exists s, m, e. reflexivity.
Qed.

Lemma SFeqb_finite_refl s m e :
  SFeqb (S754_finite s m e) (S754_finite s m e) = true.
Proof.
  unfold SFeqb, SFcompare.
  destruct s; rewrite Z.compare_refl, Pos.compare_cont_refl; reflexivity.
Qed.

(** Adding zero times a finite float to a finite float gives a float
    that compares equal to it. *)
Lemma zero_times_plus x y :
  is_finite x = true -> is_finite y = true ->
  (0 * x + y =? y)%float = true.
Proof.
  intros Hx Hy.
  rewrite FloatAxioms.eqb_spec, FloatAxioms.add_spec, FloatAxioms.mul_spec.
  change (Prim2SF 0%float) with (S754_zero false).
  destruct (is_finite_inv x Hx) as [[sx ->]|[sx [mx [ex ->]]]];
    destruct (is_finite_inv y Hy) as [[sy ->]|[sy [my [ey ->]]]];
    cbn [SF64mul SFmul SF64add SFadd xorb];
    try apply SFeqb_finite_refl;
    destruct sx, sy; reflexivity.
Qed.

(** X16.  The ends of the frequency axis.  When the trace query decodes
    samples and the readbacks give a centre frequency and a span, the
    axis [fetch_trace] returns ends, for two samples or more, with
    [cf + span/2] itself; it begins with a float equal to [cf - span/2]
    whenever that float and the step are finite and the step is not
    zero; a single sample is placed at [cf - span/2], not at the centre,
    whenever [cf - span/2] and the distance to [cf + span/2] are finite.
    Between the ends the entries are rounded and need not increase: for
    cf = 2^53, span = 2 and three samples the last two entries are
    equal. *)
Theorem fetch_trace_axis_shape :
  (forall (W : World) trace_name s r samples cf_text span_text cf span,
      sa s = Some r ->
      samples <> [] ->
      (forall r', on_values W r' [Lit ("TRAC:DATA? " ++ trace_name)] =
                  inr samples) ->
      (forall r', on_query W r' [Lit "FREQ:CENT?"] = inr cf_text) ->
      (forall r', on_query W r' [Lit "FREQ:SPAN?"] = inr span_text) ->
      float_or W (strip cf_text) 0 = ret cf ->
      float_or W (strip span_text) 1 = ret span ->
      exists freqs,
        fst (fetch_trace W trace_name s) = Ret (freqs, samples) /\
        ((2 <= List.length samples)%nat ->
         nth (List.length samples - 1) freqs 0%float =
         (cf + span / 2)%float) /\
        ((2 <= List.length samples)%nat ->
         is_finite (cf - span / 2) = true ->
         is_finite ((cf + span / 2 - (cf - span / 2))
                    / float_of_nat (List.length samples - 1)) = true ->
         ((cf + span / 2 - (cf - span / 2))
          / float_of_nat (List.length samples - 1) =? 0)%float = false ->
         (nth 0 freqs 0 =? cf - span / 2)%float = true) /\
        (List.length samples = 1%nat ->
         is_finite (cf - span / 2) = true ->
         is_finite (cf + span / 2 - (cf - span / 2)) = true ->
         (nth 0 freqs 0 =? cf - span / 2)%float = true)) /\
  np_linspace (0x1p+53 - 2 / 2) (0x1p+53 + 2 / 2) 3 =
  [0x1.fffffffffffffp+52; 0x1p+53; 0x1p+53]%float.
Proof.
  split; [|vm_compute; reflexivity].
  intros W trace_name s r samples cf_text span_text cf span
    Hsa Hne Hv Hcf Hspan Hfcf Hfspan.
  eexists. split; [|split; [|split]].
  - apply (fetch_trace_run W trace_name s r samples cf_text span_text
             cf span Hsa Hne Hv Hcf Hspan Hfcf Hfspan).
  - apply np_linspace_last.
  - intros H2 Hstart Hstep Hnz.
    rewrite np_linspace_inner by lia. rewrite Hnz.
    change (float_of_nat 0) with 0%float.
    apply zero_times_plus; assumption.
  - intros H1 Hstart Hdelta. rewrite H1, np_linspace_single. cbn [nth].
    apply zero_times_plus; assumption.
Qed.

Lemma fetch_trace_axis_shape_witness :
  exists freqs,
    fst (fetch_trace (trace_bench "1000000000" "2000000" [7; 8]%Q) "TRACE1"
           (connected [] [])) = Ret (freqs, [7; 8]%Q) /\
    nth 1 freqs 0%float = 1001000000%float /\
    (nth 0 freqs 0 =? 999000000)%float = true.
Proof.
  destruct (proj1 fetch_trace_axis_shape
              (trace_bench "1000000000" "2000000" [7; 8]%Q) "TRACE1"%string
              (connected [] []) _ [7; 8]%Q "1000000000"%string
              "2000000"%string 1000000000%float 2000000%float eq_refl
              ltac:(discriminate)
              (fun _ => eq_refl) (fun _ => eq_refl) (fun _ => eq_refl)
              eq_refl eq_refl)
    as [freqs [Hrun [Hlast [Hfirst _]]]].
  exists freqs. split; [exact Hrun|]. split.
  - apply Hlast. simpl. lia.
  - apply Hfirst; [simpl; lia | | |]; vm_compute; reflexivity.
Defined.

(** ** Connecting and disconnecting *)

(** X17.  [connect] never raises and its answer tells whether a session
    is in place.  It returns [True] exactly when the resource manager and
    the resource could be opened and the timeout given to the constructor
    could be assigned to the resource; the session is then the opened
    resource under that timeout, and a command written next is handed to
    it.  In every other case [self.sa] is [None], also when a session was
    in place before, and when the resource was opened and only the
    timeout was rejected; a command written next raises "Analyzer not
    connected".  Neither way does [connect] close anything. *)
Theorem connect_reports_session :
  forall (V : Visa) (W : World) c cmd,
    (fst (connect V c) = true <->
     new_manager V = None /\
     exists r,
       open_resource V (resource_address (self c)) = inr r /\
       assign_timeout V r (cfg_timeout (self c)) = None) /\
    (forall r,
        new_manager V = None ->
        open_resource V (resource_address (self c)) = inr r ->
        assign_timeout V r (cfg_timeout (self c)) = None ->
        sa (self (snd (connect V c))) =
        Some (with_timeout r (cfg_timeout (self c))) /\
        sent_of (self (snd (run (write W cmd) (snd (connect V c))))) =
        sent r ++ [cmd]) /\
    (fst (connect V c) = false ->
     sa (self (snd (connect V c))) = None /\
     fst (run (write W cmd) (snd (connect V c))) = Raise NotConnected) /\
    closings (snd (connect V c)) = closings c.
Proof.
  intros V W c cmd. unfold connect.
  destruct (new_manager V) as [e|].
  - simpl. split; [|split; [|split]]; try reflexivity.
    + split; [discriminate|]. intros [H _]. discriminate.
    + intros r H. discriminate.
    + intros _. split; reflexivity.
  - destruct (open_resource V (resource_address (self c))) as [e|r] eqn:E.
    + simpl. split; [|split; [|split]]; try reflexivity.
      * split; [discriminate|]. intros [_ [r [H _]]]. discriminate.
      * intros r _ H. discriminate.
      * intros _. split; reflexivity.
    + destruct (assign_timeout V r (cfg_timeout (self c))) as [e|] eqn:Et.
      * simpl. split; [|split; [|split]]; try reflexivity.
        -- split; [discriminate|]. intros [_ [r' [H Ht]]].
           injection H as <-. rewrite Et in Ht. discriminate.
        -- intros r' _ H Ht. injection H as <-. rewrite Et in Ht.
           discriminate.
        -- intros _. split; reflexivity.
      * split; [|split; [|split]]; try reflexivity.
        -- split; [|reflexivity]. intros _. split; [reflexivity|].
           exists r. split; [reflexivity|exact Et].
        -- intros r' _ H _. injection H as <-. split; [reflexivity|].
           unfold run, write, on_sa, sa_write, sent_of.
           cbn [snd self sa with_sa].
           destruct (on_write W _ cmd) as [e|[q f]]; reflexivity.
        -- discriminate.
Qed.

Lemma connect_reports_session_witness :
  sa (self (snd (connect (visa_strict (mkResource 2000 None [] [] []))
                   (init "TCPIP0::192.168.1.75::inst0::INSTR" 5000)))) =
  Some (mkResource 5000 None [] [] []) /\
  sa (self (snd (connect (visa_strict (mkResource 2000 None [] [] []))
                   (init "TCPIP0::192.168.1.75::inst0::INSTR"
                      5000000000)))) = None /\
  fst (run (write (quiet "1") [Lit "*CLS"])
         (snd (connect visa_down
                 (mkClient (connected [] []) true [])))) =
  Raise NotConnected.
Proof.
  split; [|split].
  - apply (proj1 (proj2 (connect_reports_session
                           (visa_strict (mkResource 2000 None [] [] []))
                           (quiet "1")
                           (init "TCPIP0::192.168.1.75::inst0::INSTR" 5000)
                           [Lit "*CLS"]))
             (mkResource 2000 None [] [] []) eq_refl eq_refl eq_refl).
  - apply (proj1 (proj2 (proj2 (connect_reports_session
                                  (visa_strict
                                     (mkResource 2000 None [] [] []))
                                  (quiet "1")
                                  (init "TCPIP0::192.168.1.75::inst0::INSTR"
                                     5000000000)
                                  [Lit "*CLS"])))).
    reflexivity.
  - apply (proj1 (proj2 (proj2 (connect_reports_session visa_down
                                  (quiet "1")
                                  (mkClient (connected [] []) true [])
                                  [Lit "*CLS"])))).
    reflexivity.
Defined.

(** X18.  [disconnect] never raises and never clears the session: it
    closes the resource, then the manager, but [self.sa] and [self.rm]
    stay as they were, so a command written afterwards passes the
    connection check and is handed to the closed resource, and a second
    [disconnect] closes the same resource again.  When closing the
    resource raises, the manager is not closed. *)
Theorem disconnect_keeps_session :
  forall (V : Visa) (W : World) c r cmd,
    sa (self c) = Some r ->
    self (disconnect V c) = self c /\
    has_rm (disconnect V c) = has_rm c /\
    sent_of (self (snd (run (write W cmd) (disconnect V c)))) =
    sent r ++ [cmd] /\
    (close_resource V r = None ->
     closings (disconnect V c) =
     closings c ++ CloseResource r ::
                   (if has_rm c then [CloseManager] else [])) /\
    (close_resource V r <> None ->
     closings (disconnect V c) = closings c ++ [CloseResource r]) /\
    (exists tail tail',
        closings (disconnect V (disconnect V c)) =
        closings c ++ CloseResource r :: tail ++ CloseResource r :: tail').
Proof.
  intros V W [[addr ct osa con] rm cl] r cmd Hsa. simpl in Hsa. subst osa.
  assert (Hw : forall rm' cl',
             sent_of (self (snd (run (write W cmd)
                                   (mkClient (mkAnalyzer addr ct (Some r) con)
                                      rm' cl')))) = sent r ++ [cmd]).
  { intros rm' cl'. unfold run, write, on_sa, sa_write, sent_of.
    cbn [snd self sa with_sa].
    destruct (on_write W r cmd) as [e0|[q f]]; reflexivity. }
  unfold disconnect. cbn [self sa has_rm closings].
  destruct (close_resource V r) as [e|] eqn:Ec.
  - cbn [self sa has_rm closings]. rewrite Ec.
    split; [reflexivity|]. split; [reflexivity|]. split; [apply Hw|].
    split; [discriminate|]. split; [reflexivity|].
    exists [], []. cbn [closings app]. rewrite <- app_assoc. reflexivity.
  - destruct rm; cbn [self sa has_rm closings]; rewrite Ec;
      cbn [self sa has_rm closings];
      (split; [reflexivity|]); (split; [reflexivity|]);
      (split; [apply Hw|]);
      (split; [intros _; rewrite <- ?app_assoc; reflexivity|]);
      (split; [congruence|]).
    + exists [CloseManager], [CloseManager].
      repeat rewrite <- app_assoc. reflexivity.
    + exists [], []. repeat rewrite <- app_assoc. reflexivity.
Qed.

Lemma disconnect_keeps_session_witness :
  sent_of (self (snd (run (write (quiet "1") [Lit "*CLS"])
                        (disconnect (visa_stuck (mkResource 5000 None [] [] []))
                           (mkClient (connected [] []) true []))))) =
  [[Lit "*CLS"]] /\
  closings (disconnect (visa_stuck (mkResource 5000 None [] [] []))
              (mkClient (connected [] []) true [])) =
  [CloseResource (mkResource 5000 (Some 20480) [] [] [])].
Proof.
  destruct (disconnect_keeps_session
              (visa_stuck (mkResource 5000 None [] [] [])) (quiet "1")
              (mkClient (connected [] []) true []) _ [Lit "*CLS"] eq_refl)
    as [_ [_ [Hsent [_ [Hstuck _]]]]].
  split; [exact Hsent|]. apply Hstuck. discriminate.
Defined.
